(** * oneseismic-api: the query engine, embedded in Rocq

    A shallow embedding of the parts of the seismic query engine that the
    specification talks about:

    - [Vds]   : [src/internal/vds/vds.cpp] (unit validation, slice, fence and
                horizon sampling on the C++ side);
    - [Capi]  : [src/internal/core/capi.cpp] (status codes, exception mapping,
                the [attribute] entry point);
    - [Cppapi]: the functions of [cppapi.cpp] that the C entry points call;
    - [Core]  : [src/internal/core/core.go] (the Go side: surfaces, buffers,
                worker pools, result assembly);
    - [Model] : the functions of [cppapi.cpp], which is not among the
                sources, after the specification;
    - [WellKnown] : a small cube and surfaces on it, to run the code on.

    Numbers.  A finite [float]/[double] is represented by the rational it
    denotes ([Q]); [==], [<], [<=] are the comparisons of [Q].  NaN and the
    infinities have no representation and rounding of [+] is not modelled.
    Go [int] and C [size_t] values are [nat] or [Z]; where the code multiplies
    a [size_t] the wrap-around at 2^64 is written out.

    Memory.  A Go [[]byte] / C [char*] buffer is a list of [memval]: either
    the zero byte or the k-th byte of a stored 32-bit float. *)

From Stdlib Require Import ZArith QArith Qround Qabs Qminmax Lia Lqa String Ascii List Permutation.
From stdpp Require Import base list strings.

(** ** Enumerations shared by Go and C++ ([ctypes.h]) *)

Module Ctypes.

Inductive axis_name := I | J | K | INLINE | CROSSLINE | DEPTH | TIME | SAMPLE.

Inductive coordinate_system := INDEX | ANNOTATION | CDP.

Inductive interpolation_method := NEAREST | LINEAR | CUBIC | ANGULAR | TRIANGULAR.

Inductive attribute :=
| VALUE | MIN | MINAT | MAX | MAXAT | MAXABS | MAXABSAT | MEAN | MEANABS
| MEANPOS | MEANNEG | MEDIAN | RMS | VAR | SD | SUMPOS | SUMNEG.

End Ctypes.

(** ** C++ exceptions and results *)

Inductive exn :=
| runtime_error (what : string)
| bad_request (what : string)
| nullptr_error (what : string).

Definition what (e : exn) : string :=
  match e with
  | runtime_error w | bad_request w | nullptr_error w => w
  end.

Inductive result (A : Type) :=
| Ok (a : A)
| Throw (e : exn).

Arguments Ok {A} a.
Arguments Throw {A} e.

Definition bind {A B} (r : result A) (k : A -> result B) : result B :=
  match r with
  | Ok a => k a
  | Throw e => Throw e
  end.

Notation "'let?' x := r 'in' k" := (bind r (fun x => k))
  (at level 10, x name, r at level 100, k at level 200).

(** ** Numbers and text *)

Definition Qlt_bool (x y : Q) : bool := negb (Qle_bool y x).

Definition digit (n : nat) : string :=
  String (ascii_of_nat (48 + n mod 10)) EmptyString.

Fixpoint digits (fuel n : nat) (acc : string) : string :=
  match fuel with
  | 0 => acc
  | S fuel' =>
      let acc' := digit n +:+ acc in
      if n / 10 =? 0 then acc' else digits fuel' (n / 10) acc'
  end.

(** [std::to_string(int)] and Go's [%d] on a non-negative number. *)
Definition show_nat (n : nat) : string := digits (S n) n "".

(** Left-pad with zeros to [width] characters. *)
Fixpoint pad0 (fuel width : nat) (s : string) : string :=
  match fuel with
  | 0 => s
  | S fuel' => if String.length s <? width then pad0 fuel' width ("0" +:+ s) else s
  end.

(** Round to the nearest integer, ties to the even one. *)
Definition round_half_even (q : Q) : Z :=
  let f := Qfloor q in
  let r := (q - inject_Z f)%Q in
  if Qlt_bool r (1#2) then f
  else if Qlt_bool (1#2) r then (f + 1)%Z
  else if Z.even f then f else (f + 1)%Z.

(** [std::to_string(float)] and Go's [%f]: fixed notation, six decimals. *)
Definition show_f (q : Q) : string :=
  let m := round_half_even (Qabs q * inject_Z 1000000)%Q in
  let ip := Z.to_nat (m / 1000000) in
  let fp := Z.to_nat (m mod 1000000) in
  (if Qlt_bool q 0 then "-" else "") +:+ show_nat ip +:+ "." +:+ pad0 6 6 (show_nat fp).


(** ** Buffers *)

Inductive memval :=
| Byte0
| Fragment (v : Q) (k : nat).

Definition sizeof_float : nat := 4.

Definition encode_f32 (v : Q) : list memval :=
  [Fragment v 0; Fragment v 1; Fragment v 2; Fragment v 3].

Definition decode_f32 (bs : list memval) : option Q :=
  match bs with
  | [Byte0; Byte0; Byte0; Byte0] => Some 0%Q
  | [Fragment v 0; Fragment v1 1; Fragment v2 2; Fragment v3 3] =>
      if Qeq_bool v v1 && Qeq_bool v v2 && Qeq_bool v v3 then Some v else None
  | _ => None
  end.

Definition floats_to_bytes (fs : list Q) : list memval := flat_map encode_f32 fs.

(** [memcpy(dst + off, src, |src|)]. *)
Definition memcpy (dst : list memval) (off : nat) (src : list memval) : list memval :=
  list_inserts off src dst.

(** The [cell]-th float of a buffer. *)
Definition load_f32 (buf : list memval) (cell : nat) : option Q :=
  decode_f32 (take sizeof_float (drop (cell * sizeof_float) buf)).

Definition store_f32 (buf : list memval) (cell : nat) (v : Q) : list memval :=
  memcpy buf (cell * sizeof_float) (encode_f32 v).

(** What a callee does to a buffer it was handed a pointer to: a sequence
    of [memcpy(out + offset, bytes)]. *)
Definition store : Type := nat * list memval.

Definition apply_stores (buf : list memval) (ws : list store) : list memval :=
  foldl (fun b w => memcpy b (fst w) (snd w)) buf ws.

(** ** The C++ engine of [src/internal/vds/vds.cpp] *)

Module Axis.

(** [axis.hpp] is not part of the sources; an axis is the record of what
    its accessors return. *)
Record t := {
  nsamples : nat;
  dimension : nat;
  unit : string;
  min : Q;
  max : Q;
  stride : Q;
}.

End Axis.

Module Vds.

Import Ctypes.

(** [OpenVDS::Vector<double, 3>]. *)
Definition Vector3 : Type := Q * Q * Q.

Definition at3 (v : Vector3) (i : nat) : Q :=
  match v, i with
  | (a, _, _), 0 => a
  | (_, b, _), 1 => b
  | (_, _, c), _ => c
  end.

(** [voxel] is [float[OpenVDS::Dimensionality_Max]]. *)
Abbreviation voxel := (list Q).

Definition zero_voxel : voxel := replicate 6 0%Q.

(** [OpenVDS::KnownUnitNames]: constants of the volume library. *)
Record KnownUnitNames := {
  Meter : string;
  Foot : string;
  USSurveyFoot : string;
  Millisecond : string;
  Second : string;
  Unitless : string;
}.

Record MetadataHandle := {
  iline : Axis.t;
  xline : Axis.t;
  sample : Axis.t;
  (* OpenVDS::IJKCoordinateTransformer *)
  AnnotationToIJKPosition : Vector3 -> Vector3;
  WorldToIJKPosition : Vector3 -> Vector3;
}.

(** What the volume library does for an opened cube.  [None] is a request
    whose [WaitForCompletion()] returned false. *)
Record DataHandle := {
  get_metadata : MetadataHandle;
  units : KnownUnitNames;
  (* direction.hpp: Direction::to_string() *)
  direction_to_string : axis_name -> string;
  (* SubVolume::set_slice, subvolume_buffer_size and read_subvolume *)
  read_slice : axis_name -> Z -> result (list memval);
  GetVolumeTracesBufferSize : nat -> nat -> nat;
  RequestVolumeTraces : list voxel -> interpolation_method -> nat -> option (list Q);
  GetVolumeSamplesBufferSize : nat -> nat;
  RequestVolumeSamples : list voxel -> interpolation_method -> option (list Q);
}.

(** [DataHandle handle(url, credentials)]: opening can throw. *)
Definition Storage : Type := string -> string -> result DataHandle.

Record response := {
  data : option (list memval);
  err : option string;
  size : nat;
}.

Definition to_response_data (bytes : list memval) (size : nat) : response :=
  {| data := Some bytes; err := None; size := size |}.

Definition to_response_exn (e : exn) : response :=
  {| data := None; err := Some (what e); size := 0 |}.

(** *** Unit validation of Z-slices *)

Definition unit_validation (u : KnownUnitNames) (ax : axis_name) (zunit : string) : bool :=
  let depthunits := [Meter u; Foot u; USSurveyFoot u] in
  let timeunits := [Millisecond u; Second u] in
  let sampleunits := [Unitless u] in
  let isoneof := fun x : string => String.eqb x zunit in
  match ax with
  | I | J | K | INLINE | CROSSLINE => true
  | DEPTH => existsb isoneof depthunits
  | TIME => existsb isoneof timeunits
  | SAMPLE => existsb isoneof sampleunits
  end.

Definition fetch_slice (vds : Storage) (url credentials : string)
    (direction : axis_name) (lineno : Z) : result response :=
  let? handle := vds url credentials in
  let metadata := get_metadata handle in
  let zunit := Axis.unit (sample metadata) in
  if negb (unit_validation (units handle) direction zunit) then
    let msg := "Unable to use " +:+ direction_to_string handle direction in
    let msg := msg +:+ " on cube with depth units: " +:+ zunit in
    Throw (runtime_error msg)
  else
    let? data := read_slice handle direction lineno in
    Ok (to_response_data data (length data)).

Definition slice (vds : Storage) (url credentials : string)
    (lineno : Z) (ax : axis_name) : response :=
  match fetch_slice vds url credentials ax lineno with
  | Ok r => r
  | Throw e => to_response_exn e
  end.

(** *** Fence *)

Definition transform_coordinate (metadata : MetadataHandle)
    (cs : coordinate_system) (x y : Q) : Vector3 :=
  match cs with
  | INDEX => (x, y, 0%Q)
  | ANNOTATION => AnnotationToIJKPosition metadata (x, y, 0%Q)
  | CDP => WorldToIJKPosition metadata (x, y, 0%Q)
  end.

Definition out_of_boundaries_msg (x y : Q) (voxel : nat) : string :=
  let coordinate_str := "(" +:+ show_f x +:+ "," +:+ show_f y +:+ ")" in
  "Coordinate " +:+ coordinate_str +:+ " is out of boundaries " +:+
  "in dimension " +:+ show_nat voxel +:+ ".".

Definition validate_boundary (x y : Q) (coordinate : Vector3)
    (voxel : nat) (axis : Axis.t) : result () :=
  let min := (- (1 # 2))%Q in
  let max := (inject_Z (Z.of_nat (Axis.nsamples axis)) - (1 # 2))%Q in
  if Qlt_bool (at3 coordinate voxel) min || Qle_bool max (at3 coordinate voxel) then
    Throw (runtime_error (out_of_boundaries_msg x y voxel))
  else Ok ().

(** [coords[i][dim] = v]. *)
Definition set_coord (coords : list voxel) (i dim : nat) (v : Q) : list voxel :=
  alter (fun vox : voxel => <[dim := v]> vox) i coords.

(** The point loop of [fetch_fence]; [i] counts up while [n] points remain.
    A read past the end of [coordinates] is outside the contract of the
    function (the caller passes [2 * npoints] floats) and reads 0 here. *)
Fixpoint fence_loop (metadata : MetadataHandle) (cs : coordinate_system)
    (coordinates : list Q) (n i : nat) (coords : list voxel) : result (list voxel) :=
  match n with
  | 0 => Ok coords
  | S n' =>
      let x := default 0%Q (coordinates !! (2 * i)) in
      let y := default 0%Q (coordinates !! (2 * i + 1)) in
      let coordinate := transform_coordinate metadata cs x y in
      let? _ := validate_boundary x y coordinate 0 (iline metadata) in
      let? _ := validate_boundary x y coordinate 1 (xline metadata) in
      let c0 := (at3 coordinate 0 + (1 # 2))%Q in
      let c1 := (at3 coordinate 1 + (1 # 2))%Q in
      let coords := set_coord coords i (Axis.dimension (iline metadata)) c0 in
      let coords := set_coord coords i (Axis.dimension (xline metadata)) c1 in
      fence_loop metadata cs coordinates n' (S i) coords
  end.

(** [DataHandle::traces_buffer_size] and [DataHandle::read_traces]
    ([datahandle.cpp]); the request writes its floats into [buffer]. *)
Definition traces_buffer_size (handle : DataHandle) (ntraces : nat) : nat :=
  let dimension := Axis.dimension (sample (get_metadata handle)) in
  GetVolumeTracesBufferSize handle ntraces dimension.

Definition read_traces (handle : DataHandle) (buffer : list memval)
    (coordinates : list voxel) (interpolation : interpolation_method)
    : result (list memval) :=
  let dimension := Axis.dimension (sample (get_metadata handle)) in
  match RequestVolumeTraces handle coordinates interpolation dimension with
  | Some fs => Ok (memcpy buffer 0 (floats_to_bytes fs))
  | None => Throw (runtime_error "Failed to read from VDS.")
  end.

Definition fetch_fence (vds : Storage) (url credentials : string)
    (cs : coordinate_system) (coordinates : list Q) (npoints : nat)
    (interpolation : interpolation_method) : result response :=
  let? handle := vds url credentials in
  let metadata := get_metadata handle in
  let coords := replicate npoints zero_voxel in
  let? coords := fence_loop metadata cs coordinates npoints 0 coords in
  let size := traces_buffer_size handle npoints in
  let data := replicate size Byte0 in
  let? data := read_traces handle data coords interpolation in
  Ok (to_response_data data size).

Definition fence (vds : Storage) (url credentials : string)
    (cs : coordinate_system) (coordinates : list Q) (npoints : nat)
    (interpolation : interpolation_method) : response :=
  match fetch_fence vds url credentials cs coordinates npoints interpolation with
  | Ok r => r
  | Throw e => to_response_exn e
  end.

(** *** Horizon sampling *)

Module RegularSurface.

(** The surface handed to [fetch_horizon].  [regularsurface.hpp] is not part
    of the sources: [coordinate] stands for [RegularSurface::coordinate], the
    rotated affine map from (row, col) to world coordinates. *)
Record t := {
  data : list Q;
  nrows : nat;
  ncols : nat;
  coordinate : nat -> nat -> Q * Q;
}.

Definition size (s : t) : nat := nrows s * ncols s.

(** Row-major lookup of the height map. *)
Definition value (s : t) (row col : nat) : Q :=
  default 0%Q (data s !! (row * ncols s + col)).

End RegularSurface.

Module VerticalWindow.

(** Modelled from the spec: the vertical window of [verticalwindow.hpp],
    which is not under src/.  "VerticalWindow. {stepsize, nsamples_above,
    nsamples_below, reference_offset}. Size = nsamples_above + 1 +
    nsamples_below." *)
Record t := {
  nsamples_above : nat;
  nsamples_below : nat;
}.

Definition size (w : t) : nat := nsamples_above w + 1 + nsamples_below w.

End VerticalWindow.

(** Modelled from the spec: [DataHandle::samples_buffer_size] and
    [DataHandle::read_samples], which the [datahandle.cpp] under src/ does
    not contain.  "any failure from the backing library surfaces as a
    runtime error: Failed to read from VDS." *)
Definition samples_buffer_size (handle : DataHandle) (nsamples : nat) : nat :=
  GetVolumeSamplesBufferSize handle nsamples.

Definition read_samples (handle : DataHandle) (buffer : list memval)
    (samples : list voxel) (interpolation : interpolation_method)
    : result (list memval) :=
  match RequestVolumeSamples handle samples interpolation with
  | Some fs => Ok (memcpy buffer 0 (floats_to_bytes fs))
  | None => Throw (runtime_error "Failed to read from VDS.")
  end.

(** For every index in [novals], write [vertical_size] successive floats
    with value [fillvalue] to [dst]. *)
Definition write_fillvalue (dst : list memval) (novals : list nat)
    (vertical_size : nat) (fillvalue : Q) : list memval :=
  let fill := replicate vertical_size fillvalue in
  foldl (fun dst i => memcpy dst (i * sizeof_float) (floats_to_bytes fill)) dst novals.

Definition inrange (axis : Axis.t) (voxel : Q) : bool :=
  Qle_bool 0 voxel && Qlt_bool voxel (inject_Z (Z.of_nat (Axis.nsamples axis))).

(** The state of the cell loop of [fetch_horizon]. *)
Record cursor := {
  samples : list voxel;
  noval_indicies : list nat;
  pos : nat;
}.

Definition vertical_bounds_msg (metadata : MetadataHandle)
    (row col : nat) (top bottom : Q) : string :=
  "Vertical window is out of vertical bounds at" +:+
  " row: " +:+ show_nat row +:+
  " col:" +:+ show_nat col +:+
  ". Request: [" +:+ show_f bottom +:+
  ", " +:+ show_f top +:+
  "]. Seismic bounds: [" +:+ show_f (Axis.min (sample metadata)) +:+
  ", " +:+ show_f (Axis.max (sample metadata)) +:+ "]".

(** [for (double cur_depth = top; cur_depth <= bottom; cur_depth++)]. *)
Fixpoint depth_loop (fuel : nat) (metadata : MetadataHandle) (ij0 ij1 : Q)
    (cur_depth bottom : Q) (samples : list voxel) (i : nat) : option (list voxel * nat) :=
  if Qle_bool cur_depth bottom then
    match fuel with
    | 0 => None
    | S fuel' =>
        let samples := set_coord samples i (Axis.dimension (iline metadata)) ij0 in
        let samples := set_coord samples i (Axis.dimension (xline metadata)) ij1 in
        let samples := set_coord samples i (Axis.dimension (sample metadata)) cur_depth in
        depth_loop fuel' metadata ij0 ij1 (cur_depth + 1)%Q bottom samples (S i)
    end
  else Some (samples, i).

Definition skip_cell (vertical : VerticalWindow.t) (st : cursor) : cursor :=
  {| samples := samples st;
     noval_indicies := noval_indicies st ++ [pos st];
     pos := pos st + VerticalWindow.size vertical |}.

(** The body of the two nested loops, for one (row, col).  [None]: the
    depth loop did not finish within [fuel] steps. *)
Definition horizon_cell (fuel : nat) (metadata : MetadataHandle)
    (surface : RegularSurface.t) (fillvalue : Q) (vertical : VerticalWindow.t)
    (row col : nat) (st : cursor) : option (result cursor) :=
  let depth := RegularSurface.value surface row col in
  if Qeq_bool depth fillvalue then Some (Ok (skip_cell vertical st))
  else
    let cdp := RegularSurface.coordinate surface row col in
    let ij := WorldToIJKPosition metadata (fst cdp, snd cdp, 0%Q) in
    let k := AnnotationToIJKPosition metadata (0%Q, 0%Q, depth) in
    let ij0 := (at3 ij 0 + (1 # 2))%Q in
    let ij1 := (at3 ij 1 + (1 # 2))%Q in
    let k2 := (at3 k 2 + (1 # 2))%Q in
    if negb (inrange (iline metadata) ij0) || negb (inrange (xline metadata) ij1) then
      Some (Ok (skip_cell vertical st))
    else
      let top := (k2 - inject_Z (Z.of_nat (VerticalWindow.nsamples_above vertical)))%Q in
      let bottom := (k2 + inject_Z (Z.of_nat (VerticalWindow.nsamples_below vertical)))%Q in
      if negb (inrange (sample metadata) top) || negb (inrange (sample metadata) bottom) then
        Some (Throw (runtime_error (vertical_bounds_msg metadata row col top bottom)))
      else
        match depth_loop fuel metadata ij0 ij1 top bottom (samples st) (pos st) with
        | Some (samples', i') =>
            Some (Ok {| samples := samples';
                        noval_indicies := noval_indicies st;
                        pos := i' |})
        | None => None
        end.

(** Fold a cell body over a list of indices, stopping at the first throw. *)
Fixpoint for_each {S : Type} (body : nat -> S -> option (result S))
    (indices : list nat) (st : S) : option (result S) :=
  match indices with
  | [] => Some (Ok st)
  | i :: rest =>
      match body i st with
      | Some (Ok st') => for_each body rest st'
      | other => other
      end
  end.

Definition horizon_cells (fuel : nat) (metadata : MetadataHandle)
    (surface : RegularSurface.t) (fillvalue : Q) (vertical : VerticalWindow.t)
    (st : cursor) : option (result cursor) :=
  for_each (fun row =>
    for_each (fun col =>
      horizon_cell fuel metadata surface fillvalue vertical row col)
      (seq 0 (RegularSurface.ncols surface)))
    (seq 0 (RegularSurface.nrows surface)) st.

(** [window above below stride] is [VerticalWindow(above, below, stride)]
    after [squeeze()]. *)
Definition fetch_horizon (fuel : nat) (vds : Storage) (url credentials : string)
    (window : Q -> Q -> Q -> VerticalWindow.t)
    (surface : RegularSurface.t) (fillvalue above below : Q)
    (interpolation : interpolation_method) : option (result response) :=
  match vds url credentials with
  | Throw e => Some (Throw e)
  | Ok handle =>
      let metadata := get_metadata handle in
      let vertical := window above below (Axis.stride (sample metadata)) in
      let nsamples := RegularSurface.size surface * VerticalWindow.size vertical in
      let st := {| samples := replicate nsamples zero_voxel;
                   noval_indicies := [];
                   pos := 0 |} in
      match horizon_cells fuel metadata surface fillvalue vertical st with
      | None => None
      | Some (Throw e) => Some (Throw e)
      | Some (Ok st) =>
          let size := samples_buffer_size handle nsamples in
          let buffer := replicate size Byte0 in
          match read_samples handle buffer (samples st) interpolation with
          | Throw e => Some (Throw e)
          | Ok buffer =>
              let buffer :=
                write_fillvalue buffer (noval_indicies st)
                  (VerticalWindow.size vertical) fillvalue in
              Some (Ok (to_response_data buffer size))
          end
      end
  end.

(** *** Attributes of a horizon *)

(** The attribute objects that [calculate_attribute] builds.  [attribute.hpp]
    is not part of the sources: an object is what its constructor was given,
    the start of its map in the output buffer first. *)
Inductive Attribute :=
| Value (dst size index : nat)
| Min (dst size : nat)
| Max (dst size : nat)
| Mean (dst size vsize : nat)
| Rms (dst size vsize : nat).

(** [for (int i = 0; i < nattributes; ++i)] of [calculate_attribute]. *)
Fixpoint attribute_loop (attributes : list attribute) (i size index vsize : nat)
    (attrs : list Attribute) : result (list Attribute) :=
  match attributes with
  | [] => Ok attrs
  | a :: rest =>
      let dst := i * size in
      let? attr :=
        match a with
        | VALUE => Ok (Value dst size index)
        | MIN => Ok (Min dst size)
        | MAX => Ok (Max dst size)
        | MEAN => Ok (Mean dst size vsize)
        | RMS => Ok (Rms dst size vsize)
        | _ => Throw (runtime_error "Attribute not implemented")
        end in
      attribute_loop rest (S i) size index vsize (attrs ++ [attr])
  end.

(** [calc_attributes] stands for [Horizon::calc_attributes], which writes
    the maps into the buffer the objects point into. *)
Definition calculate_attribute
    (calc_attributes : list Attribute -> list memval -> list memval)
    (vertical : VerticalWindow.t) (surface : RegularSurface.t)
    (attributes : list attribute) (nattributes : nat) : result response :=
  let index := VerticalWindow.nsamples_above vertical in
  let vsize := VerticalWindow.size vertical in
  let size := RegularSurface.size surface * sizeof_float in
  let buffer := replicate (size * nattributes) Byte0 in
  let? attrs := attribute_loop (take nattributes attributes) 0 size index vsize [] in
  let buffer := calc_attributes attrs buffer in
  Ok (to_response_data buffer (size * nattributes)).

End Vds.

(** ** The C entry points of [src/internal/core/capi.cpp] *)

Module Capi.

Import Ctypes.

Inductive status_code :=
| STATUS_OK
| STATUS_NULLPTR_ERROR
| STATUS_RUNTIME_ERROR
| STATUS_BAD_REQUEST.

Record Context := { errmsg : string }.

Definition context_new : Context := {| errmsg := "" |}.

Record response := {
  data : list memval;
  size : nat;
}.

Definition response_empty : response := {| data := []; size := 0 |}.

Record Plane := {
  xori : Q;
  yori : Q;
  xinc : Q;
  yinc : Q;
  rot : Q;
}.

(** The object built by [regular_surface_new]. *)
Record RegularSurface := {
  surface_data : list Q;
  nrows : nat;
  ncols : nat;
  plane : Plane;
  fillvalue : Q;
}.

Definition surface_size (s : RegularSurface) : nat := nrows s * ncols s.

(** The functions of namespace [cppapi] that the entry points forward to.
    [cppapi.cpp] is not part of the sources; the entry points and the Go
    code are written against this interface. *)
Record Cppapi := {
  cppapi_fence :
    Vds.DataHandle -> coordinate_system -> list Q -> nat ->
    interpolation_method -> option Q -> result response;
  cppapi_horizon_buffer_offsets :
    Vds.DataHandle -> RegularSurface -> RegularSurface -> RegularSurface ->
    nat -> result (list Z);
  (* returns what it writes through [out] *)
  cppapi_horizon :
    Vds.DataHandle -> RegularSurface -> RegularSurface -> RegularSurface ->
    list Z -> interpolation_method -> nat -> nat -> result (list store);
  (* handle, horizon buffer, hsize, offsets, fill value, surfaces,
     attributes, step size, from, to; returns what it writes through the
     pointers [outs] *)
  cppapi_attributes :
    Vds.DataHandle -> list memval -> nat -> list Z -> Q ->
    RegularSurface -> RegularSurface -> RegularSurface ->
    list attribute -> Q -> nat -> nat -> result (list store);
}.

(** What a C entry point leaves behind: the status it returns, the context
    it wrote the message to, and the value behind its [out] pointer. *)
Record outcome (A : Type) := {
  status : status_code;
  context : Context;
  out : A;
}.

Arguments status {A} _.
Arguments context {A} _.
Arguments out {A} _.

Definition handle_exception (ctx : Context) (e : exn) : status_code * Context :=
  match e with
  | nullptr_error w => (STATUS_NULLPTR_ERROR, {| errmsg := w |})
  | bad_request w => (STATUS_BAD_REQUEST, {| errmsg := w |})
  | runtime_error w => (STATUS_RUNTIME_ERROR, {| errmsg := w |})
  end.

(** [try { ...; return STATUS_OK; } catch (...) { return handle_exception(...); }];
    on a throw the memory behind [out] is left as the caller passed it. *)
Definition entry {A} (ctx : Context) (out0 : A) (body : result A) : outcome A :=
  match body with
  | Ok a => {| status := STATUS_OK; context := ctx; out := a |}
  | Throw e =>
      let '(st, ctx') := handle_exception ctx e in
      {| status := st; context := ctx'; out := out0 |}
  end.

Definition require_handle (handle : option Vds.DataHandle) : result Vds.DataHandle :=
  match handle with
  | Some h => Ok h
  | None => Throw (nullptr_error "Invalid handle")
  end.

Definition fence (api : Cppapi) (ctx : Context) (handle : option Vds.DataHandle)
    (cs : coordinate_system) (coordinates : list Q) (npoints : nat)
    (interpolation : interpolation_method) (fillValue : option Q)
    : outcome response :=
  entry ctx response_empty
    (let? h := require_handle handle in
     cppapi_fence api h cs coordinates npoints interpolation fillValue).

Definition horizon_buffer_offsets (api : Cppapi) (ctx : Context)
    (handle : option Vds.DataHandle) (reference top bottom : RegularSurface)
    (out0 : list Z) (out_size : nat) : outcome (list Z) :=
  entry ctx out0
    (let? h := require_handle handle in
     let? offsets := cppapi_horizon_buffer_offsets api h reference top bottom out_size in
     Ok (list_inserts 0 (take out_size offsets) out0)).

Definition horizon (api : Cppapi) (ctx : Context) (handle : option Vds.DataHandle)
    (reference top bottom : RegularSurface) (buffer_offsets : list Z)
    (interpolation : interpolation_method) (from to : nat)
    (out0 : list memval) : outcome (list memval) :=
  entry ctx out0
    (let? h := require_handle handle in
     let? ws := cppapi_horizon api h reference top bottom buffer_offsets
                  interpolation from to in
     Ok (apply_stores out0 ws)).

(** [Horizon::mapsize()]: the bytes of one attribute map. *)
Definition mapsize (hsize : nat) : nat := hsize * sizeof_float.

Definition attribute (api : Cppapi) (ctx : Context) (handle : option Vds.DataHandle)
    (reference top bottom : RegularSurface) (data_offsets : list Z)
    (data : list memval) (size : nat) (attributes : list attribute)
    (nattributes : nat) (stepsize : Q) (from to : nat)
    (out0 : list memval) : outcome (list memval) :=
  entry ctx out0
    (let? h := require_handle handle in
     if to <=? from then Throw (runtime_error "No data to iterate over")
     else
       let hsize := surface_size reference in
       let sample := Vds.sample (Vds.get_metadata h) in
       (* sample.stepsize() *)
       let stepsize := if Qeq_bool stepsize 0 then Axis.stride sample else stepsize in
       (* outs[i] = out + horizon.mapsize() * i: the callee addresses the
          i-th map at byte offset [mapsize hsize * i] of [out] *)
       let? ws := cppapi_attributes api h data hsize data_offsets
                    (fillvalue reference) reference top bottom
                    (take nattributes attributes) stepsize from to in
       Ok (apply_stores out0 ws)).

End Capi.

(** ** The Go side: [src/internal/core/core.go] *)

Module Core.

Import Ctypes.

Inductive error :=
| InvalidArgument (msg : string)
| InternalError (msg : string)
| errors_New (msg : string).

Definition NewInvalidArgument (msg : string) : error := InvalidArgument msg.
Definition NewInternalError (msg : string) : error := InternalError msg.


(** The outcome of a Go function returning [(T, error)]: a value with a nil
    error, a nil value with an error, or a run-time panic. *)
Inductive go (A : Type) :=
| Return (a : A)
| Err (e : error)
| Panic.

Arguments Return {A} a.
Arguments Err {A} e.
Arguments Panic {A}.

(** Translate C status codes into Go error types. *)
Definition toError (status : Capi.status_code) (ctx : Capi.Context) : option error :=
  match status with
  | Capi.STATUS_OK => None
  | Capi.STATUS_NULLPTR_ERROR
  | Capi.STATUS_RUNTIME_ERROR => Some (NewInternalError (Capi.errmsg ctx))
  | Capi.STATUS_BAD_REQUEST => Some (NewInvalidArgument (Capi.errmsg ctx))
  end.

Definition to_lower_ascii (c : ascii) : ascii :=
  let n := nat_of_ascii c in
  if (65 <=? n) && (n <=? 90) then ascii_of_nat (n + 32) else c.

(** [strings.ToLower] on ASCII text. *)
Fixpoint ToLower (s : string) : string :=
  match s with
  | EmptyString => EmptyString
  | String c rest => String (to_lower_ascii c) (ToLower rest)
  end.

(** [strings.Join]. *)
Fixpoint Join (elems : list string) (sep : string) : string :=
  match elems with
  | [] => ""
  | [e] => e
  | e :: rest => e +:+ sep +:+ Join rest sep
  end.

Definition attribute_options : list string :=
  ["samplevalue"; "min"; "max"; "maxabs"; "mean"; "meanabs"; "meanpos";
   "meanneg"; "median"; "rms"; "var"; "sd"; "sumpos"; "sumneg"].

Definition GetAttributeType (attribute : string) : go Ctypes.attribute :=
  let a := ToLower attribute in
  if String.eqb a "samplevalue" then Return VALUE
  else if String.eqb a "min" then Return MIN
  else if String.eqb a "max" then Return MAX
  else if String.eqb a "maxabs" then Return MAXABS
  else if String.eqb a "mean" then Return MEAN
  else if String.eqb a "meanabs" then Return MEANABS
  else if String.eqb a "meanpos" then Return MEANPOS
  else if String.eqb a "meanneg" then Return MEANNEG
  else if String.eqb a "median" then Return MEDIAN
  else if String.eqb a "rms" then Return RMS
  else if String.eqb a "var" then Return VAR
  else if String.eqb a "sd" then Return SD
  else if String.eqb a "sumpos" then Return SUMPOS
  else if String.eqb a "sumneg" then Return SUMNEG
  else
    Err (NewInvalidArgument
           ("invalid attribute '" +:+ attribute +:+ "', valid options are: " +:+
            Join attribute_options ", ")).

Definition GetAxis (direction : string) : go Ctypes.axis_name :=
  if String.eqb direction "i" then Return I
  else if String.eqb direction "j" then Return J
  else if String.eqb direction "k" then Return K
  else if String.eqb direction "inline" then Return INLINE
  else if String.eqb direction "crossline" then Return CROSSLINE
  else if String.eqb direction "depth" then Return DEPTH
  else if String.eqb direction "time" then Return TIME
  else if String.eqb direction "sample" then Return SAMPLE
  else
    let options := "i, j, k, inline, crossline or depth/time/sample" in
    Err (NewInvalidArgument
           ("invalid direction '" +:+ direction +:+ "', valid options are: " +:+
            options)).

Definition GetCoordinateSystem (coordinateSystem : string)
    : go Ctypes.coordinate_system :=
  let c := ToLower coordinateSystem in
  if String.eqb c "ij" then Return INDEX
  else if String.eqb c "ilxl" then Return ANNOTATION
  else if String.eqb c "cdp" then Return CDP
  else
    let options := "ij, ilxl, cdp" in
    Err (NewInvalidArgument
           ("coordinate system not recognized: '" +:+ coordinateSystem +:+
            "', valid options are: " +:+ options)).

Definition GetInterpolationMethod (interpolation : string)
    : go Ctypes.interpolation_method :=
  let i := ToLower interpolation in
  if String.eqb i "" then Return NEAREST (* fallthrough *)
  else if String.eqb i "nearest" then Return NEAREST
  else if String.eqb i "linear" then Return LINEAR
  else if String.eqb i "cubic" then Return CUBIC
  else if String.eqb i "angular" then Return ANGULAR
  else if String.eqb i "triangular" then Return TRIANGULAR
  else
    let options := "nearest, linear, cubic, angular or triangular" in
    Err (NewInvalidArgument
           ("invalid interpolation method '" +:+ interpolation +:+
            "', valid options are: " +:+ options)).

Record RegularSurface := {
  Values : list (list Q);
  Rotation : Q;
  Xori : Q;
  Yori : Q;
  Xinc : Q;
  Yinc : Q;
  FillValue : Q;
}.

Definition rows_msg (ncols i len_row : nat) : string :=
  "Surface rows are not of the same length. " +:+
  "Row 0 has " +:+ show_nat ncols +:+ " elements. Row " +:+ show_nat i +:+
  " has " +:+ show_nat len_row +:+ " elements".

(** The inner loop of [toCdata]: [for j, value := range row]. *)
Fixpoint toCdata_row (fill shift : Q) (ncols i j : nat) (row : list Q)
    (cdata : list Q) : list Q :=
  match row with
  | [] => cdata
  | value :: rest =>
      let cdata :=
        if Qeq_bool value fill then <[i * ncols + j := value]> cdata
        else <[i * ncols + j := (value + shift)%Q]> cdata in
      toCdata_row fill shift ncols i (S j) rest cdata
  end.

(** The outer loop of [toCdata]: [for i, row := range surface.Values]. *)
Fixpoint toCdata_rows (fill shift : Q) (ncols i : nat) (rows : list (list Q))
    (cdata : list Q) : go (list Q) :=
  match rows with
  | [] => Return cdata
  | row :: rest =>
      if negb (length row =? ncols) then
        Err (NewInvalidArgument (rows_msg ncols i (length row)))
      else
        toCdata_rows fill shift ncols (S i) rest
          (toCdata_row fill shift ncols i 0 row cdata)
  end.

Definition toCdata (surface : RegularSurface) (shift : Q) : go (list Q) :=
  match Values surface with
  | [] => Panic (* surface.Values[0]: index out of range *)
  | row0 :: _ =>
      let nrows := length (Values surface) in
      let ncols := length row0 in
      let cdata := replicate (nrows * ncols) 0%Q in
      toCdata_rows (FillValue surface) shift ncols 0 (Values surface) cdata
  end.

(** [toCRegularSurface]: [regular_surface_new] copies the plane and keeps
    the data pointer. *)
Definition toCRegularSurface (surface : RegularSurface) (cdata : list Q)
    : go Capi.RegularSurface :=
  match Values surface, cdata with
  | [], _ => Panic
  | _, [] => Panic (* &cdata[0] *)
  | row0 :: _, _ =>
      Return {| Capi.surface_data := cdata;
                Capi.nrows := length (Values surface);
                Capi.ncols := length row0;
                Capi.plane := {| Capi.xori := Xori surface;
                                 Capi.yori := Yori surface;
                                 Capi.xinc := Xinc surface;
                                 Capi.yinc := Yinc surface;
                                 Capi.rot := Rotation surface |};
                Capi.fillvalue := FillValue surface |}
  end.

Record VDSHandle := {
  api : Capi.Cppapi;
  handle : option Vds.DataHandle;
  ctx : Capi.Context;
}.

(** [v.Error(status)] applied to what an entry point left behind. *)
Definition Error {A} (o : Capi.outcome A) : option error :=
  toError (Capi.status o) (Capi.context o).

Definition go_bind {A B} (r : go A) (k : A -> option (go B)) : option (go B) :=
  match r with
  | Return a => k a
  | Err e => Some (Err e)
  | Panic => Some Panic
  end.

Notation "'let!' x := r 'in' k" := (go_bind r (fun x => k))
  (at level 10, x name, r at level 100, k at level 200).

Definition min (a b : nat) : nat := if a <? b then a else b.

Definition max (a b : nat) : nat := if b <? a then a else b.

(** *** GetFence *)

Definition pair_msg (show_v : list Q -> string) (c : list Q) (i : nat) : string :=
  "invalid coordinate " +:+ show_v c +:+ " at position " +:+ show_nat i +:+
  ", expected [x y] pair".

(** [for j := range coordinates[i]]. *)
Fixpoint copy_coordinate (coordinate_len i j : nat) (c : list Q)
    (ccoordinates : list Q) : list Q :=
  match c with
  | [] => ccoordinates
  | x :: rest =>
      copy_coordinate coordinate_len i (S j) rest
        (<[i * coordinate_len + j := x]> ccoordinates)
  end.

(** [for i := range coordinates]. *)
Fixpoint copy_coordinates (show_v : list Q -> string) (coordinate_len i : nat)
    (coordinates : list (list Q)) (ccoordinates : list Q) : go (list Q) :=
  match coordinates with
  | [] => Return ccoordinates
  | c :: rest =>
      if negb (length c =? coordinate_len) then
        Err (NewInvalidArgument (pair_msg show_v c i))
      else
        copy_coordinates show_v coordinate_len (S i) rest
          (copy_coordinate coordinate_len i 0 c ccoordinates)
  end.

(** [show_v] is [fmt]'s [%v] on a [[]float32]. *)
Definition GetFence (show_v : list Q -> string) (v : VDSHandle)
    (coordinateSystem : coordinate_system) (coordinates : list (list Q))
    (interpolation : interpolation_method) (fillValue : option Q)
    : go (list memval) :=
  let coordinate_len := 2 in
  let ccoordinates := replicate (length coordinates * coordinate_len) 0%Q in
  match copy_coordinates show_v coordinate_len 0 coordinates ccoordinates with
  | Err e => Err e
  | Panic => Panic
  | Return ccoordinates =>
      match ccoordinates with
      | [] => Panic (* &ccoordinates[0] *)
      | _ =>
          let result :=
            Capi.fence (api v) (ctx v) (handle v) coordinateSystem ccoordinates
              (length coordinates) interpolation fillValue in
          match Error result with
          | Some err => Err err
          | None =>
              (* C.GoBytes(result.data, result.size) *)
              Return (take (Capi.size (Capi.out result)) (Capi.data (Capi.out result)))
          end
      end
  end.

(** *** Worker pools *)

(** The order in which the values sent by the goroutines arrive on the
    [errs] channel. *)
Definition arrival : Type := list (option error) -> list (option error).

(** One goroutine: the C call on the shared buffer, then
    [errs <- toError(cerr, cCtx)]. *)
Definition goroutine : Type := nat -> nat -> list memval -> Capi.outcome (list memval).

(** Start one goroutine per range, in order; each works on the shared
    buffer and sends one value. *)
Fixpoint spawn (w : goroutine) (ranges : list (nat * nat))
    (buffer : list memval) (sent : list (option error))
    : list memval * list (option error) :=
  match ranges with
  | [] => (buffer, sent)
  | (from, to) :: rest =>
      let o := w from to buffer in
      spawn w rest (Capi.out o) (sent ++ [Error o])
  end.

(** [for i := 0; i < nRoutines; i++ { err := <-errs; ... }] on the queue of
    values in the channel.  [None]: the receive blocks on an empty channel. *)
Fixpoint collect (nRoutines : nat) (errs : list (option error))
    (computeErrors : list error) : option (list error * list (option error)) :=
  match nRoutines with
  | 0 => Some (computeErrors, errs)
  | S n =>
      match errs with
      | [] => None
      | err :: errs' =>
          collect n errs'
            (match err with
             | Some e => computeErrors ++ [e]
             | None => computeErrors
             end)
      end
  end.

(** [if len(computeErrors) > 0 { return nil, computeErrors[0] }; return x, nil]. *)
Definition join {A} (computeErrors : list error) (x : A) : go A :=
  match computeErrors with
  | e :: _ => Err e
  | [] => Return x
  end.

(** The chunk loop of [fetchHorizon]: the (from, to) of every goroutine.
    [None]: not finished within [fuel] iterations. *)
Fixpoint horizon_ranges (fuel from to chunkSize hsize : nat) : option (list (nat * nat)) :=
  if from <? hsize then
    match fuel with
    | 0 => None
    | S fuel' =>
        match horizon_ranges fuel' (from + chunkSize) (min (to + chunkSize) hsize)
                chunkSize hsize with
        | Some rest => Some ((from, to) :: rest)
        | None => None
        end
    end
  else Some [].

Definition fetchHorizon (sched : arrival) (fuel : nat) (v : VDSHandle)
    (cPrimarySurface cTopSurface cBottomSurface : Capi.RegularSurface)
    (nrows ncols : nat) (dataOffset : list Z)
    (interpolation : interpolation_method) (horizonBufferSize : nat)
    : option (go (list memval)) :=
  let hsize := nrows * ncols in
  let buffer := replicate horizonBufferSize Byte0 in
  let maxConcurrentGoroutines := max (nrows / 2) 1 in
  let chunkSize := max nrows 1 in
  let from := 0 in
  let to := from + chunkSize in
  match horizon_ranges fuel from to chunkSize hsize with
  | None => None
  | Some ranges =>
      match ranges, dataOffset, buffer with
      | _ :: _, [], _ => Some Panic (* &dataOffset[0] *)
      | _ :: _, _, [] => Some Panic (* &buffer[0] *)
      | _, _, _ =>
          let w : goroutine := fun from to buffer =>
            Capi.horizon (api v) Capi.context_new (handle v)
              cPrimarySurface cTopSurface cBottomSurface dataOffset
              interpolation from to buffer in
          let nRoutines := length ranges in
          let '(buffer, sent) := spawn w ranges buffer [] in
          match collect nRoutines (sched sent) [] with
          | None => None
          | Some (computeErrors, _) => Some (join computeErrors buffer)
          end
      end
  end.

(** [int(math.Ceil(float64(hsize) / float64(maxConcurrency)))]; the
    conversions to [float64] are exact up to 2^53. *)
Definition windowsPerRoutine (hsize maxConcurrency : nat) : nat :=
  Z.to_nat (Qceiling (inject_Z (Z.of_nat hsize) / inject_Z (Z.of_nat maxConcurrency))).

(** The range loop of [calculateAttributes]. *)
Fixpoint attribute_ranges (fuel windowsPerRoutine from remaining : nat)
    : option (list (nat * nat)) :=
  if 0 <? remaining then
    match fuel with
    | 0 => None
    | S fuel' =>
        let size := min windowsPerRoutine remaining in
        let to := from + size in
        match attribute_ranges fuel' windowsPerRoutine to (remaining - size) with
        | Some rest => Some ((from, to) :: rest)
        | None => None
        end
    end
  else Some [].

(** [buffer[lo:hi]]. *)
Definition slice_bytes (buffer : list memval) (lo hi : nat) : list memval :=
  take (hi - lo) (drop lo buffer).

Definition calculateAttributes (sched : arrival) (fuel : nat) (v : VDSHandle)
    (cPrimarySurface cTopSurface cBottomSurface : Capi.RegularSurface)
    (hsize : nat) (dataOffset : list Z) (horizon : list memval)
    (horizonSize : nat) (cAttributes : list attribute) (stepsize : Q)
    : option (go (list (list memval))) :=
  let nAttributes := length cAttributes in
  let mapsize := hsize * 4 in
  let buffer := replicate (mapsize * nAttributes) Byte0 in
  let maxConcurrency := 32 in
  let windowsPerRoutine := windowsPerRoutine hsize maxConcurrency in
  match attribute_ranges fuel windowsPerRoutine 0 hsize with
  | None => None
  | Some ranges =>
      match ranges, dataOffset, horizon, cAttributes with
      | _ :: _, [], _, _ => Some Panic (* &dataOffset[0] *)
      | _ :: _, _, [], _ => Some Panic (* &horizon[0] *)
      | _ :: _, _, _, [] => Some Panic (* &cAttributes[0], &buffer[0] *)
      | _, _, _, _ =>
          let w : goroutine := fun from to buffer =>
            Capi.attribute (api v) Capi.context_new (handle v)
              cPrimarySurface cTopSurface cBottomSurface dataOffset
              horizon horizonSize cAttributes nAttributes stepsize
              from to buffer in
          let nRoutines := length ranges in
          let '(buffer, sent) := spawn w ranges buffer [] in
          match collect nRoutines (sched sent) [] with
          | None => None
          | Some (computeErrors, _) =>
              Some (join computeErrors
                      (map (fun i => slice_bytes buffer (i * mapsize) ((i + 1) * mapsize))
                           (seq 0 nAttributes)))
          end
      end
  end.

(** *** GetAttributes *)

Fixpoint targetAttributes (attributes : list string) (acc : list attribute)
    : go (list attribute) :=
  match attributes with
  | [] => Return acc
  | attr :: rest =>
      match GetAttributeType attr with
      | Return id => targetAttributes rest (acc ++ [id])
      | Err e => Err e
      | Panic => Panic
      end
  end.

Definition above_below_msg (above below : Q) : string :=
  "Above and below must be positive. " +:+
  "Above was " +:+ show_f above +:+ ", below was " +:+ show_f below.

(** [dataOffset[hsize] * 4] on [C.size_t], and the one byte for an empty
    horizon. *)
Definition horizonBufferSize (offset_hsize : Z) : Z :=
  let horizonBufferSize := ((offset_hsize * 4) mod 2 ^ 64)%Z in
  if (horizonBufferSize =? 0)%Z then 1%Z (* empty array can't be referenced *)
  else horizonBufferSize.

Definition GetAttributes (schedH schedA : arrival) (fuel : nat) (v : VDSHandle)
    (primarySurface : RegularSurface) (above below stepsize : Q)
    (attributes : list string) (interpolation : interpolation_method)
    : option (go (list (list memval))) :=
  let! targetAttributes := targetAttributes attributes [] in
  if Qlt_bool above 0 || Qlt_bool below 0 then
    Some (Err (NewInvalidArgument (above_below_msg above below)))
  else
    match Values primarySurface with
    | [] => Some Panic (* primarySurface.Values[0] *)
    | row0 :: _ =>
        let nrows := length (Values primarySurface) in
        let ncols := length row0 in
        let hsize := nrows * ncols in
        let cAttributes := targetAttributes in
        let! cPrimarySurfaceData := toCdata primarySurface 0 in
        let! cPrimarySurface := toCRegularSurface primarySurface cPrimarySurfaceData in
        let! cTopSurfaceData := toCdata primarySurface (- above) in
        let! cTopSurface := toCRegularSurface primarySurface cTopSurfaceData in
        let! cBottomSurfaceData := toCdata primarySurface below in
        let! cBottomSurface := toCRegularSurface primarySurface cBottomSurfaceData in
        let dataOffsetSize := hsize + 1 in
        let dataOffset := replicate dataOffsetSize 0%Z in
        let o :=
          Capi.horizon_buffer_offsets (api v) (ctx v) (handle v)
            cPrimarySurface cTopSurface cBottomSurface dataOffset dataOffsetSize in
        match Error o with
        | Some err => Some (Err err)
        | None =>
            let dataOffset := Capi.out o in
            match dataOffset !! hsize with
            | None => Some Panic
            | Some offset_hsize =>
                let horizonBufferSize := Z.to_nat (horizonBufferSize offset_hsize) in
                match fetchHorizon schedH fuel v cPrimarySurface cTopSurface
                        cBottomSurface nrows ncols dataOffset interpolation
                        horizonBufferSize with
                | None => None
                | Some (Err e) => Some (Err e)
                | Some Panic => Some Panic
                | Some (Return horizon) =>
                    calculateAttributes schedA fuel v cPrimarySurface cTopSurface
                      cBottomSurface hsize dataOffset horizon horizonBufferSize
                      cAttributes stepsize
                end
            end
        end
    end.

End Core.

(** ** The engine behind the C entry points, from the specification *)

Module Model.

Import Ctypes.

(** Parts of the engine that neither the sources nor the specification
    pin down; the model is stated for any choice of them. *)
Record Engine := {
  (* RegularSurface::coordinate: (row, col) to world coordinates *)
  to_world : Capi.Plane -> nat -> nat -> Q * Q;
  (* the number of source samples of a populated cell, from its top and
     bottom depth *)
  window_size : Vds.DataHandle -> Q -> Q -> nat;
  (* the voxel-centre coordinates of these samples, from the shifted (i, j)
     and the top and bottom depth *)
  window_voxels : Vds.DataHandle -> Q * Q -> Q -> Q -> result (list Vds.voxel);
  (* resampling to the destination window and the named kernel: attribute,
     step size, reference/top/bottom depth, the samples of the cell *)
  kernel : attribute -> Q -> Q -> Q -> Q -> list (option Q) -> Q;
  (* the secondary surface resampled on the grid of the primary *)
  align : Capi.RegularSurface -> Capi.RegularSurface -> list Q;
}.

(** *** Fence *)

(** Modelled from the spec: the point loop of [cppapi::fence], which is not
    under src/.  "For each point, convert to IJ using the coordinate
    transformer; shift +0.5. ... a point whose shifted IJ falls outside
    [-0.5, nsamples-0.5) on either of those dimensions is out of bounds. If
    fillValue is supplied, substitute a fill-filled trace of length
    sample.nsamples; else fail bad request with Coordinate (x,y) is out of
    boundaries in dimension d."  The transformation, the test and the
    message are those of [Vds.fetch_fence], which applies them in every
    coordinate system. *)
Fixpoint fence_loop (metadata : Vds.MetadataHandle) (cs : coordinate_system)
    (coordinates : list Q) (fillValue : option Q) (trace_len : nat)
    (n i : nat) (coords : list Vds.voxel) (noval : list nat)
    : result (list Vds.voxel * list nat) :=
  match n with
  | 0 => Ok (coords, noval)
  | S n' =>
      let x := default 0%Q (coordinates !! (2 * i)) in
      let y := default 0%Q (coordinates !! (2 * i + 1)) in
      let coordinate := Vds.transform_coordinate metadata cs x y in
      let checked :=
        let? _ := Vds.validate_boundary x y coordinate 0 (Vds.iline metadata) in
        Vds.validate_boundary x y coordinate 1 (Vds.xline metadata) in
      match checked with
      | Throw e =>
          match fillValue with
          | Some _ =>
              fence_loop metadata cs coordinates fillValue trace_len n' (S i)
                coords (noval ++ [i * trace_len])
          | None => Throw (bad_request (what e))
          end
      | Ok _ =>
          let c0 := (Vds.at3 coordinate 0 + (1 # 2))%Q in
          let c1 := (Vds.at3 coordinate 1 + (1 # 2))%Q in
          let coords :=
            Vds.set_coord coords i (Axis.dimension (Vds.iline metadata)) c0 in
          let coords :=
            Vds.set_coord coords i (Axis.dimension (Vds.xline metadata)) c1 in
          fence_loop metadata cs coordinates fillValue trace_len n' (S i)
            coords noval
      end
  end.

(** Modelled from the spec: [cppapi::fence].  "Issue a single trace fetch
    of npoints * sample.nsamples floats." *)
Definition fence (handle : Vds.DataHandle) (cs : coordinate_system)
    (coordinates : list Q) (npoints : nat)
    (interpolation : interpolation_method) (fillValue : option Q)
    : result Capi.response :=
  let metadata := Vds.get_metadata handle in
  let trace_len := Axis.nsamples (Vds.sample metadata) in
  let coords := replicate npoints Vds.zero_voxel in
  let? traced :=
    fence_loop metadata cs coordinates fillValue trace_len npoints 0 coords [] in
  let size := Vds.traces_buffer_size handle npoints in
  let data := replicate size Byte0 in
  let? data := Vds.read_traces handle data (fst traced) interpolation in
  let data :=
    match fillValue with
    | Some fill => Vds.write_fillvalue data (snd traced) trace_len fill
    | None => data
    end in
  Ok {| Capi.data := data; Capi.size := size |}.

(** *** Horizon buffer offsets *)

(** Modelled from the spec: the value of cell [k] of a surface in row-major
    order and the test "values[i][j] == fillValue"; the class behind
    [regular_surface_new] is not under src/. *)
Definition cell_value (s : Capi.RegularSurface) (k : nat) : Q :=
  default (Capi.fillvalue s) (Capi.surface_data s !! k).

Definition is_fill (s : Capi.RegularSurface) (k : nat) : bool :=
  Qeq_bool (cell_value s k) (Capi.fillvalue s).

(** Modelled from the spec: the shifted (i, j) position of cell [k] of the
    reference surface, "convert to IJ using the coordinate transformer;
    shift +0.5", as [Vds.fetch_horizon] computes it. *)
Definition cell_ij (eng : Engine) (handle : Vds.DataHandle)
    (reference : Capi.RegularSurface) (k : nat) : Q * Q :=
  let row := k / Capi.ncols reference in
  let col := k mod Capi.ncols reference in
  let cdp := to_world eng (Capi.plane reference) row col in
  let ij := Vds.WorldToIJKPosition (Vds.get_metadata handle) (fst cdp, snd cdp, 0%Q) in
  ((Vds.at3 ij 0 + (1 # 2))%Q, (Vds.at3 ij 1 + (1 # 2))%Q).

(** Modelled from the spec: which cells carry samples.  "the number of
    samples for output cell k, which is 0 when the cell is fillValue or out
    of horizontal bounds, and the vertical window size otherwise." *)
Definition populated (eng : Engine) (handle : Vds.DataHandle)
    (reference top bottom : Capi.RegularSurface) (k : nat) : bool :=
  let metadata := Vds.get_metadata handle in
  let ij := cell_ij eng handle reference k in
  negb (is_fill reference k) && negb (is_fill top k) && negb (is_fill bottom k)
  && Vds.inrange (Vds.iline metadata) (fst ij)
  && Vds.inrange (Vds.xline metadata) (snd ij).

Definition cell_nsamples (eng : Engine) (handle : Vds.DataHandle)
    (reference top bottom : Capi.RegularSurface) (k : nat) : nat :=
  if populated eng handle reference top bottom k then
    window_size eng handle (cell_value top k) (cell_value bottom k)
  else 0.

Fixpoint prefix_sums (acc : Z) (sizes : list nat) : list Z :=
  acc ::
  match sizes with
  | [] => []
  | n :: rest => prefix_sums (acc + Z.of_nat n) rest
  end.

(** Modelled from the spec: [cppapi::horizon_buffer_offsets], which is not
    under src/.  "Compute offsets[hsize+1] where offsets[k+1] - offsets[k]
    is window.size for populated cells and 0 for fill cells." *)
Definition horizon_buffer_offsets (eng : Engine) (handle : Vds.DataHandle)
    (reference top bottom : Capi.RegularSurface) (out_size : nat)
    : result (list Z) :=
  let hsize := Capi.surface_size reference in
  Ok (prefix_sums 0
        (map (cell_nsamples eng handle reference top bottom) (seq 0 hsize))).

(** *** Horizon fetch pass *)

Definition offset_at (offsets : list Z) (k : nat) : Z := default 0%Z (offsets !! k).

(** Modelled from the spec: the number of samples of cell [k] according to
    the offsets, "offsets[k+1] - offsets[k]". *)
Definition cell_len (offsets : list Z) (k : nat) : Z :=
  (offset_at offsets (k + 1) - offset_at offsets k)%Z.

(** Modelled from the spec: the sample positions of the cells of a chunk,
    in cell order; cells without samples ("0 for fill cells") contribute
    none. *)
Fixpoint chunk_voxels (eng : Engine) (handle : Vds.DataHandle)
    (reference top bottom : Capi.RegularSurface) (offsets : list Z)
    (cells : list nat) : result (list Vds.voxel) :=
  match cells with
  | [] => Ok []
  | k :: rest =>
      let? here :=
        if (cell_len offsets k =? 0)%Z then Ok []
        else
          window_voxels eng handle (cell_ij eng handle reference k)
            (cell_value top k) (cell_value bottom k) in
      let? there := chunk_voxels eng handle reference top bottom offsets rest in
      Ok (here ++ there)
  end.

(** Modelled from the spec: [cppapi::horizon], which is not under src/.
    "for each chunk, a worker task issues read_samples writing into its own
    non-overlapping region of the shared buffer using offsets as the write
    map." *)
Definition horizon (eng : Engine) (handle : Vds.DataHandle)
    (reference top bottom : Capi.RegularSurface) (offsets : list Z)
    (interpolation : interpolation_method) (from to : nat)
    : result (list store) :=
  let? voxels :=
    chunk_voxels eng handle reference top bottom offsets (seq from (to - from)) in
  match Vds.RequestVolumeSamples handle voxels interpolation with
  | None => Throw (runtime_error "Failed to read from VDS.")
  | Some fs =>
      Ok [(Z.to_nat (offset_at offsets from) * sizeof_float, floats_to_bytes fs)]
  end.

(** *** Attribute pass *)

(** Modelled from the spec: the samples of cell [k] in the horizon buffer,
    "reads the window from the Horizon buffer". *)
Definition cell_window (horizon : list memval) (offsets : list Z) (k : nat)
    : list (option Q) :=
  map (fun m => load_f32 horizon (Z.to_nat (offset_at offsets k) + m))
      (seq 0 (Z.to_nat (cell_len offsets k))).

(** Modelled from the spec: the value of one attribute at one cell.
    "reads the window from the Horizon buffer (length 0 -> emit fillValue
    for every attribute), applies the destination-window resampling from
    the source window, and dispatches to the named kernel." *)
Definition attribute_value (eng : Engine) (horizon : list memval)
    (offsets : list Z) (fillvalue : Q)
    (reference top bottom : Capi.RegularSurface) (stepsize : Q)
    (a : attribute) (k : nat) : Q :=
  if (cell_len offsets k =? 0)%Z then fillvalue
  else
    kernel eng a stepsize (cell_value reference k) (cell_value top k)
      (cell_value bottom k) (cell_window horizon offsets k).

(** Modelled from the spec: the stores of one cell, "one float per cell"
    for each attribute, at cell [k] of the i-th map ([outs[i]] of
    [Capi.attribute]). *)
Definition cell_stores (eng : Engine) (horizon : list memval) (hsize : nat)
    (offsets : list Z) (fillvalue : Q)
    (reference top bottom : Capi.RegularSurface) (stepsize : Q)
    (attributes : list attribute) (k : nat) : list store :=
  imap (fun i a =>
          (Capi.mapsize hsize * i + k * sizeof_float,
           encode_f32 (attribute_value eng horizon offsets fillvalue
                         reference top bottom stepsize a k)))
       attributes.

(** Modelled from the spec: [cppapi::attributes], which is not under src/.
    "For each of nattributes output maps (one float per cell) ... each
    worker iterates cells in its range". *)
Definition attributes (eng : Engine) (handle : Vds.DataHandle)
    (horizon : list memval) (hsize : nat) (offsets : list Z) (fillvalue : Q)
    (reference top bottom : Capi.RegularSurface)
    (attributes : list attribute) (stepsize : Q) (from to : nat)
    : result (list store) :=
  Ok (flat_map (cell_stores eng horizon hsize offsets fillvalue reference top
                  bottom stepsize attributes)
               (seq from (to - from))).

Definition cppapi (eng : Engine) : Capi.Cppapi :=
  {| Capi.cppapi_fence := fence;
     Capi.cppapi_horizon_buffer_offsets := horizon_buffer_offsets eng;
     Capi.cppapi_horizon := horizon eng;
     Capi.cppapi_attributes := attributes eng |}.

(** *** Attributes between two surfaces *)

Notation "'let!' x := r 'in' k" := (Core.go_bind r (fun x => k))
  (at level 10, x name, r at level 100, k at level 200).

(** The steps of [Core.GetAttributes] from the offsets pass on, for three
    surfaces that are already built. *)
Definition surface_attributes (schedH schedA : Core.arrival) (fuel : nat)
    (v : Core.VDSHandle)
    (cPrimarySurface cTopSurface cBottomSurface : Capi.RegularSurface)
    (nrows ncols : nat) (cAttributes : list attribute) (stepsize : Q)
    (interpolation : interpolation_method)
    : option (Core.go (list (list memval))) :=
  let hsize := nrows * ncols in
  let dataOffsetSize := hsize + 1 in
  let dataOffset := replicate dataOffsetSize 0%Z in
  let o :=
    Capi.horizon_buffer_offsets (Core.api v) (Core.ctx v) (Core.handle v)
      cPrimarySurface cTopSurface cBottomSurface dataOffset dataOffsetSize in
  match Core.Error o with
  | Some err => Some (Core.Err err)
  | None =>
      let dataOffset := Capi.out o in
      match dataOffset !! hsize with
      | None => Some Core.Panic
      | Some offset_hsize =>
          let horizonBufferSize := Z.to_nat (Core.horizonBufferSize offset_hsize) in
          match Core.fetchHorizon schedH fuel v cPrimarySurface cTopSurface
                  cBottomSurface nrows ncols dataOffset interpolation
                  horizonBufferSize with
          | None => None
          | Some (Core.Err e) => Some (Core.Err e)
          | Some Core.Panic => Some Core.Panic
          | Some (Core.Return horizon) =>
              Core.calculateAttributes schedA fuel v cPrimarySurface cTopSurface
                cBottomSurface hsize dataOffset horizon horizonBufferSize
                cAttributes stepsize
          end
      end
  end.

(** Modelled from the spec: the top and bottom depth of one cell between
    two surfaces.  "top = min(primary, secondary) per cell, bottom = max;
    any cell where either side is fill or the pair disagrees on finiteness
    becomes a fill cell."  (Every number of the model is finite.) *)
Definition between_cell (fill fill_secondary : Q) (p s : Q) : Q * Q :=
  if Qeq_bool p fill || Qeq_bool s fill_secondary then (fill, fill)
  else (Qmin p s, Qmax p s).

(** Modelled from the spec: [GetAttributesBetweenSurfaces], the Go entry
    point of the between-surfaces mode, which is not under src/ (its tests
    are).  "build an aligned secondary (same grid as primary, resampled)";
    the passes that follow are those of [Core.GetAttributes]. *)
Definition GetAttributesBetweenSurfaces (eng : Engine)
    (schedH schedA : Core.arrival) (fuel : nat) (v : Core.VDSHandle)
    (primarySurface secondarySurface : Core.RegularSurface) (stepsize : Q)
    (attributes : list string) (interpolation : interpolation_method)
    : option (Core.go (list (list memval))) :=
  let! targetAttributes := Core.targetAttributes attributes [] in
  match Core.Values primarySurface with
  | [] => Some Core.Panic
  | row0 :: _ =>
      let nrows := length (Core.Values primarySurface) in
      let ncols := length row0 in
      let fill := Core.FillValue primarySurface in
      let! cPrimarySurfaceData := Core.toCdata primarySurface 0 in
      let! cPrimarySurface := Core.toCRegularSurface primarySurface cPrimarySurfaceData in
      let! cSecondarySurfaceData := Core.toCdata secondarySurface 0 in
      let! cSecondarySurface := Core.toCRegularSurface secondarySurface cSecondarySurfaceData in
      let aligned := align eng cPrimarySurface cSecondarySurface in
      let cells :=
        zip_with (between_cell fill (Core.FillValue secondarySurface))
          cPrimarySurfaceData aligned in
      let! cTopSurface := Core.toCRegularSurface primarySurface (map fst cells) in
      let! cBottomSurface := Core.toCRegularSurface primarySurface (map snd cells) in
      surface_attributes schedH schedA fuel v cPrimarySurface cTopSurface
        cBottomSurface nrows ncols targetAttributes stepsize interpolation
  end.

End Model.

(** ** The cube of the test suite

    [well_known]: 3 inlines (1, 3, 5), 2 crosslines (10, 11), 4 samples
    (4, 8, 12, 16 ms), values [100 + 8 i + 4 j + k]; world position
    [(2, 0) + i (6, 4) + j (-2, 3)].  The volume library is replaced by a
    nearest-voxel reader. *)

Module WellKnown.

Import Ctypes.

Definition OpenVDS_units : Vds.KnownUnitNames :=
  {| Vds.Meter := "m"; Vds.Foot := "ft"; Vds.USSurveyFoot := "usft";
     Vds.Millisecond := "ms"; Vds.Second := "s"; Vds.Unitless := "unitless" |}.

Definition to_string (ax : axis_name) : string :=
  match ax with
  | I => "I" | J => "J" | K => "K"
  | INLINE => "Inline" | CROSSLINE => "Crossline"
  | DEPTH => "Depth" | TIME => "Time" | SAMPLE => "Sample"
  end.

Definition inline_axis : Axis.t :=
  {| Axis.nsamples := 3; Axis.dimension := 2; Axis.unit := "unitless";
     Axis.min := 1; Axis.max := 5; Axis.stride := 2 |}.

Definition crossline_axis : Axis.t :=
  {| Axis.nsamples := 2; Axis.dimension := 1; Axis.unit := "unitless";
     Axis.min := 10; Axis.max := 11; Axis.stride := 1 |}.

Definition sample_axis : Axis.t :=
  {| Axis.nsamples := 4; Axis.dimension := 0; Axis.unit := "ms";
     Axis.min := 4; Axis.max := 16; Axis.stride := 4 |}.

Definition metadata : Vds.MetadataHandle :=
  {| Vds.iline := inline_axis;
     Vds.xline := crossline_axis;
     Vds.sample := sample_axis;
     Vds.AnnotationToIJKPosition := fun v =>
       (((Vds.at3 v 0 - 1) / 2)%Q, (Vds.at3 v 1 - 10)%Q, ((Vds.at3 v 2 - 4) / 4)%Q);
     Vds.WorldToIJKPosition := fun v =>
       (((3 * (Vds.at3 v 0 - 2) + 2 * Vds.at3 v 1) / 26)%Q,
        ((- (4) * (Vds.at3 v 0 - 2) + 6 * Vds.at3 v 1) / 26)%Q,
        0%Q) |}.

Definition voxel_index (vox : Vds.voxel) (dim : nat) : Z :=
  Qfloor (default 0%Q (vox !! dim)).

Definition cube_value (i j k : Z) : Q := inject_Z (100 + 8 * i + 4 * j + k).

Definition trace_of (vox : Vds.voxel) : list Q :=
  map (fun k => cube_value (voxel_index vox 2) (voxel_index vox 1) (Z.of_nat k))
      (seq 0 4).

Definition sample_of (vox : Vds.voxel) : Q :=
  cube_value (voxel_index vox 2) (voxel_index vox 1) (voxel_index vox 0).

Definition handle : Vds.DataHandle :=
  {| Vds.get_metadata := metadata;
     Vds.units := OpenVDS_units;
     Vds.direction_to_string := to_string;
     Vds.read_slice := fun _ _ => Ok [];
     Vds.GetVolumeTracesBufferSize := fun ntraces _ => ntraces * 4 * sizeof_float;
     Vds.RequestVolumeTraces := fun coords _ _ => Some (flat_map trace_of coords);
     Vds.GetVolumeSamplesBufferSize := fun nsamples => nsamples * sizeof_float;
     Vds.RequestVolumeSamples := fun samples _ => Some (map sample_of samples) |}.

Definition storage : Vds.Storage := fun _ _ => Ok handle.

(** A surface on the grid of the cube. *)
Definition plane_to_world (p : Capi.Plane) (row col : nat) : Q * Q :=
  ((Capi.xori p + 6 * inject_Z (Z.of_nat row) - 2 * inject_Z (Z.of_nat col))%Q,
   (Capi.yori p + 4 * inject_Z (Z.of_nat row) + 3 * inject_Z (Z.of_nat col))%Q).

Fixpoint Qsum (l : list (option Q)) : Q :=
  match l with
  | [] => 0
  | Some x :: rest => x + Qsum rest
  | None :: rest => Qsum rest
  end.

(** One source sample per cell, at the top depth; every kernel is the sum
    of the window. *)
Definition engine : Model.Engine :=
  {| Model.to_world := plane_to_world;
     Model.window_size := fun _ _ _ => 1;
     Model.window_voxels := fun h ij top _ =>
       let k := Vds.AnnotationToIJKPosition (Vds.get_metadata h) (0%Q, 0%Q, top) in
       Ok [[Qred (Vds.at3 k 2 + (1 # 2)); Qred (snd ij); Qred (fst ij); 0%Q; 0%Q; 0%Q]];
     Model.kernel := fun _ _ _ _ _ w => Qred (Qsum w);
     Model.align := fun _ s => Capi.surface_data s |}.

Definition vdshandle : Core.VDSHandle :=
  {| Core.api := Model.cppapi engine;
     Core.handle := Some handle;
     Core.ctx := Capi.context_new |}.

Definition fillValue : Q := - (99925 # 100).

Definition surface (values : list (list Q)) : Core.RegularSurface :=
  {| Core.Values := values;
     Core.Rotation := 3369 # 100;
     Core.Xori := 2;
     Core.Yori := 0;
     Core.Xinc := 72111 # 10000;
     Core.Yinc := 36056 # 10000;
     Core.FillValue := fillValue |}.

Definition in_order : Core.arrival := fun sent => sent.

Definition show_v (c : list Q) : string := "[" +:+ Core.Join (map show_f c) " " +:+ "]".

End WellKnown.

(** * Properties *)

(** ** Unit validation of vertical slices *)







(** ** Above and below *)

Lemma GetAttributeType_cases (attribute : string) :
  (exists id, Core.GetAttributeType attribute = Core.Return id) \/
  (exists msg, Core.GetAttributeType attribute = Core.Err (Core.InvalidArgument msg)).
Proof.
  unfold Core.GetAttributeType.
  repeat (match goal with
          | |- context [if ?b then _ else _] => destruct b; [left; eexists; reflexivity |]
          end).
  right. eexists. reflexivity.
Qed.

Lemma targetAttributes_cases (attributes : list string) (acc : list Ctypes.attribute) :
  (exists ids, Core.targetAttributes attributes acc = Core.Return ids) \/
  (exists msg, Core.targetAttributes attributes acc = Core.Err (Core.InvalidArgument msg)).
Proof.
  revert acc. induction attributes as [| attr rest IH]; intros acc; cbn [Core.targetAttributes].
  - left. eexists. reflexivity.
  - destruct (GetAttributeType_cases attr) as [[id ->] | [msg ->]].
    + apply IH.
    + right. eexists. reflexivity.
Qed.

Lemma Qlt_bool_iff (x y : Q) : Qlt_bool x y = true <-> (x < y)%Q.
Proof.
  unfold Qlt_bool. rewrite negb_true_iff. split.
  - intros H. apply Qnot_le_lt. intros Hle. apply Qle_bool_iff in Hle. congruence.
  - intros H. destruct (Qle_bool y x) eqn:E; [| reflexivity].
    apply Qle_bool_iff in E. exfalso. apply (Qlt_not_le _ _ H E).
Qed.

Lemma Qlt_bool_false_iff (x y : Q) : Qlt_bool x y = false <-> (y <= x)%Q.
Proof.
  unfold Qlt_bool. rewrite negb_false_iff. apply Qle_bool_iff.
Qed.

(** C5, as stated, fails: zero is accepted.  With above = below = 0 the
    request of [TestAttributesAllFill] (a 2 x 3 surface of fill values,
    attributes samplevalue and min) passes the guard and returns two
    maps. *)
Lemma zero_above_below_accepted :
  (0 <= 0)%Q /\
  exists maps,
    Core.GetAttributes WellKnown.in_order WellKnown.in_order 6 WellKnown.vdshandle
      (WellKnown.surface
         [[WellKnown.fillValue; WellKnown.fillValue; WellKnown.fillValue];
          [WellKnown.fillValue; WellKnown.fillValue; WellKnown.fillValue]])
      0 0 4 ["samplevalue"; "min"]%string Ctypes.NEAREST
    = Some (Core.Return maps) /\ length maps = 2.
Proof.
  split; [apply Qle_refl |].
  eexists. split; [vm_compute; reflexivity | reflexivity].
Qed.

(** C5, amended.  When above < 0 or below < 0 the attributes operation
    fails with an invalid-argument (bad request) error, whatever the cube,
    the C API, the schedule of the workers and the surface are: nothing is
    built or fetched before the guard.  When all attribute names are valid
    the message is "Above and below must be positive. Above was <above>,
    below was <below>". *)
Theorem negative_above_below_rejected (primarySurface : Core.RegularSurface)
    (above below stepsize : Q) (attributes : list string)
    (interpolation : Ctypes.interpolation_method) :
  (above < 0 \/ below < 0)%Q ->
  exists msg,
    (forall ids, Core.targetAttributes attributes [] = Core.Return ids ->
                 msg = Core.above_below_msg above below) /\
    forall schedH schedA fuel v,
      Core.GetAttributes schedH schedA fuel v primarySurface above below stepsize
        attributes interpolation
      = Some (Core.Err (Core.InvalidArgument msg)).
Proof.
  intros Hneg.
  assert (Hguard : Qlt_bool above 0 || Qlt_bool below 0 = true).
  { apply orb_true_iff. destruct Hneg as [H | H]; [left | right]; now apply Qlt_bool_iff. }
  unfold Core.GetAttributes.
  destruct (targetAttributes_cases attributes []) as [[ids ->] | [msg ->]].
  - exists (Core.above_below_msg above below). split; [reflexivity |].
    intros. cbn [Core.go_bind]. rewrite Hguard. reflexivity.
  - exists msg. split; [discriminate |]. reflexivity.
Qed.

Lemma negative_above_below_rejected_witness :
  Core.GetAttributes WellKnown.in_order WellKnown.in_order 1 WellKnown.vdshandle
    (WellKnown.surface [[26%Q]]) (- (4)) (111 # 100) 4
    ["min"; "samplevalue"]%string Ctypes.NEAREST
  = Some (Core.Err (Core.InvalidArgument
      "Above and below must be positive. Above was -4.000000, below was 1.110000")).
Proof.
  destruct (negative_above_below_rejected (WellKnown.surface [[26%Q]])
              (- (4)) (111 # 100) 4 ["min"; "samplevalue"]%string Ctypes.NEAREST)
    as (msg & Hmsg & Hall).
  { left. reflexivity. }
  rewrite Hall. rewrite (Hmsg _ eq_refl). reflexivity.
Defined.

(** ** The horizon buffer *)






Lemma join_Return {A} (computeErrors : list Core.error) (x y : A) :
  Core.join computeErrors x = Core.Return y -> computeErrors = [] /\ x = y.
Proof.
  destruct computeErrors; cbn [Core.join]; intros H; [| discriminate].
  injection H as ->. split; reflexivity.
Qed.




(** ** The ranges of the attribute pass *)

(** [ranges] is a chain of non-empty half-open ranges from [start] to [stop]:
    each one begins where the previous one ended. *)
Fixpoint chain (start : nat) (ranges : list (nat * nat)) (stop : nat) : Prop :=
  match ranges with
  | [] => start = stop
  | (from, to) :: rest => from = start /\ from < to /\ chain to rest stop
  end.

(** The bytes of map [i] that hold the cells [from, to). *)
Definition map_region (hsize i from to : nat) : nat * nat :=
  (Capi.mapsize hsize * i + from * sizeof_float,
   Capi.mapsize hsize * i + to * sizeof_float).

Definition disjoint (r1 r2 : nat * nat) : Prop :=
  snd r1 <= fst r2 \/ snd r2 <= fst r1.

Lemma windowsPerRoutine_bound (hsize : nat) :
  hsize <= 32 * Core.windowsPerRoutine hsize 32.
Proof.
  unfold Core.windowsPerRoutine.
  set (x := (inject_Z (Z.of_nat hsize) / inject_Z (Z.of_nat 32))%Q).
  pose proof (Qle_ceiling x) as Hc.
  assert (Hx : (inject_Z (Z.of_nat hsize) == x * inject_Z 32)%Q).
  { subst x. change (Z.of_nat 32) with 32%Z. field. }
  assert (Hle : (inject_Z (Z.of_nat hsize) <= inject_Z (Qceiling x * 32))%Q).
  { rewrite Hx, inject_Z_mult. apply Qmult_le_compat_r; [exact Hc | discriminate]. }
  rewrite <- Zle_Qle in Hle. lia.
Qed.

Example windowsPerRoutine_33 : Core.windowsPerRoutine 33 32 = 2.
Proof. reflexivity. Qed.

Lemma attribute_ranges_chain (w fuel from remaining : nat) :
  1 <= w ->
  remaining <= fuel ->
  exists ranges,
    Core.attribute_ranges fuel w from remaining = Some ranges /\
    chain from ranges (from + remaining) /\
    length ranges * w < remaining + w.
Proof.
  intros Hw. revert from remaining.
  induction fuel as [| fuel IH]; intros from remaining Hfuel.
  - assert (remaining = 0) as -> by lia. exists []. cbn. repeat split; lia.
  - cbn [Core.attribute_ranges].
    destruct (Nat.ltb_spec 0 remaining) as [Hpos | Hzero].
    + set (size := Core.min w remaining).
      assert (Hsize : 1 <= size /\ size <= remaining /\ size <= w /\
                      (size = w \/ size = remaining)).
      { subst size. unfold Core.min. destruct (Nat.ltb_spec w remaining); lia. }
      destruct (IH (from + size) (remaining - size)) as (rest & -> & Hchain & Hlen);
        [lia |].
      exists ((from, from + size) :: rest). split; [reflexivity |]. split.
      * cbn [chain]. repeat split; [lia |].
        replace (from + remaining) with (from + size + (remaining - size)) by lia.
        exact Hchain.
      * cbn [length]. destruct Hsize as (? & ? & ? & [Heq | Heq]).
        -- nia.
        -- assert (remaining - size = 0) by lia.
           destruct rest as [| r rest']; cbn [length] in *; nia.
    + assert (remaining = 0) as -> by lia. exists []. cbn. repeat split; lia.
Qed.

Lemma chain_le (ranges : list (nat * nat)) (start stop : nat) :
  chain start ranges stop -> start <= stop.
Proof.
  revert start. induction ranges as [| [f t] rest IH]; intros start; cbn [chain].
  - lia.
  - intros (-> & Hlt & Hrest). apply IH in Hrest. lia.
Qed.

Lemma chain_cover (ranges : list (nat * nat)) (start stop k : nat) :
  chain start ranges stop ->
  (start <= k < stop <-> exists from to, In (from, to) ranges /\ from <= k < to).
Proof.
  revert start. induction ranges as [| [f t] rest IH]; intros start; cbn [chain].
  - intros ->. split; [lia | intros (? & ? & [] & _)].
  - intros (-> & Hlt & Hrest). pose proof (chain_le _ _ _ Hrest) as Hle.
    specialize (IH _ Hrest). split.
    + intros Hk. destruct (Nat.lt_ge_cases k t) as [Hkt | Hkt].
      * exists start, t. split; [left; reflexivity | lia].
      * destruct (proj1 IH) as (from & to & Hin & Hb); [lia |].
        exists from, to. split; [right; exact Hin | exact Hb].
    + intros (from & to & [Heq | Hin] & Hb).
      * injection Heq as <- <-. lia.
      * assert (t <= k < stop) by (apply IH; eauto). lia.
Qed.

Lemma chain_lookup (ranges : list (nat * nat)) (start stop i f t : nat) :
  chain start ranges stop ->
  ranges !! i = Some (f, t) ->
  start <= f /\ f < t /\ t <= stop.
Proof.
  revert start i. induction ranges as [| [f0 t0] rest IH]; intros start i; cbn [chain].
  - intros _ H. discriminate H.
  - intros (-> & Hlt & Hrest) Hi. pose proof (chain_le _ _ _ Hrest) as Hle.
    destruct i as [| i]; cbn in Hi.
    + injection Hi as <- <-. lia.
    + destruct (IH _ _ Hrest Hi) as (? & ? & ?). lia.
Qed.

Lemma chain_ordered (ranges : list (nat * nat)) (start stop i j f1 t1 f2 t2 : nat) :
  chain start ranges stop ->
  i < j ->
  ranges !! i = Some (f1, t1) ->
  ranges !! j = Some (f2, t2) ->
  t1 <= f2.
Proof.
  revert start i j. induction ranges as [| [f0 t0] rest IH]; intros start i j; cbn [chain].
  - intros _ _ H. discriminate H.
  - intros (-> & Hlt & Hrest) Hij Hi Hj.
    destruct j as [| j]; [lia |]. cbn in Hj.
    destruct i as [| i]; cbn in Hi.
    + injection Hi as <- <-. destruct (chain_lookup _ _ _ _ _ _ Hrest Hj). lia.
    + eapply (IH _ i j); eauto. lia.
Qed.

(** C9.  For 1 <= hsize (and hsize <= 2^53, where the conversion to
    [float64] is exact) the range loop of [calculateAttributes] ends and
    starts at most 32 workers; their [from, to) ranges are non-empty, follow
    one another from 0 to hsize, are pairwise disjoint and cover exactly the
    cells below hsize; the bytes of the output buffer that two distinct
    workers address, in any two attribute maps, do not overlap. *)
Theorem attribute_ranges_partition (hsize fuel : nat) :
  1 <= hsize ->
  (Z.of_nat hsize <= 2 ^ 53)%Z ->
  hsize <= fuel ->
  exists ranges,
    Core.attribute_ranges fuel (Core.windowsPerRoutine hsize 32) 0 hsize = Some ranges /\
    length ranges <= 32 /\
    chain 0 ranges hsize /\
    (forall k, k < hsize <-> exists from to, In (from, to) ranges /\ from <= k < to) /\
    (forall i j f1 t1 f2 t2,
        i <> j ->
        ranges !! i = Some (f1, t1) ->
        ranges !! j = Some (f2, t2) ->
        disjoint (f1, t1) (f2, t2) /\
        forall a1 a2,
          disjoint (map_region hsize a1 f1 t1) (map_region hsize a2 f2 t2)).
Proof.
  intros Hpos _ Hfuel.
  pose proof (windowsPerRoutine_bound hsize) as Hw.
  set (w := Core.windowsPerRoutine hsize 32) in *.
  destruct (attribute_ranges_chain w fuel 0 hsize) as (ranges & Hrun & Hchain & Hlen);
    [lia | lia |].
  exists ranges. cbn [Nat.add] in Hchain.
  split; [exact Hrun |]. split; [nia |]. split; [exact Hchain |]. split.
  - intros k. rewrite <- (chain_cover ranges 0 hsize k Hchain). lia.
  - intros i j f1 t1 f2 t2 Hij Hi Hj.
    destruct (chain_lookup _ _ _ _ _ _ Hchain Hi) as (_ & Hlt1 & Hle1).
    destruct (chain_lookup _ _ _ _ _ _ Hchain Hj) as (_ & Hlt2 & Hle2).
    assert (Hord : t1 <= f2 \/ t2 <= f1).
    { destruct (Nat.lt_ge_cases i j) as [Hlt | Hge].
      - left. eapply chain_ordered; eauto.
      - right. eapply (chain_ordered ranges 0 hsize j i); eauto. lia. }
    split; [exact Hord |].
    intros a1 a2. unfold disjoint, map_region, Capi.mapsize, sizeof_float. cbn [fst snd].
    destruct (Nat.lt_trichotomy a1 a2) as [Ha | [-> | Ha]]; nia.
Qed.

Lemma attribute_ranges_partition_witness :
  exists ranges,
    Core.attribute_ranges 70 (Core.windowsPerRoutine 70 32) 0 70 = Some ranges /\
    length ranges <= 32 /\
    chain 0 ranges 70.
Proof.
  destruct (attribute_ranges_partition 70 70) as (ranges & Hrun & Hlen & Hchain & _);
    [lia | lia | lia |].
  exists ranges. split; [exact Hrun |]. split; [exact Hlen | exact Hchain].
Defined.

(** ** Joining the workers *)

(** The errors among the values received, in the order of arrival. *)
Fixpoint errors_of (arrived : list (option Core.error)) : list Core.error :=
  match arrived with
  | [] => []
  | Some e :: rest => e :: errors_of rest
  | None :: rest => errors_of rest
  end.

Definition first_error (arrived : list (option Core.error)) : option Core.error :=
  head (errors_of arrived).

Lemma errors_of_app (l1 l2 : list (option Core.error)) :
  errors_of (l1 ++ l2) = errors_of l1 ++ errors_of l2.
Proof.
  induction l1 as [| [e |] l1 IH]; cbn; [reflexivity | f_equal; exact IH | exact IH].
Qed.

Lemma collect_spec (n : nat) (errs : list (option Core.error)) (acc : list Core.error) :
  n <= length errs ->
  Core.collect n errs acc = Some (acc ++ errors_of (take n errs), drop n errs).
Proof.
  revert errs acc. induction n as [| n IH]; intros errs acc Hn; cbn [Core.collect].
  - rewrite take_0, drop_0. cbn. now rewrite app_nil_r.
  - destruct errs as [| err errs]; cbn in Hn; [lia |].
    rewrite IH by lia. cbn [take drop]. destruct err as [e |]; cbn [errors_of].
    + now rewrite <- app_assoc.
    + reflexivity.
Qed.

Lemma collect_blocks (n : nat) (errs : list (option Core.error)) (acc : list Core.error) :
  length errs < n -> Core.collect n errs acc = None.
Proof.
  revert errs acc. induction n as [| n IH]; intros errs acc Hn; [lia |].
  cbn [Core.collect]. destruct errs as [| err errs]; [reflexivity |].
  cbn in Hn. apply IH. lia.
Qed.

Lemma spawn_sent (w : Core.goroutine) (ranges : list (nat * nat))
    (buffer : list memval) (sent : list (option Core.error)) :
  length (snd (Core.spawn w ranges buffer sent)) = length sent + length ranges.
Proof.
  revert buffer sent. induction ranges as [| [from to] rest IH]; intros buffer sent;
    cbn [Core.spawn].
  - cbn. lia.
  - rewrite IH, length_app. cbn. lia.
Qed.

Lemma errors_of_nil (l : list (option Core.error)) :
  errors_of l = [] <-> Forall (eq None) l.
Proof.
  induction l as [| [e |] l IH]; cbn.
  - split; [constructor | reflexivity].
  - split; [discriminate | intros H; inversion H; discriminate].
  - rewrite IH. split; [now constructor | intros H; now inversion H].
Qed.

Lemma errors_of_In (l : list (option Core.error)) (e : Core.error) :
  In e (errors_of l) <-> In (Some e) l.
Proof.
  induction l as [| [e' |] l IH]; cbn.
  - tauto.
  - rewrite IH. split; intros [H | H]; auto; left; congruence.
  - rewrite IH. split; [auto | intros [H | H]; [discriminate | exact H]].
Qed.

(** The values sent by [n] workers arrive in some order; the orchestrator
    receives all [n] of them, then decides. *)
Lemma pool_join {A} (sched : Core.arrival) (sent : list (option Core.error))
    (n : nat) (x : A) :
  (forall l, Permutation l (sched l)) ->
  length sent = n ->
  Core.collect n (sched sent) [] = Some (errors_of (sched sent), []) /\
  (forall e, In (Some e) sent ->
     exists e', first_error (sched sent) = Some e' /\
                Core.join (errors_of (sched sent)) x = Core.Err e') /\
  (forall y, Core.join (errors_of (sched sent)) x = Core.Return y ->
     y = x /\ Forall (eq None) sent).
Proof.
  intros Hperm Hn.
  assert (Hlen : length (sched sent) = n).
  { rewrite <- (Permutation_length (Hperm sent)). exact Hn. }
  split; [| split].
  - rewrite collect_spec by lia.
    rewrite take_ge, drop_ge by lia. reflexivity.
  - intros e Hin.
    assert (Hin' : In e (errors_of (sched sent))).
    { apply errors_of_In. eapply Permutation_in; [apply Hperm | exact Hin]. }
    unfold first_error. destruct (errors_of (sched sent)) as [| e' rest]; [destruct Hin' |].
    exists e'. split; reflexivity.
  - intros y Hy. apply join_Return in Hy as [Hnil ->]. split; [reflexivity |].
    apply errors_of_nil in Hnil.
    rewrite Forall_forall in *. intros o Ho. apply Hnil.
    apply list_elem_of_In. eapply Permutation_in; [apply Hperm |].
    apply list_elem_of_In. exact Ho.
Qed.

Lemma horizon_ranges_total (chunkSize hsize fuel from to : nat) :
  1 <= chunkSize ->
  hsize - from <= fuel ->
  exists ranges, Core.horizon_ranges fuel from to chunkSize hsize = Some ranges.
Proof.
  intros Hc. revert from to. induction fuel as [| fuel IH]; intros from to Hfuel;
    cbn [Core.horizon_ranges]; destruct (Nat.ltb_spec from hsize) as [Hlt | Hge];
    try (eexists; reflexivity); [lia |].
  destruct (IH (from + chunkSize) (Core.min (to + chunkSize) hsize)) as [rest ->]; [lia |].
  eexists. reflexivity.
Qed.

Lemma max_ge_1 (n : nat) : 1 <= Core.max n 1.
Proof. unfold Core.max. destruct (Nat.ltb_spec 1 n); lia. Qed.

Lemma attribute_ranges_total (hsize fuel : nat) :
  hsize <= fuel ->
  exists ranges,
    Core.attribute_ranges fuel (Core.windowsPerRoutine hsize 32) 0 hsize = Some ranges.
Proof.
  intros Hfuel. destruct hsize as [| h].
  - exists []. destruct fuel; reflexivity.
  - pose proof (windowsPerRoutine_bound (S h)).
    destruct (attribute_ranges_chain (Core.windowsPerRoutine (S h) 32) fuel 0 (S h))
      as (ranges & Hrun & _); [lia | lia |].
    exists ranges. exact Hrun.
Qed.

(** What [fetchHorizon] does when no goroutine panics. *)
Definition horizon_worker (v : Core.VDSHandle)
    (p t b : Capi.RegularSurface) (dataOffset : list Z)
    (interpolation : Ctypes.interpolation_method) : Core.goroutine :=
  fun from to buffer =>
    Capi.horizon (Core.api v) Capi.context_new (Core.handle v) p t b dataOffset
      interpolation from to buffer.

Definition attribute_worker (v : Core.VDSHandle)
    (p t b : Capi.RegularSurface) (dataOffset : list Z) (horizon : list memval)
    (horizonSize : nat) (cAttributes : list Ctypes.attribute) (stepsize : Q)
    : Core.goroutine :=
  fun from to buffer =>
    Capi.attribute (Core.api v) Capi.context_new (Core.handle v) p t b dataOffset
      horizon horizonSize cAttributes (length cAttributes) stepsize from to buffer.

Lemma fetchHorizon_inv sched fuel v p t b nrows ncols dataOffset interpolation size r :
  Core.fetchHorizon sched fuel v p t b nrows ncols dataOffset interpolation size = Some r ->
  r = Core.Panic \/
  exists ranges buffer sent errs rest,
    Core.horizon_ranges fuel 0 (0 + Core.max nrows 1) (Core.max nrows 1) (nrows * ncols)
    = Some ranges /\
    Core.spawn (horizon_worker v p t b dataOffset interpolation) ranges
      (replicate size Byte0) [] = (buffer, sent) /\
    Core.collect (length ranges) (sched sent) [] = Some (errs, rest) /\
    r = Core.join errs buffer.
Proof.
  unfold Core.fetchHorizon.
  destruct (Core.horizon_ranges _ _ _ _ _) as [ranges |]; [| discriminate].
  fold (horizon_worker v p t b dataOffset interpolation).
  assert (Hjoin :
    (let '(buffer, sent) :=
       Core.spawn (horizon_worker v p t b dataOffset interpolation) ranges
         (replicate size Byte0) [] in
     match Core.collect (length ranges) (sched sent) [] with
     | Some (computeErrors, _) => Some (Core.join computeErrors buffer)
     | None => None
     end) = Some r ->
    r = Core.Panic \/
    exists ranges' buffer sent errs rest,
      Some ranges = Some ranges' /\
      Core.spawn (horizon_worker v p t b dataOffset interpolation) ranges'
        (replicate size Byte0) [] = (buffer, sent) /\
      Core.collect (length ranges') (sched sent) [] = Some (errs, rest) /\
      r = Core.join errs buffer).
  { destruct (Core.spawn _ ranges (replicate size Byte0) []) as [buf sent] eqn:Hspawn.
    destruct (Core.collect _ _ _) as [[errs rest] |] eqn:Hc; [| discriminate].
    intros H. injection H as <-. right. exists ranges, buf, sent, errs, rest. auto. }
  destruct ranges as [| r0 rs]; [exact Hjoin |].
  destruct dataOffset as [| o os]; [intros H; injection H as <-; now left |].
  destruct size as [| size']; [intros H; injection H as <-; now left |].
  exact Hjoin.
Qed.

Lemma calculateAttributes_inv sched fuel v p t b hsize dataOffset horizon horizonSize
    cAttributes stepsize r :
  Core.calculateAttributes sched fuel v p t b hsize dataOffset horizon horizonSize
    cAttributes stepsize = Some r ->
  r = Core.Panic \/
  exists ranges buffer sent errs rest,
    Core.attribute_ranges fuel (Core.windowsPerRoutine hsize 32) 0 hsize = Some ranges /\
    Core.spawn (attribute_worker v p t b dataOffset horizon horizonSize cAttributes stepsize)
      ranges (replicate (hsize * 4 * length cAttributes) Byte0) [] = (buffer, sent) /\
    Core.collect (length ranges) (sched sent) [] = Some (errs, rest) /\
    r = Core.join errs
          (map (fun i => Core.slice_bytes buffer (i * (hsize * 4)) ((i + 1) * (hsize * 4)))
               (seq 0 (length cAttributes))).
Proof.
  unfold Core.calculateAttributes.
  destruct (Core.attribute_ranges _ _ _ _) as [ranges |]; [| discriminate].
  fold (attribute_worker v p t b dataOffset horizon horizonSize cAttributes stepsize).
  assert (Hjoin :
    (let '(buffer, sent) :=
       Core.spawn (attribute_worker v p t b dataOffset horizon horizonSize cAttributes
                     stepsize) ranges
         (replicate (hsize * 4 * length cAttributes) Byte0) [] in
     match Core.collect (length ranges) (sched sent) [] with
     | Some (computeErrors, _) =>
         Some (Core.join computeErrors
                 (map (fun i => Core.slice_bytes buffer (i * (hsize * 4))
                                  ((i + 1) * (hsize * 4)))
                      (seq 0 (length cAttributes))))
     | None => None
     end) = Some r ->
    r = Core.Panic \/
    exists ranges' buffer sent errs rest,
      Some ranges = Some ranges' /\
      Core.spawn (attribute_worker v p t b dataOffset horizon horizonSize cAttributes
                    stepsize) ranges'
        (replicate (hsize * 4 * length cAttributes) Byte0) [] = (buffer, sent) /\
      Core.collect (length ranges') (sched sent) [] = Some (errs, rest) /\
      r = Core.join errs
            (map (fun i => Core.slice_bytes buffer (i * (hsize * 4)) ((i + 1) * (hsize * 4)))
                 (seq 0 (length cAttributes)))).
  { destruct (Core.spawn _ ranges _ []) as [buf sent] eqn:Hspawn.
    destruct (Core.collect _ _ _) as [[errs rest] |] eqn:Hc; [| discriminate].
    intros H. injection H as <-. right. exists ranges, buf, sent, errs, rest. auto. }
  destruct ranges as [| r0 rs]; [exact Hjoin |].
  destruct dataOffset as [| o os]; [intros H; injection H as <-; now left |].
  destruct horizon as [| h0 hs]; [intros H; injection H as <-; now left |].
  destruct cAttributes as [| a0 attrs]; [intros H; injection H as <-; now left |].
  exact Hjoin.
Qed.

Lemma pool_total {A} (sched : Core.arrival) (w : Core.goroutine)
    (ranges : list (nat * nat)) (buffer0 : list memval) (f : list memval -> A) :
  (forall l, Permutation l (sched l)) ->
  exists r,
    (let '(buffer, sent) := Core.spawn w ranges buffer0 [] in
     match Core.collect (length ranges) (sched sent) [] with
     | Some (computeErrors, _) => Some (Core.join computeErrors (f buffer))
     | None => None
     end) = Some r.
Proof.
  intros Hperm.
  pose proof (spawn_sent w ranges buffer0 []) as Hlen.
  destruct (Core.spawn w ranges buffer0 []) as [buf sent]. cbn in Hlen.
  destruct (pool_join sched sent (length ranges) (f buf) Hperm Hlen) as (-> & _).
  eexists. reflexivity.
Qed.

Lemma fetchHorizon_total sched fuel v p t b nrows ncols dataOffset interpolation size :
  (forall l, Permutation l (sched l)) ->
  nrows * ncols <= fuel ->
  exists r,
    Core.fetchHorizon sched fuel v p t b nrows ncols dataOffset interpolation size = Some r.
Proof.
  intros Hperm Hfuel. unfold Core.fetchHorizon.
  destruct (horizon_ranges_total (Core.max nrows 1) (nrows * ncols) fuel 0
              (0 + Core.max nrows 1) (max_ge_1 nrows)) as [ranges ->]; [lia |].
  pose proof (pool_total sched (horizon_worker v p t b dataOffset interpolation)
                ranges (replicate size Byte0) (fun buffer => buffer) Hperm) as Hpool.
  destruct ranges as [| r0 rs]; [exact Hpool |].
  destruct dataOffset as [| o os]; [eexists; reflexivity |].
  destruct size as [| size']; [eexists; reflexivity |].
  exact Hpool.
Qed.

Lemma calculateAttributes_total sched fuel v p t b hsize dataOffset horizon horizonSize
    cAttributes stepsize :
  (forall l, Permutation l (sched l)) ->
  hsize <= fuel ->
  exists r,
    Core.calculateAttributes sched fuel v p t b hsize dataOffset horizon horizonSize
      cAttributes stepsize = Some r.
Proof.
  intros Hperm Hfuel. unfold Core.calculateAttributes.
  destruct (attribute_ranges_total hsize fuel Hfuel) as [ranges ->].
  pose proof (pool_total sched
                (attribute_worker v p t b dataOffset horizon horizonSize cAttributes stepsize)
                ranges (replicate (hsize * 4 * length cAttributes) Byte0)
                (fun buffer =>
                   map (fun i => Core.slice_bytes buffer (i * (hsize * 4))
                                   ((i + 1) * (hsize * 4)))
                       (seq 0 (length cAttributes))) Hperm) as Hpool.
  destruct ranges as [| r0 rs]; [exact Hpool |].
  destruct dataOffset as [| o os]; [eexists; reflexivity |].
  destruct horizon as [| h0 hs]; [eexists; reflexivity |].
  destruct cAttributes as [| a0 attrs]; [eexists; reflexivity |].
  exact Hpool.
Qed.

(** What the orchestrator of a pool returns, given the values its workers
    sent: all of them are received; an error of any worker makes the result
    the first error received, and a value is returned only when no worker
    sent an error. *)
Definition all_or_nothing {A} (sched : Core.arrival) (nRoutines : nat)
    (sent : list (option Core.error)) (x : A) (r : Core.go A) : Prop :=
  length sent = nRoutines /\
  Core.collect nRoutines (sched sent) [] = Some (errors_of (sched sent), []) /\
  (forall e, In (Some e) sent ->
     exists e', first_error (sched sent) = Some e' /\ r = Core.Err e') /\
  (forall y, r = Core.Return y -> y = x /\ Forall (eq None) sent).

Lemma pool_all_or_nothing {A} (sched : Core.arrival) (w : Core.goroutine)
    (ranges : list (nat * nat)) (buffer0 buffer : list memval)
    (sent : list (option Core.error)) (errs : list Core.error)
    (rest : list (option Core.error)) (x : A) :
  (forall l, Permutation l (sched l)) ->
  Core.spawn w ranges buffer0 [] = (buffer, sent) ->
  Core.collect (length ranges) (sched sent) [] = Some (errs, rest) ->
  all_or_nothing sched (length ranges) sent x (Core.join errs x).
Proof.
  intros Hperm Hspawn Hcollect.
  pose proof (spawn_sent w ranges buffer0 []) as Hlen.
  rewrite Hspawn in Hlen. cbn in Hlen.
  destruct (pool_join sched sent (length ranges) x Hperm Hlen) as (Hc & Herr & Hret).
  rewrite Hc in Hcollect. injection Hcollect as <- <-.
  unfold all_or_nothing. auto.
Qed.

(** C6.  Whatever the order in which the workers finish, the horizon
    fetch and the attribute computation return (given fuel for their
    loops), and unless a goroutine panicked: every spawned worker has sent
    its result and all of them have been received; if some worker reported
    an error the result is the first error received and no buffer; a buffer
    (the attribute maps) is returned only if every worker succeeded. *)
Theorem workers_all_or_nothing (schedH schedA : Core.arrival) :
  (forall l, Permutation l (schedH l)) ->
  (forall l, Permutation l (schedA l)) ->
  (forall fuel v p t b nrows ncols dataOffset interpolation size,
     nrows * ncols <= fuel ->
     exists r,
       Core.fetchHorizon schedH fuel v p t b nrows ncols dataOffset interpolation size
       = Some r /\
       (r = Core.Panic \/
        exists ranges buffer sent,
          Core.horizon_ranges fuel 0 (0 + Core.max nrows 1) (Core.max nrows 1)
            (nrows * ncols) = Some ranges /\
          Core.spawn (horizon_worker v p t b dataOffset interpolation) ranges
            (replicate size Byte0) [] = (buffer, sent) /\
          all_or_nothing schedH (length ranges) sent buffer r)) /\
  (forall fuel v p t b hsize dataOffset horizon horizonSize cAttributes stepsize,
     hsize <= fuel ->
     exists r,
       Core.calculateAttributes schedA fuel v p t b hsize dataOffset horizon
         horizonSize cAttributes stepsize = Some r /\
       (r = Core.Panic \/
        exists ranges buffer sent,
          Core.attribute_ranges fuel (Core.windowsPerRoutine hsize 32) 0 hsize
          = Some ranges /\
          Core.spawn (attribute_worker v p t b dataOffset horizon horizonSize
                        cAttributes stepsize) ranges
            (replicate (hsize * 4 * length cAttributes) Byte0) [] = (buffer, sent) /\
          all_or_nothing schedA (length ranges) sent
            (map (fun i => Core.slice_bytes buffer (i * (hsize * 4)) ((i + 1) * (hsize * 4)))
                 (seq 0 (length cAttributes))) r)).
Proof.
  intros HpermH HpermA. split.
  - intros fuel v p t b nrows ncols dataOffset interpolation size Hfuel.
    destruct (fetchHorizon_total schedH fuel v p t b nrows ncols dataOffset
                interpolation size HpermH Hfuel) as [r Hr].
    exists r. split; [exact Hr |].
    destruct (fetchHorizon_inv _ _ _ _ _ _ _ _ _ _ _ _ Hr)
      as [-> | (ranges & buffer & sent & errs & rest & Hranges & Hspawn & Hc & ->)];
      [now left | right].
    exists ranges, buffer, sent. split; [exact Hranges |]. split; [exact Hspawn |].
    eapply pool_all_or_nothing; eassumption.
  - intros fuel v p t b hsize dataOffset horizon horizonSize cAttributes stepsize Hfuel.
    destruct (calculateAttributes_total schedA fuel v p t b hsize dataOffset horizon
                horizonSize cAttributes stepsize HpermA Hfuel) as [r Hr].
    exists r. split; [exact Hr |].
    destruct (calculateAttributes_inv _ _ _ _ _ _ _ _ _ _ _ _ _ Hr)
      as [-> | (ranges & buffer & sent & errs & rest & Hranges & Hspawn & Hc & ->)];
      [now left | right].
    exists ranges, buffer, sent. split; [exact Hranges |]. split; [exact Hspawn |].
    eapply pool_all_or_nothing; eassumption.
Qed.

(** The values arrive in the reverse order of sending. *)
Definition last_first : Core.arrival := fun sent => rev sent.

Lemma workers_all_or_nothing_witness :
  exists r,
    Core.fetchHorizon last_first 8 WellKnown.vdshandle
      {| Capi.surface_data := []; Capi.nrows := 4; Capi.ncols := 2;
         Capi.plane := {| Capi.xori := 0; Capi.yori := 0; Capi.xinc := 1;
                          Capi.yinc := 1; Capi.rot := 0 |};
         Capi.fillvalue := 0 |}
      {| Capi.surface_data := []; Capi.nrows := 4; Capi.ncols := 2;
         Capi.plane := {| Capi.xori := 0; Capi.yori := 0; Capi.xinc := 1;
                          Capi.yinc := 1; Capi.rot := 0 |};
         Capi.fillvalue := 0 |}
      {| Capi.surface_data := []; Capi.nrows := 4; Capi.ncols := 2;
         Capi.plane := {| Capi.xori := 0; Capi.yori := 0; Capi.xinc := 1;
                          Capi.yinc := 1; Capi.rot := 0 |};
         Capi.fillvalue := 0 |}
      4 2 [0; 0; 0; 0; 0; 0; 0; 0; 0]%Z Ctypes.NEAREST 1 = Some r.
Proof.
  destruct (workers_all_or_nothing last_first last_first) as [Hh _].
  - intros l. apply Permutation_rev.
  - intros l. apply Permutation_rev.
  - destruct (Hh 8 WellKnown.vdshandle
                {| Capi.surface_data := []; Capi.nrows := 4; Capi.ncols := 2;
                   Capi.plane := {| Capi.xori := 0; Capi.yori := 0; Capi.xinc := 1;
                                    Capi.yinc := 1; Capi.rot := 0 |};
                   Capi.fillvalue := 0 |}
                {| Capi.surface_data := []; Capi.nrows := 4; Capi.ncols := 2;
                   Capi.plane := {| Capi.xori := 0; Capi.yori := 0; Capi.xinc := 1;
                                    Capi.yinc := 1; Capi.rot := 0 |};
                   Capi.fillvalue := 0 |}
                {| Capi.surface_data := []; Capi.nrows := 4; Capi.ncols := 2;
                   Capi.plane := {| Capi.xori := 0; Capi.yori := 0; Capi.xinc := 1;
                                    Capi.yinc := 1; Capi.rot := 0 |};
                   Capi.fillvalue := 0 |}
                4 2 [0; 0; 0; 0; 0; 0; 0; 0; 0]%Z Ctypes.NEAREST 1) as (r & Hr & _).
    + cbn. lia.
    + exists r. exact Hr.
Defined.

(** ** Surfaces handed to the C side *)

(** The value [toCdata] stores for a cell holding [value]. *)
Definition shifted (fill shift value : Q) : Q :=
  if Qeq_bool value fill then value else (value + shift)%Q.

Lemma toCdata_row_spec (fill shift : Q) (ncols i : nat) (row : list Q) :
  forall (j : nat) (cdata : list Q),
    i * ncols + j + length row <= length cdata ->
    let r := Core.toCdata_row fill shift ncols i j row cdata in
    length r = length cdata /\
    (forall m v, row !! m = Some v ->
                 r !! (i * ncols + j + m) = Some (shifted fill shift v)) /\
    (forall k, k < i * ncols + j \/ i * ncols + j + length row <= k ->
               r !! k = cdata !! k).
Proof.
  induction row as [| value rest IH]; intros j cdata Hlen; cbn [Core.toCdata_row].
  - cbn. split; [reflexivity |]. split; [intros m v H; discriminate H | reflexivity].
  - cbn [length] in Hlen.
    set (cdata' := if Qeq_bool value fill then <[i * ncols + j := value]> cdata
                   else <[i * ncols + j := (value + shift)%Q]> cdata).
    assert (Hcd : cdata' = <[i * ncols + j := shifted fill shift value]> cdata).
    { subst cdata'. unfold shifted. destruct (Qeq_bool value fill); reflexivity. }
    destruct (IH (S j) cdata') as (Hl & Hin & Hout).
    { rewrite Hcd, length_insert. lia. }
    cbn zeta. split; [| split].
    + rewrite Hl, Hcd. apply length_insert.
    + intros m v Hm. destruct m as [| m]; cbn in Hm.
      * injection Hm as <-. rewrite Hout by lia.
        rewrite Hcd, Nat.add_0_r. apply list_lookup_insert_eq. lia.
      * replace (i * ncols + j + S m) with (i * ncols + S j + m) by lia.
        apply Hin. exact Hm.
    + intros k Hk. cbn [length] in Hk. rewrite Hout by lia.
      rewrite Hcd. apply list_lookup_insert_ne. lia.
Qed.

Lemma toCdata_rows_spec (fill shift : Q) (ncols : nat) (rows : list (list Q)) :
  forall (i : nat) (cdata cdata' : list Q),
    (i + length rows) * ncols <= length cdata ->
    Core.toCdata_rows fill shift ncols i rows cdata = Core.Return cdata' ->
    length cdata' = length cdata /\
    Forall (fun row => length row = ncols) rows /\
    (forall m row j v,
        rows !! m = Some row -> row !! j = Some v ->
        cdata' !! ((i + m) * ncols + j) = Some (shifted fill shift v)) /\
    (forall k, k < i * ncols -> cdata' !! k = cdata !! k).
Proof.
  induction rows as [| row rest IH]; intros i cdata cdata' Hlen; cbn [Core.toCdata_rows].
  - intros H. injection H as <-. split; [reflexivity |]. split; [constructor |].
    split; [intros m row j v H; discriminate H | reflexivity].
  - destruct (Nat.eqb_spec (length row) ncols) as [Hrow | Hrow]; cbn [negb];
      [| discriminate].
    cbn [length] in Hlen.
    destruct (toCdata_row_spec fill shift ncols i row 0 cdata) as (Hl & Hin & Hout);
      [nia |].
    intros Hrest. apply IH in Hrest as (Hl' & Hall & Hin' & Hout'); [| rewrite Hl; nia].
    split; [congruence |]. split; [constructor; assumption |]. split.
    + intros m row' j v Hm Hj. destruct m as [| m]; cbn in Hm.
      * injection Hm as <-.
        assert (j < ncols) by (rewrite <- Hrow; eapply lookup_lt_Some; eassumption).
        rewrite Nat.add_0_r, Hout' by nia.
        specialize (Hin j v Hj). rewrite Nat.add_0_r in Hin. exact Hin.
      * replace (i + S m) with (S i + m) by lia. eapply Hin'; eassumption.
    + intros k Hk. rewrite Hout' by nia. apply Hout. lia.
Qed.

Lemma toCdata_rows_total (fill shift : Q) (ncols : nat) (rows : list (list Q)) :
  Forall (fun row => length row = ncols) rows ->
  forall i cdata, exists cdata',
    Core.toCdata_rows fill shift ncols i rows cdata = Core.Return cdata'.
Proof.
  induction 1 as [| row rest Hrow _ IH]; intros i cdata; cbn [Core.toCdata_rows].
  - eexists. reflexivity.
  - rewrite Hrow, Nat.eqb_refl. cbn [negb]. apply IH.
Qed.

Lemma toCdata_spec (surface : Core.RegularSurface) (shift : Q) (cdata : list Q) :
  Core.toCdata surface shift = Core.Return cdata ->
  exists row0 rest,
    Core.Values surface = row0 :: rest /\
    Forall (fun row => length row = length row0) (Core.Values surface) /\
    length cdata = length (Core.Values surface) * length row0 /\
    forall i row j v,
      Core.Values surface !! i = Some row -> row !! j = Some v ->
      cdata !! (i * length row0 + j)
      = Some (shifted (Core.FillValue surface) shift v).
Proof.
  unfold Core.toCdata. destruct (Core.Values surface) as [| row0 rest] eqn:HV;
    [discriminate |].
  intros H. apply toCdata_rows_spec in H as (Hl & Hall & Hin & _).
  - exists row0, rest. split; [reflexivity |]. split; [exact Hall |].
    split; [rewrite Hl; apply length_replicate |].
    intros i row j v Hi Hj. exact (Hin i row j v Hi Hj).
  - rewrite length_replicate. cbn. lia.
Qed.



(** ** The attribute maps *)

Lemma toCRegularSurface_spec (surface : Core.RegularSurface) (cdata : list Q)
    (c : Capi.RegularSurface) :
  Core.toCRegularSurface surface cdata = Core.Return c ->
  exists row0 rest,
    Core.Values surface = row0 :: rest /\
    Capi.surface_data c = cdata /\
    Capi.nrows c = length (Core.Values surface) /\
    Capi.ncols c = length row0 /\
    Capi.fillvalue c = Core.FillValue surface.
Proof.
  unfold Core.toCRegularSurface.
  destruct (Core.Values surface) as [| row0 rest]; [discriminate |].
  destruct cdata as [| x xs]; [discriminate |].
  intros H. injection H as <-. exists row0, rest. repeat split; reflexivity.
Qed.

(** The steps of a successful [GetAttributes]. *)
Inductive attributes_run (schedH schedA : Core.arrival) (fuel : nat)
    (v : Core.VDSHandle) (primarySurface : Core.RegularSurface)
    (above below stepsize : Q) (attributes : list string)
    (interpolation : Ctypes.interpolation_method)
    (out : list (list memval)) : Prop :=
| attributes_ran
    (ids : list Ctypes.attribute) (row0 : list Q)
    (cPrimary cTop cBottom : Capi.RegularSurface)
    (run_attributes : Core.targetAttributes attributes [] = Core.Return ids)
    (run_guard : Qlt_bool above 0 || Qlt_bool below 0 = false)
    (run_values : head (Core.Values primarySurface) = Some row0)
    (run_primary_data :
       Core.toCdata primarySurface 0 = Core.Return (Capi.surface_data cPrimary))
    (run_top_data :
       Core.toCdata primarySurface (- above) = Core.Return (Capi.surface_data cTop))
    (run_bottom_data :
       Core.toCdata primarySurface below = Core.Return (Capi.surface_data cBottom))
    (run_primary_surface :
       Core.toCRegularSurface primarySurface (Capi.surface_data cPrimary)
       = Core.Return cPrimary)
    (run_top_surface :
       Core.toCRegularSurface primarySurface (Capi.surface_data cTop)
       = Core.Return cTop)
    (run_bottom_surface :
       Core.toCRegularSurface primarySurface (Capi.surface_data cBottom)
       = Core.Return cBottom)
    (run_tail :
       Model.surface_attributes schedH schedA fuel v cPrimary cTop cBottom
         (length (Core.Values primarySurface)) (length row0) ids stepsize
         interpolation
       = Some (Core.Return out)).

Lemma go_bind_Return {A B} (r : Core.go A) (k : A -> option (Core.go B)) (y : B) :
  Core.go_bind r k = Some (Core.Return y) ->
  exists a, r = Core.Return a /\ k a = Some (Core.Return y).
Proof.
  destruct r as [a | e |]; cbn [Core.go_bind]; intros H; try discriminate.
  exists a. split; [reflexivity | exact H].
Qed.

Lemma GetAttributes_inv schedH schedA fuel v primarySurface above below stepsize
    attributes interpolation out :
  Core.GetAttributes schedH schedA fuel v primarySurface above below stepsize
    attributes interpolation = Some (Core.Return out) ->
  attributes_run schedH schedA fuel v primarySurface above below stepsize
    attributes interpolation out.
Proof.
  unfold Core.GetAttributes. intros H.
  apply go_bind_Return in H as (ids & Hids & H).
  destruct (Qlt_bool above 0 || Qlt_bool below 0) eqn:Hguard; [discriminate |].
  destruct (Core.Values primarySurface) as [| row0 rest] eqn:HV; [discriminate |].
  apply go_bind_Return in H as (pd & Hpd & H).
  apply go_bind_Return in H as (cp & Hcp & H).
  apply go_bind_Return in H as (td & Htd & H).
  apply go_bind_Return in H as (ct & Hct & H).
  apply go_bind_Return in H as (bd & Hbd & H).
  apply go_bind_Return in H as (cb & Hcb & H).
  assert (Hp : Capi.surface_data cp = pd).
  { apply toCRegularSurface_spec in Hcp as (? & ? & _ & Hd & _). exact Hd. }
  assert (Ht : Capi.surface_data ct = td).
  { apply toCRegularSurface_spec in Hct as (? & ? & _ & Hd & _). exact Hd. }
  assert (Hb : Capi.surface_data cb = bd).
  { apply toCRegularSurface_spec in Hcb as (? & ? & _ & Hd & _). exact Hd. }
  subst pd td bd.
  apply (attributes_ran _ _ _ _ _ _ _ _ _ _ _ ids row0 cp ct cb);
    try assumption; rewrite ?HV; try reflexivity.
  unfold Model.surface_attributes. exact H.
Qed.



Lemma targetAttributes_spec (attributes : list string) :
  forall (acc ids : list Ctypes.attribute),
    Core.targetAttributes attributes acc = Core.Return ids ->
    length ids = length acc + length attributes /\
    (forall i, i < length acc -> ids !! i = acc !! i) /\
    (forall i name, attributes !! i = Some name ->
       exists id, Core.GetAttributeType name = Core.Return id /\
                  ids !! (length acc + i) = Some id).
Proof.
  induction attributes as [| attr rest IH]; intros acc ids; cbn [Core.targetAttributes].
  - intros H. injection H as <-. cbn [length]. split; [lia |].
    split; [reflexivity | intros i name H; discriminate H].
  - destruct (Core.GetAttributeType attr) as [id | e |] eqn:Hid; try discriminate.
    intros H. apply IH in H as (Hlen & Hacc & Hnames).
    rewrite length_app in Hlen, Hacc, Hnames. cbn [length] in *.
    split; [lia |]. split.
    + intros i Hi. rewrite Hacc by lia. apply lookup_app_l. exact Hi.
    + intros i name Hi. destruct i as [| i]; cbn in Hi.
      * injection Hi as <-. exists id. split; [exact Hid |].
        rewrite Nat.add_0_r, Hacc by lia.
        rewrite lookup_app_r by lia. now rewrite Nat.sub_diag.
      * destruct (Hnames i name Hi) as (id' & Hid' & Hl). exists id'.
        split; [exact Hid' |]. rewrite <- Hl. f_equal. lia.
Qed.




(** ** Floats in byte buffers *)

(** The four bytes of cell [cell] are those of the float [v]. *)
Definition holds (buf : list memval) (cell : nat) (v : Q) : Prop :=
  forall k, k < 4 -> buf !! (cell * 4 + k) = Some (Fragment v k).

Lemma Qeq_bool_refl (x : Q) : Qeq_bool x x = true.
Proof. apply Qeq_bool_iff. reflexivity. Qed.

Lemma holds_load (buf : list memval) (cell : nat) (v : Q) :
  holds buf cell v -> load_f32 buf cell = Some v.
Proof.
  intros H. unfold load_f32, sizeof_float.
  assert (Hb : take 4 (drop (cell * 4) buf) = encode_f32 v).
  { apply list_eq. intros k. destruct (Nat.lt_ge_cases k 4) as [Hk | Hk].
    - rewrite lookup_take_lt, lookup_drop by exact Hk. rewrite (H k Hk).
      do 4 (destruct k as [| k]; [reflexivity |]). lia.
    - rewrite lookup_take_ge by exact Hk. symmetry. apply lookup_ge_None. cbn. lia. }
  rewrite Hb. cbn. rewrite !Qeq_bool_refl. reflexivity.
Qed.

Lemma floats_to_bytes_length (fs : list Q) : length (floats_to_bytes fs) = length fs * 4.
Proof.
  unfold floats_to_bytes. induction fs as [| f fs IH]; cbn; [reflexivity | now rewrite IH].
Qed.

Lemma fill_bytes_lookup (n : nat) (v : Q) (m k : nat) :
  m < n -> k < 4 ->
  floats_to_bytes (replicate n v) !! (m * 4 + k) = Some (Fragment v k).
Proof.
  revert m. induction n as [| n IH]; intros m Hm Hk; [lia |].
  destruct m as [| m].
  - cbn. do 4 (destruct k as [| k]; [reflexivity |]). lia.
  - cbn [replicate floats_to_bytes flat_map]. fold (floats_to_bytes (replicate n v)).
    replace (S m * 4 + k) with (4 + (m * 4 + k)) by lia.
    cbn [encode_f32 app Nat.add lookup list_lookup].
    apply IH; [lia | exact Hk].
Qed.

Lemma memcpy_length (dst : list memval) (off : nat) (src : list memval) :
  length (memcpy dst off src) = length dst.
Proof. apply length_inserts. Qed.

Lemma memcpy_outside (dst : list memval) (off : nat) (src : list memval) (b : nat) :
  b < off \/ off + length src <= b -> memcpy dst off src !! b = dst !! b.
Proof.
  intros [H | H]; unfold memcpy;
    [apply list_lookup_inserts_lt | apply list_lookup_inserts_ge]; exact H.
Qed.

Lemma memcpy_fill_holds (dst : list memval) (i n : nat) (v : Q) (c : nat) :
  i <= c < i + n ->
  c * 4 + 4 <= length dst ->
  holds (memcpy dst (i * 4) (floats_to_bytes (replicate n v))) c v.
Proof.
  intros Hc Hlen k Hk. unfold memcpy.
  rewrite list_lookup_inserts.
  - replace (c * 4 + k - i * 4) with ((c - i) * 4 + k) by lia.
    apply fill_bytes_lookup; lia.
  - rewrite floats_to_bytes_length, length_replicate. lia.
  - lia.
Qed.

Lemma memcpy_fill_keeps (dst : list memval) (i n : nat) (v : Q) (c : nat) :
  holds dst c v ->
  holds (memcpy dst (i * 4) (floats_to_bytes (replicate n v))) c v.
Proof.
  intros H.
  assert (Hlen : c * 4 + 4 <= length dst).
  { specialize (H 3 ltac:(lia)). apply lookup_lt_Some in H. lia. }
  destruct (Nat.lt_ge_cases c i) as [Hlt | Hge].
  - intros k Hk. rewrite memcpy_outside by lia. apply H. exact Hk.
  - destruct (Nat.lt_ge_cases c (i + n)) as [Hin | Hout].
    + apply memcpy_fill_holds; lia.
    + intros k Hk. rewrite memcpy_outside; [apply H; exact Hk |].
      rewrite floats_to_bytes_length, length_replicate. lia.
Qed.

Lemma write_fillvalue_length (novals : list nat) (vs : nat) (fill : Q) (dst : list memval) :
  length (Vds.write_fillvalue dst novals vs fill) = length dst.
Proof.
  unfold Vds.write_fillvalue. revert dst.
  induction novals as [| i rest IH]; intros dst; cbn [foldl]; [reflexivity |].
  rewrite IH. apply memcpy_length.
Qed.

Lemma write_fillvalue_keeps (novals : list nat) (vs : nat) (fill : Q) (c : nat) :
  forall dst, holds dst c fill -> holds (Vds.write_fillvalue dst novals vs fill) c fill.
Proof.
  unfold Vds.write_fillvalue.
  induction novals as [| i rest IH]; intros dst H; cbn [foldl]; [exact H |].
  apply IH. unfold sizeof_float. apply memcpy_fill_keeps. exact H.
Qed.

(** Every float of a no-value region is the fill value afterwards. *)
Lemma write_fillvalue_fills (novals : list nat) (vs : nat) (fill : Q) (i m : nat) :
  forall dst,
    In i novals -> m < vs -> (i + m) * 4 + 4 <= length dst ->
    holds (Vds.write_fillvalue dst novals vs fill) (i + m) fill.
Proof.
  induction novals as [| i0 rest IH]; intros dst Hin Hm Hlen; [destruct Hin |].
  destruct Hin as [-> | Hin].
  - unfold Vds.write_fillvalue. cbn [foldl].
    apply (write_fillvalue_keeps rest vs fill (i + m)).
    unfold sizeof_float. apply memcpy_fill_holds; lia.
  - unfold Vds.write_fillvalue. cbn [foldl].
    apply (IH (memcpy dst (i0 * sizeof_float) (floats_to_bytes (replicate vs fill))));
      [exact Hin | exact Hm |].
    rewrite memcpy_length. exact Hlen.
Qed.

(** Bytes outside every no-value region are left as they were. *)
Lemma write_fillvalue_outside (novals : list nat) (vs : nat) (fill : Q) (b : nat) :
  forall dst,
    (forall i, In i novals -> b < i * 4 \/ (i + vs) * 4 <= b) ->
    Vds.write_fillvalue dst novals vs fill !! b = dst !! b.
Proof.
  unfold Vds.write_fillvalue.
  induction novals as [| i0 rest IH]; intros dst Hout; cbn [foldl]; [reflexivity |].
  rewrite IH by (intros i Hi; apply Hout; right; exact Hi).
  apply memcpy_outside. rewrite floats_to_bytes_length, length_replicate.
  unfold sizeof_float. destruct (Hout i0 (or_introl eq_refl)); lia.
Qed.

(** ** The half-voxel shift *)

(** The three axes of a cube sit on three different dimensions of a voxel. *)
Definition distinct_dimensions (m : Vds.MetadataHandle) : Prop :=
  let di := Axis.dimension (Vds.iline m) in
  let dx := Axis.dimension (Vds.xline m) in
  let ds := Axis.dimension (Vds.sample m) in
  di < 6 /\ dx < 6 /\ ds < 6 /\ di <> dx /\ di <> ds /\ dx <> ds.

Definition voxels6 (coords : list Vds.voxel) : Prop :=
  Forall (fun vox : Vds.voxel => length vox = 6) coords.

Lemma set_coord_length (coords : list Vds.voxel) (i dim : nat) (v : Q) :
  length (Vds.set_coord coords i dim v) = length coords.
Proof. apply length_alter. Qed.

Lemma set_coord_voxels6 (coords : list Vds.voxel) (i dim : nat) (v : Q) :
  voxels6 coords -> voxels6 (Vds.set_coord coords i dim v).
Proof.
  intros H. apply Forall_alter; [exact H |].
  intros vox _ Hv.
  change (length (<[dim := v]> vox) = 6).
  rewrite length_insert. exact Hv.
Qed.

Lemma set_coord_other (coords : list Vds.voxel) (i dim : nat) (v : Q) (j : nat) :
  i <> j -> Vds.set_coord coords i dim v !! j = coords !! j.
Proof. apply list_lookup_alter_ne. Qed.

Lemma set_coord_at (coords : list Vds.voxel) (i dim : nat) (v : Q) (vox : Vds.voxel) :
  coords !! i = Some vox ->
  Vds.set_coord coords i dim v !! i = Some (<[dim := v]> vox).
Proof.
  intros H. unfold Vds.set_coord. rewrite list_lookup_alter_eq, H. reflexivity.
Qed.

Lemma voxels6_lookup (coords : list Vds.voxel) (i : nat) (vox : Vds.voxel) :
  voxels6 coords -> coords !! i = Some vox -> length vox = 6.
Proof.
  intros H Hi. unfold voxels6 in H. rewrite Forall_forall in H.
  apply H. eapply list_elem_of_lookup_2. exact Hi.
Qed.

Lemma replicate_voxels6 (n : nat) : voxels6 (replicate n Vds.zero_voxel).
Proof. apply Forall_replicate. reflexivity. Qed.

(** The x and y of point [p] in the flat coordinate array. *)
Definition point_x (coordinates : list Q) (p : nat) : Q :=
  default 0%Q (coordinates !! (2 * p)).

Definition point_y (coordinates : list Q) (p : nat) : Q :=
  default 0%Q (coordinates !! (2 * p + 1)).

(** The voxel handed to the trace fetch for a point: the transformer output
    plus one half on the inline and on the crossline dimension. *)
Definition shifted_point (m : Vds.MetadataHandle) (cs : Ctypes.coordinate_system)
    (x y : Q) (vox : Vds.voxel) : Prop :=
  let coordinate := Vds.transform_coordinate m cs x y in
  vox !! Axis.dimension (Vds.iline m) = Some (Vds.at3 coordinate 0 + (1 # 2))%Q /\
  vox !! Axis.dimension (Vds.xline m) = Some (Vds.at3 coordinate 1 + (1 # 2))%Q.

Lemma set_point_shifted (m : Vds.MetadataHandle) (cs : Ctypes.coordinate_system)
    (x y : Q) (coords : list Vds.voxel) (i : nat) (vox : Vds.voxel) :
  distinct_dimensions m -> voxels6 coords -> coords !! i = Some vox ->
  let coordinate := Vds.transform_coordinate m cs x y in
  exists vox',
    Vds.set_coord
      (Vds.set_coord coords i (Axis.dimension (Vds.iline m))
         (Vds.at3 coordinate 0 + (1 # 2))%Q)
      i (Axis.dimension (Vds.xline m)) (Vds.at3 coordinate 1 + (1 # 2))%Q !! i
    = Some vox' /\ shifted_point m cs x y vox'.
Proof.
  intros (Hi & Hx & _ & Hix & _) H6 Hvox coordinate.
  pose proof (voxels6_lookup _ _ _ H6 Hvox) as Hlen.
  eexists. split.
  - erewrite set_coord_at; [reflexivity |]. apply set_coord_at. exact Hvox.
  - split.
    + rewrite list_lookup_insert_ne by congruence.
      apply list_lookup_insert_eq. lia.
    + apply list_lookup_insert_eq. rewrite length_insert. lia.
Qed.

Lemma fence_loop_spec (m : Vds.MetadataHandle) (cs : Ctypes.coordinate_system)
    (coordinates : list Q) (n : nat) :
  distinct_dimensions m ->
  forall (i : nat) (coords coords' : list Vds.voxel),
    voxels6 coords ->
    i + n <= length coords ->
    Vds.fence_loop m cs coordinates n i coords = Ok coords' ->
    length coords' = length coords /\
    voxels6 coords' /\
    (forall p, p < i \/ i + n <= p -> coords' !! p = coords !! p) /\
    (forall p, i <= p < i + n ->
       exists vox, coords' !! p = Some vox /\
                   shifted_point m cs (point_x coordinates p) (point_y coordinates p) vox).
Proof.
  intros Hdim. induction n as [| n IH]; intros i coords coords' H6 Hlen;
    cbn [Vds.fence_loop].
  - intros H. injection H as <-. split; [reflexivity |]. split; [exact H6 |].
    split; [reflexivity | intros p Hp; lia].
  - fold (point_x coordinates i). fold (point_y coordinates i).
    destruct (Vds.validate_boundary _ _ _ 0 _) as [[] | e]; cbn [bind]; [| discriminate].
    destruct (Vds.validate_boundary _ _ _ 1 _) as [[] | e]; cbn [bind]; [| discriminate].
    set (x := point_x coordinates i). set (y := point_y coordinates i).
    set (coords1 := Vds.set_coord (Vds.set_coord coords i _ _) i _ _).
    intros Hrest.
    apply IH in Hrest as (Hl & H6' & Hout & Hin).
    + assert (Hl1 : length coords1 = length coords).
      { subst coords1. now rewrite !set_coord_length. }
      split; [congruence |]. split; [exact H6' |]. split.
      * intros p Hp. rewrite Hout by lia. subst coords1.
        rewrite !set_coord_other by lia. reflexivity.
      * intros p Hp. destruct (Nat.eq_dec p i) as [-> | Hne].
        -- rewrite Hout by lia.
           destruct (lookup_lt_is_Some_2 coords i) as [vox Hvox]; [lia |].
           exact (set_point_shifted m cs x y coords i vox Hdim H6 Hvox).
        -- apply Hin. lia.
    + subst coords1. now do 2 apply set_coord_voxels6.
    + subst coords1. rewrite !set_coord_length. lia.
Qed.

(** A natural number as a [double]. *)
Definition Qnat (n : nat) : Q := inject_Z (Z.of_nat n).

Lemma Qnat_0 : (Qnat 0 == 0)%Q.
Proof. reflexivity. Qed.

Lemma Qnat_S (n : nat) : (Qnat (S n) == Qnat n + 1)%Q.
Proof.
  unfold Qnat. rewrite Nat2Z.inj_succ, <- Z.add_1_r, inject_Z_plus. reflexivity.
Qed.

Lemma Qnat_plus (a b : nat) : (Qnat (a + b) == Qnat a + Qnat b)%Q.
Proof. unfold Qnat. rewrite Nat2Z.inj_add, inject_Z_plus. reflexivity. Qed.

Lemma Qnat_le (a b : nat) : (Qnat a <= Qnat b)%Q <-> a <= b.
Proof. unfold Qnat. rewrite <- Zle_Qle. lia. Qed.

Lemma Qnat_lt (a b : nat) : (Qnat a < Qnat b)%Q <-> a < b.
Proof. unfold Qnat. rewrite <- Zlt_Qlt. lia. Qed.

(** One sample of a window: the shifted (i, j) of the cell and a depth. *)
Definition window_voxel (m : Vds.MetadataHandle) (ij0 ij1 d : Q) (vox : Vds.voxel) : Prop :=
  vox !! Axis.dimension (Vds.iline m) = Some ij0 /\
  vox !! Axis.dimension (Vds.xline m) = Some ij1 /\
  exists d', vox !! Axis.dimension (Vds.sample m) = Some d' /\ (d' == d)%Q.

Lemma set_window_voxel (m : Vds.MetadataHandle) (ij0 ij1 d : Q)
    (samples : list Vds.voxel) (i : nat) (vox : Vds.voxel) :
  distinct_dimensions m -> voxels6 samples -> samples !! i = Some vox ->
  exists vox',
    Vds.set_coord
      (Vds.set_coord
         (Vds.set_coord samples i (Axis.dimension (Vds.iline m)) ij0)
         i (Axis.dimension (Vds.xline m)) ij1)
      i (Axis.dimension (Vds.sample m)) d !! i = Some vox' /\
    window_voxel m ij0 ij1 d vox'.
Proof.
  intros (Hi & Hx & Hs & Hix & His & Hxs) H6 Hvox.
  pose proof (voxels6_lookup _ _ _ H6 Hvox) as Hlen.
  eexists. split.
  - erewrite set_coord_at; [reflexivity |].
    erewrite set_coord_at; [reflexivity |]. apply set_coord_at. exact Hvox.
  - split; [| split].
    + rewrite !list_lookup_insert_ne by congruence.
      apply list_lookup_insert_eq. lia.
    + rewrite list_lookup_insert_ne by congruence.
      apply list_lookup_insert_eq. rewrite length_insert. lia.
    + exists d. split; [| reflexivity].
      apply list_lookup_insert_eq. rewrite !length_insert. lia.
Qed.

Lemma depth_loop_spec (m : Vds.MetadataHandle) (ij0 ij1 bottom : Q) :
  distinct_dimensions m ->
  forall (fuel : nat) (cur : Q) (samples : list Vds.voxel) (i : nat)
         (samples' : list Vds.voxel) (i' : nat),
    voxels6 samples ->
    Vds.depth_loop fuel m ij0 ij1 cur bottom samples i = Some (samples', i') ->
    exists n,
      i' = i + n /\
      (bottom < cur + Qnat n)%Q /\
      (forall j, j < n -> (cur + Qnat j <= bottom)%Q) /\
      length samples' = length samples /\
      voxels6 samples' /\
      (forall p, p < i \/ i + n <= p -> samples' !! p = samples !! p) /\
      (forall j, j < n -> i + j < length samples ->
         exists vox, samples' !! (i + j) = Some vox /\
                     window_voxel m ij0 ij1 (cur + Qnat j) vox).
Proof.
  intros Hdim.
  assert (Hstop : forall (cur : Q) (samples : list Vds.voxel) (i : nat)
                         (samples' : list Vds.voxel) (i' : nat),
             voxels6 samples ->
             Qle_bool cur bottom = false ->
             Some (samples, i) = Some (samples', i') ->
             exists n,
               i' = i + n /\
               (bottom < cur + Qnat n)%Q /\
               (forall j, j < n -> (cur + Qnat j <= bottom)%Q) /\
               length samples' = length samples /\
               voxels6 samples' /\
               (forall p, p < i \/ i + n <= p -> samples' !! p = samples !! p) /\
               (forall j, j < n -> i + j < length samples ->
                  exists vox, samples' !! (i + j) = Some vox /\
                              window_voxel m ij0 ij1 (cur + Qnat j) vox)).
  { intros cur samples i samples' i' H6 Htest H. injection H as <- <-. exists 0.
    assert (Hgt : (bottom < cur)%Q).
    { apply Qnot_le_lt. intros Hle. apply Qle_bool_iff in Hle. congruence. }
    split; [lia |]. split; [rewrite Qnat_0; lra |]. split; [intros j Hj; lia |].
    split; [reflexivity |]. split; [exact H6 |].
    split; [reflexivity | intros j Hj; lia]. }
  induction fuel as [| fuel IH]; intros cur samples i samples' i' H6;
    cbn [Vds.depth_loop]; destruct (Qle_bool cur bottom) eqn:Htest;
    try discriminate; try (apply Hstop; assumption).
  - set (samples3 := Vds.set_coord (Vds.set_coord (Vds.set_coord samples i _ _) i _ _) i _ _).
    intros Hrest. apply Qle_bool_iff in Htest.
    apply IH in Hrest as (n & -> & Hexit & Hiter & Hl & H6' & Hout & Hin).
    2:{ subst samples3. now do 3 apply set_coord_voxels6. }
    assert (Hl3 : length samples3 = length samples).
    { subst samples3. now rewrite !set_coord_length. }
    exists (S n). split; [lia |]. split; [rewrite Qnat_S; lra |]. split.
    { intros j Hj. destruct j as [| j].
      - rewrite Qnat_0. lra.
      - specialize (Hiter j ltac:(lia)). rewrite Qnat_S. lra. }
    split; [congruence |]. split; [exact H6' |]. split.
    { intros p Hp. rewrite Hout by lia. subst samples3.
      rewrite !set_coord_other by lia. reflexivity. }
    intros j Hj Hlen. destruct j as [| j].
    + rewrite Nat.add_0_r in *. rewrite Hout by lia.
      destruct (lookup_lt_is_Some_2 samples i) as [vox Hvox]; [lia |].
      destruct (set_window_voxel m ij0 ij1 cur samples i vox Hdim H6 Hvox)
        as (vox' & Hv & Hi0 & Hi1 & d' & Hd & Heq).
      exists vox'. split; [exact Hv |]. split; [exact Hi0 |]. split; [exact Hi1 |].
      exists d'. split; [exact Hd |]. rewrite Heq, Qnat_0. lra.
    + destruct (Hin j ltac:(lia) ltac:(lia)) as (vox & Hv & Hi0 & Hi1 & d' & Hd & Heq).
      exists vox. replace (i + S j) with (S i + j) by lia.
      split; [exact Hv |]. split; [exact Hi0 |]. split; [exact Hi1 |].
      exists d'. split; [exact Hd |]. rewrite Heq, Qnat_S. lra.
Qed.

Lemma depth_loop_total (m : Vds.MetadataHandle) (ij0 ij1 bottom : Q) :
  forall (fuel : nat) (cur : Q) (samples : list Vds.voxel) (i : nat),
    (bottom < cur + Qnat fuel)%Q ->
    exists r, Vds.depth_loop fuel m ij0 ij1 cur bottom samples i = Some r.
Proof.
  induction fuel as [| fuel IH]; intros cur samples i Hfuel; cbn [Vds.depth_loop];
    destruct (Qle_bool cur bottom) eqn:Htest; try (eexists; reflexivity).
  - apply Qle_bool_iff in Htest. rewrite Qnat_0 in Hfuel. lra.
  - apply IH. rewrite Qnat_S in Hfuel. lra.
Qed.

Lemma cell_index_inj (n row col row' col' : nat) :
  col < n -> col' < n -> row' * n + col' = row * n + col -> row' = row /\ col' = col.
Proof.
  intros Hc Hc' Heq. apply (Nat.div_mod_unique n); [exact Hc' | exact Hc | lia].
Qed.

Section HorizonCells.

Variable m : Vds.MetadataHandle.
Variable surface : Vds.RegularSurface.t.
Variable fillvalue : Q.
Variable vertical : Vds.VerticalWindow.t.
Hypothesis Hdim : distinct_dimensions m.

Let ncols := Vds.RegularSurface.ncols surface.
Let nrows := Vds.RegularSurface.nrows surface.
Let vsize := Vds.VerticalWindow.size vertical.
Let nsamples := Vds.RegularSurface.size surface * vsize.

(** The transformer output for a cell: its (i, j) and its k. *)
Definition horizon_ij (row col : nat) : Vds.Vector3 :=
  let cdp := Vds.RegularSurface.coordinate surface row col in
  Vds.WorldToIJKPosition m (fst cdp, snd cdp, 0%Q).

Definition horizon_k (row col : nat) : Vds.Vector3 :=
  Vds.AnnotationToIJKPosition m (0%Q, 0%Q, Vds.RegularSurface.value surface row col).

(** The cells that get no samples: marked by the fill value, or outside the
    cube in the horizontal plane. *)
Definition skipped (row col : nat) : bool :=
  Qeq_bool (Vds.RegularSurface.value surface row col) fillvalue
  || (negb (Vds.inrange (Vds.iline m) (Vds.at3 (horizon_ij row col) 0 + (1 # 2))%Q)
      || negb (Vds.inrange (Vds.xline m) (Vds.at3 (horizon_ij row col) 1 + (1 # 2))%Q)).

(** What the sample array and the no-value list hold for a cell. *)
Definition cell_done (samples : list Vds.voxel) (noval : list nat) (row col : nat) : Prop :=
  let base := (row * ncols + col) * vsize in
  if skipped row col then
    In base noval /\ forall j, j < vsize -> samples !! (base + j) = Some Vds.zero_voxel
  else
    forall j, j < vsize ->
      exists vox,
        samples !! (base + j) = Some vox /\
        window_voxel m
          (Vds.at3 (horizon_ij row col) 0 + (1 # 2))%Q
          (Vds.at3 (horizon_ij row col) 1 + (1 # 2))%Q
          (Vds.at3 (horizon_k row col) 2 + (1 # 2)
           - Qnat (Vds.VerticalWindow.nsamples_above vertical) + Qnat j)%Q
          vox.

(** The state of the loop after the first [c] cells. *)
Definition cells_done (c : nat) (st : Vds.cursor) : Prop :=
  Vds.pos st = c * vsize /\
  length (Vds.samples st) = nsamples /\
  voxels6 (Vds.samples st) /\
  (forall p, c * vsize <= p < nsamples -> Vds.samples st !! p = Some Vds.zero_voxel) /\
  (forall row col, col < ncols -> row * ncols + col < c ->
     cell_done (Vds.samples st) (Vds.noval_indicies st) row col).

Lemma cell_done_mono (samples samples' : list Vds.voxel) (noval noval' : list nat)
    (row col : nat) (limit : nat) :
  (row * ncols + col + 1) * vsize <= limit ->
  (forall p, p < limit -> samples' !! p = samples !! p) ->
  (forall i, In i noval -> In i noval') ->
  cell_done samples noval row col -> cell_done samples' noval' row col.
Proof.
  intros Hlimit Hsame Hincl. unfold cell_done. cbn zeta.
  destruct (skipped row col).
  - intros [Hin Hz]. split; [apply Hincl; exact Hin |].
    intros j Hj. rewrite Hsame by nia. apply Hz. exact Hj.
  - intros H j Hj. destruct (H j Hj) as (vox & Hv & Hw).
    exists vox. split; [rewrite Hsame by nia; exact Hv | exact Hw].
Qed.

Lemma horizon_cell_step (fuel : nat) (row col : nat) (st st' : Vds.cursor) :
  col < ncols ->
  (row * ncols + col + 1) * vsize <= nsamples ->
  cells_done (row * ncols + col) st ->
  Vds.horizon_cell fuel m surface fillvalue vertical row col st = Some (Ok st') ->
  cells_done (row * ncols + col + 1) st'.
Proof.
  intros Hcol Hroom (Hpos & Hlen & H6 & Hzero & Hprev).
  set (c := row * ncols + col) in *.
  assert (Hskip : skipped row col = true ->
                  cells_done (c + 1) (Vds.skip_cell vertical st)).
  { intros Hsk. unfold cells_done, Vds.skip_cell. cbn [Vds.pos Vds.samples Vds.noval_indicies].
    fold vsize. split; [rewrite Hpos; lia |]. split; [exact Hlen |]. split; [exact H6 |].
    split; [intros p Hp; apply Hzero; lia |].
    intros row' col' Hcol' Hc'.
    destruct (Nat.eq_dec (row' * ncols + col') c) as [Heq | Hne].
    - destruct (cell_index_inj ncols row col row' col' Hcol Hcol' Heq) as [-> ->].
      unfold cell_done. cbn zeta. rewrite Hsk. fold c. split.
      + apply in_or_app. right. left. exact Hpos.
      + intros j Hj. apply Hzero. lia.
    - eapply (cell_done_mono _ _ _ _ _ _ ((row' * ncols + col' + 1) * vsize));
        [lia | reflexivity | | apply Hprev; [exact Hcol' | lia]].
      intros i Hi. apply in_or_app. left. exact Hi. }
  unfold Vds.horizon_cell.
  fold (horizon_ij row col). fold (horizon_k row col).
  destruct (Qeq_bool (Vds.RegularSurface.value surface row col) fillvalue) eqn:Hfill.
  { intros H. injection H as <-. apply Hskip. unfold skipped. now rewrite Hfill. }
  destruct (negb (Vds.inrange (Vds.iline m) _) || negb (Vds.inrange (Vds.xline m) _))
    eqn:Hrange.
  { intros H. injection H as <-. apply Hskip. unfold skipped. rewrite Hfill, Hrange.
    reflexivity. }
  destruct (negb (Vds.inrange (Vds.sample m) _) || negb (Vds.inrange (Vds.sample m) _));
    [discriminate |].
  destruct (Vds.depth_loop _ _ _ _ _ _ _ _) as [[samples' i'] |] eqn:Hloop; [| discriminate].
  intros H. injection H as <-.
  apply (depth_loop_spec m _ _ _ Hdim) in Hloop
    as (n & -> & Hexit & Hiter & Hl & H6' & Hout & Hin); [| exact H6].
  assert (Hn : n = vsize).
  { unfold vsize, Vds.VerticalWindow.size.
    set (a := Vds.VerticalWindow.nsamples_above vertical) in *.
    set (b := Vds.VerticalWindow.nsamples_below vertical) in *.
    fold (Qnat a) in Hexit, Hiter. fold (Qnat b) in Hexit, Hiter.
    assert (Hlt : a + b < n).
    { apply Qnat_lt. rewrite Qnat_plus. lra. }
    destruct n as [| n']; [lia |].
    assert (Hle : n' <= a + b).
    { apply Qnat_le. rewrite Qnat_plus. specialize (Hiter n' ltac:(lia)). lra. }
    lia. }
  subst n. unfold cells_done. cbn [Vds.pos Vds.samples Vds.noval_indicies].
  split; [rewrite Hpos; lia |]. split; [congruence |]. split; [exact H6' |].
  split; [intros p Hp; rewrite Hout by lia; apply Hzero; lia |].
  intros row' col' Hcol' Hc'.
  destruct (Nat.eq_dec (row' * ncols + col') c) as [Heq | Hne].
  - destruct (cell_index_inj ncols row col row' col' Hcol Hcol' Heq) as [-> ->].
    unfold cell_done. cbn zeta. unfold skipped.
    fold (horizon_ij row col). rewrite Hfill, Hrange. cbn [orb].
    intros j Hj. fold c. rewrite <- Hpos.
    destruct (Hin j Hj ltac:(lia)) as (vox & Hv & Hi0 & Hi1 & d' & Hd & Heq').
    exists vox. split; [exact Hv |]. split; [exact Hi0 |]. split; [exact Hi1 |].
    exists d'. split; [exact Hd |]. exact Heq'.
  - eapply (cell_done_mono _ _ _ _ _ _ (Vds.pos st));
      [rewrite Hpos; nia | intros p Hp; apply Hout; lia | intros i Hi; exact Hi
      | apply Hprev; [exact Hcol' | lia]].
Qed.

Lemma horizon_row_step (fuel row : nat) :
  row < nrows ->
  forall (n col0 : nat) (st st' : Vds.cursor),
    col0 + n <= ncols ->
    cells_done (row * ncols + col0) st ->
    Vds.for_each (fun col => Vds.horizon_cell fuel m surface fillvalue vertical row col)
      (seq col0 n) st = Some (Ok st') ->
    cells_done (row * ncols + col0 + n) st'.
Proof.
  intros Hrow. induction n as [| n IH]; intros col0 st st' Hn Hinv; cbn [seq Vds.for_each].
  - intros H. injection H as <-. now rewrite Nat.add_0_r.
  - destruct (Vds.horizon_cell _ _ _ _ _ _ _ _) as [[st1 | e] |] eqn:Hcell;
      try discriminate.
    intros Hrest. apply horizon_cell_step in Hcell; [| lia | | exact Hinv].
    + replace (row * ncols + col0 + S n) with (row * ncols + S col0 + n) by lia.
      apply (IH (S col0) st1 st'); [lia | | exact Hrest].
      replace (row * ncols + S col0) with (row * ncols + col0 + 1) by lia. exact Hcell.
    + unfold nsamples, Vds.RegularSurface.size. fold nrows ncols.
      apply Nat.mul_le_mono_r.
      assert (Hr : (row + 1) * ncols <= nrows * ncols)
        by (apply Nat.mul_le_mono_r; lia).
      lia.
Qed.

Lemma horizon_rows_step (fuel : nat) :
  forall (n row0 : nat) (st st' : Vds.cursor),
    row0 + n <= nrows ->
    cells_done (row0 * ncols) st ->
    Vds.for_each (fun row =>
      Vds.for_each (fun col => Vds.horizon_cell fuel m surface fillvalue vertical row col)
        (seq 0 ncols)) (seq row0 n) st = Some (Ok st') ->
    cells_done ((row0 + n) * ncols) st'.
Proof.
  induction n as [| n IH]; intros row0 st st' Hn Hinv; cbn [seq Vds.for_each].
  - intros H. injection H as <-. now rewrite Nat.add_0_r.
  - destruct (Vds.for_each _ (seq 0 ncols) st) as [[st1 | e] |] eqn:Hrow;
      try discriminate.
    intros Hrest. apply (horizon_row_step fuel row0) in Hrow; [| lia | lia |].
    + replace ((row0 + S n) * ncols) with ((S row0 + n) * ncols) by lia.
      apply (IH (S row0) st1 st'); [lia | | exact Hrest].
      replace (S row0 * ncols) with (row0 * ncols + 0 + ncols) by lia. exact Hrow.
    + now rewrite Nat.add_0_r.
Qed.

Lemma horizon_cells_spec (fuel : nat) (st : Vds.cursor) :
  Vds.horizon_cells fuel m surface fillvalue vertical
    {| Vds.samples := replicate nsamples Vds.zero_voxel;
       Vds.noval_indicies := [];
       Vds.pos := 0 |} = Some (Ok st) ->
  length (Vds.samples st) = nsamples /\
  forall row col, row < nrows -> col < ncols ->
    cell_done (Vds.samples st) (Vds.noval_indicies st) row col.
Proof.
  unfold Vds.horizon_cells. fold ncols nrows. intros H.
  apply (horizon_rows_step fuel nrows 0) in H; [| lia |].
  - destruct H as (_ & Hlen & _ & _ & Hcells). split; [exact Hlen |].
    intros row col Hrow Hcol. apply Hcells; [exact Hcol | cbn; nia].
  - unfold cells_done. cbn [Vds.pos Vds.samples Vds.noval_indicies].
    split; [lia |]. split; [apply length_replicate |].
    split; [apply replicate_voxels6 |]. split.
    + intros p Hp. apply lookup_replicate_2. lia.
    + intros row col _ Hc. cbn in Hc. lia.
Qed.

Lemma for_each_total {S : Type} (body : nat -> S -> option (result S)) :
  (forall i st, exists r, body i st = Some r) ->
  forall indices st, exists r, Vds.for_each body indices st = Some r.
Proof.
  intros Hbody. induction indices as [| i rest IH]; intros st; cbn [Vds.for_each].
  - eexists. reflexivity.
  - destruct (Hbody i st) as [[st' | e] ->]; [apply IH | eexists; reflexivity].
Qed.

Lemma horizon_cells_total (fuel : nat) (st : Vds.cursor) :
  vsize <= fuel ->
  exists r, Vds.horizon_cells fuel m surface fillvalue vertical st = Some r.
Proof.
  intros Hfuel. unfold Vds.horizon_cells.
  apply for_each_total. intros row st1. apply for_each_total. intros col st2.
  unfold Vds.horizon_cell.
  destruct (Qeq_bool _ _); [eexists; reflexivity |].
  destruct (_ || _); [eexists; reflexivity |].
  destruct (_ || _); [eexists; reflexivity |].
  match goal with
  | |- context [Vds.depth_loop fuel m ?a ?b ?top ?bottom ?s ?i] =>
      destruct (depth_loop_total m a b bottom fuel top s i) as [[s' i'] ->]
  end.
  - fold (Qnat (Vds.VerticalWindow.nsamples_above vertical)).
    fold (Qnat (Vds.VerticalWindow.nsamples_below vertical)).
    assert (Hlt : (Qnat (Vds.VerticalWindow.nsamples_above vertical)
                   + Qnat (Vds.VerticalWindow.nsamples_below vertical) < Qnat fuel)%Q).
    { rewrite <- Qnat_plus. apply Qnat_lt.
      unfold vsize, Vds.VerticalWindow.size in Hfuel. lia. }
    lra.
  - eexists. reflexivity.
Qed.

End HorizonCells.

(** C4.  On a cube whose three axes sit on different voxel dimensions:
    the voxel that [fetch_fence] hands to the trace request for a point is
    the transformer output plus 0.5 on the inline and on the crossline
    dimension; the voxels that [fetch_horizon] hands to the sample request
    for a sampled cell carry the transformer output plus 0.5 on the inline
    and crossline dimensions, and on the vertical dimension the transformed
    depth plus 0.5, minus the samples above, plus the index of the sample in
    the window.  [fetch_horizon] finishes once the fuel covers one
    window. *)
Theorem half_voxel_shift (vds : Vds.Storage) (url credentials : string)
    (handle : Vds.DataHandle) :
  vds url credentials = Ok handle ->
  let m := Vds.get_metadata handle in
  distinct_dimensions m ->
  (forall cs coordinates npoints interpolation resp,
     Vds.fetch_fence vds url credentials cs coordinates npoints interpolation = Ok resp ->
     exists coords fs,
       Vds.RequestVolumeTraces handle coords interpolation
         (Axis.dimension (Vds.sample m)) = Some fs /\
       length coords = npoints /\
       forall p, p < npoints ->
         exists vox, coords !! p = Some vox /\
                     shifted_point m cs (point_x coordinates p) (point_y coordinates p) vox) /\
  (forall fuel window surface fillvalue above below interpolation resp,
     Vds.fetch_horizon fuel vds url credentials window surface fillvalue above below
       interpolation = Some (Ok resp) ->
     let vertical := window above below (Axis.stride (Vds.sample m)) in
     exists samples fs,
       Vds.RequestVolumeSamples handle samples interpolation = Some fs /\
       forall row col,
         row < Vds.RegularSurface.nrows surface ->
         col < Vds.RegularSurface.ncols surface ->
         skipped m surface fillvalue row col = false ->
         forall j, j < Vds.VerticalWindow.size vertical ->
           exists vox,
             samples !! ((row * Vds.RegularSurface.ncols surface + col)
                         * Vds.VerticalWindow.size vertical + j) = Some vox /\
             window_voxel m
               (Vds.at3 (horizon_ij m surface row col) 0 + (1 # 2))%Q
               (Vds.at3 (horizon_ij m surface row col) 1 + (1 # 2))%Q
               (Vds.at3 (horizon_k m surface row col) 2 + (1 # 2)
                - Qnat (Vds.VerticalWindow.nsamples_above vertical) + Qnat j)%Q
               vox) /\
  (forall fuel window surface fillvalue above below interpolation,
     Vds.VerticalWindow.size (window above below (Axis.stride (Vds.sample m))) <= fuel ->
     exists r,
       Vds.fetch_horizon fuel vds url credentials window surface fillvalue above below
         interpolation = Some r).
Proof.
  intros Hopen m Hdim. split; [| split].
  - intros cs coordinates npoints interpolation resp.
    unfold Vds.fetch_fence. rewrite Hopen. cbn [bind]. fold m.
    destruct (Vds.fence_loop m cs coordinates npoints 0 _) as [coords | e] eqn:Hloop;
      cbn [bind]; [| discriminate].
    unfold Vds.read_traces. fold m.
    destruct (Vds.RequestVolumeTraces handle coords interpolation _) as [fs |] eqn:Hreq;
      cbn [bind]; [| discriminate].
    intros _. exists coords, fs. split; [exact Hreq |].
    apply (fence_loop_spec m cs coordinates npoints Hdim) in Hloop
      as (Hlen & _ & _ & Hpoints).
    + rewrite length_replicate in Hlen. split; [exact Hlen |].
      intros p Hp. apply Hpoints. lia.
    + apply replicate_voxels6.
    + rewrite length_replicate. lia.
  - intros fuel window surface fillvalue above below interpolation resp.
    unfold Vds.fetch_horizon. rewrite Hopen. fold m.
    set (vertical := window above below (Axis.stride (Vds.sample m))).
    destruct (Vds.horizon_cells fuel m surface fillvalue vertical _)
      as [[st | e] |] eqn:Hcells; try discriminate.
    unfold Vds.read_samples.
    destruct (Vds.RequestVolumeSamples handle (Vds.samples st) interpolation)
      as [fs |] eqn:Hreq; [| discriminate].
    intros _. cbn zeta. exists (Vds.samples st), fs. split; [exact Hreq |].
    apply (horizon_cells_spec m surface fillvalue vertical Hdim) in Hcells as [_ Hdone].
    intros row col Hrow Hcol Hsk j Hj.
    specialize (Hdone row col Hrow Hcol). unfold cell_done in Hdone.
    cbn zeta in Hdone. rewrite Hsk in Hdone. apply Hdone. exact Hj.
  - intros fuel window surface fillvalue above below interpolation Hfuel.
    unfold Vds.fetch_horizon. rewrite Hopen. fold m.
    set (vertical := window above below (Axis.stride (Vds.sample m))) in *.
    destruct (horizon_cells_total m surface fillvalue vertical fuel
                {| Vds.samples :=
                     replicate (Vds.RegularSurface.size surface
                                * Vds.VerticalWindow.size vertical) Vds.zero_voxel;
                   Vds.noval_indicies := [];
                   Vds.pos := 0 |} Hfuel) as [[st | e] ->];
      [| eexists; reflexivity].
    destruct (Vds.read_samples handle _ (Vds.samples st) interpolation);
      eexists; reflexivity.
Qed.

Lemma half_voxel_shift_witness :
  exists coords fs,
    Vds.RequestVolumeTraces WellKnown.handle coords Ctypes.NEAREST 0 = Some fs /\
    length coords = 2 /\
    exists vox,
      coords !! 1 = Some vox /\
      shifted_point WellKnown.metadata Ctypes.CDP 6 7 vox.
Proof.
  destruct (half_voxel_shift WellKnown.storage "url" "sas" WellKnown.handle eq_refl)
    as (Hfence & _ & _).
  { unfold distinct_dimensions. cbn. lia. }
  destruct (Hfence Ctypes.CDP [8; 4; 6; 7]%Q 2 Ctypes.NEAREST
              (Vds.to_response_data
                 (memcpy (replicate 32 Byte0) 0
                    (floats_to_bytes [108; 109; 110; 111; 112; 113; 114; 115]%Q)) 32))
    as (coords & fs & Hreq & Hlen & Hpoints).
  { vm_compute. reflexivity. }
  exists coords, fs. split; [exact Hreq |]. split; [exact Hlen |].
  exact (Hpoints 1 ltac:(lia)).
Defined.

(** ** Fence points outside the cube *)

(** [c] is outside [-0.5, nsamples - 0.5) on [axis]. *)
Definition out_of_range (axis : Axis.t) (c : Q) : Prop :=
  (c < - (1 # 2) \/ Qnat (Axis.nsamples axis) - (1 # 2) <= c)%Q.

Definition outside (axis : Axis.t) (c : Q) : bool :=
  Qlt_bool c (- (1 # 2)) || Qle_bool (Qnat (Axis.nsamples axis) - (1 # 2)) c.

Lemma outside_iff (axis : Axis.t) (c : Q) :
  outside axis c = true <-> out_of_range axis c.
Proof.
  unfold outside, out_of_range. rewrite orb_true_iff, Qlt_bool_iff, Qle_bool_iff.
  reflexivity.
Qed.

(** The first dimension (0: inline, 1: crossline) on which the point (x, y)
    is outside the cube, if any. *)
Definition offending_dimension (m : Vds.MetadataHandle) (cs : Ctypes.coordinate_system)
    (x y : Q) : option nat :=
  let coordinate := Vds.transform_coordinate m cs x y in
  if outside (Vds.iline m) (Vds.at3 coordinate 0) then Some 0
  else if outside (Vds.xline m) (Vds.at3 coordinate 1) then Some 1
  else None.






Section FenceLoop.

Variable m : Vds.MetadataHandle.
Variable cs : Ctypes.coordinate_system.
Variable coordinates : list Q.
Variable trace_len : nat.

Let offending (q : nat) : option nat :=
  offending_dimension m cs (point_x coordinates q) (point_y coordinates q).




End FenceLoop.

(** A fence request as a list of points. *)
Definition pairs (points : list (Q * Q)) : list (list Q) :=
  map (fun xy => [fst xy; snd xy]) points.

Lemma copy_points (show_v : list Q -> string) (points : list (Q * Q)) :
  forall (i : nat) (cc : list Q),
    (i + length points) * 2 <= length cc ->
    exists cc',
      Core.copy_coordinates show_v 2 i (pairs points) cc = Core.Return cc' /\
      length cc' = length cc /\
      (forall q x y, points !! q = Some (x, y) ->
         cc' !! (2 * (i + q)) = Some x /\ cc' !! (2 * (i + q) + 1) = Some y) /\
      (forall k, k < 2 * i -> cc' !! k = cc !! k).
Proof.
  induction points as [| [x y] rest IH]; intros i cc Hlen.
  - exists cc. split; [reflexivity |]. split; [reflexivity |].
    split; [intros q x y H; discriminate H | reflexivity].
  - cbn [pairs map fst snd Core.copy_coordinates length Nat.eqb negb Core.copy_coordinate].
    cbn [length] in Hlen.
    set (cc1 := <[i * 2 + 1 := y]> (<[i * 2 + 0 := x]> cc)).
    assert (Hl1 : length cc1 = length cc) by (subst cc1; now rewrite !length_insert).
    destruct (IH (S i) cc1 ltac:(lia)) as (cc' & Hrun & Hl & Hin & Hout).
    exists cc'. split; [exact Hrun |]. split; [congruence |]. split.
    + intros q x' y' Hq. destruct q as [| q]; cbn in Hq.
      * injection Hq as <- <-. rewrite Nat.add_0_r. rewrite !Hout by lia. subst cc1.
        split.
        -- rewrite list_lookup_insert_ne by lia.
           replace (2 * i) with (i * 2 + 0) by lia.
           apply list_lookup_insert_eq. lia.
        -- replace (2 * i + 1) with (i * 2 + 1) by lia.
           apply list_lookup_insert_eq. rewrite length_insert. lia.
      * replace (i + S q) with (S i + q) by lia. apply Hin. exact Hq.
    + intros k Hk. rewrite Hout by lia. subst cc1.
      rewrite !list_lookup_insert_ne by lia. reflexivity.
Qed.




(** ** Fill cells in the attribute maps *)

Lemma prefix_sums_length (sizes : list nat) (acc : Z) :
  length (Model.prefix_sums acc sizes) = S (length sizes).
Proof.
  revert acc. induction sizes as [| n rest IH]; intros acc; cbn; [reflexivity |].
  now rewrite IH.
Qed.

Lemma prefix_sums_step (sizes : list nat) :
  forall (acc : Z) (k n : nat),
    sizes !! k = Some n ->
    exists o, Model.prefix_sums acc sizes !! k = Some o /\
              Model.prefix_sums acc sizes !! (k + 1) = Some (o + Z.of_nat n)%Z.
Proof.
  induction sizes as [| s rest IH]; intros acc k n Hk; [discriminate Hk |].
  destruct k as [| k]; cbn in Hk.
  - injection Hk as ->. exists acc. cbn. split; [reflexivity |].
    destruct rest; reflexivity.
  - destruct (IH (acc + Z.of_nat s)%Z k n Hk) as (o & H1 & H2).
    exists o. split; [exact H1 | exact H2].
Qed.

(** The cells of a range, and the stores of the attribute pass on it. *)
Definition range_stores (eng : Model.Engine) (horizon : list memval) (hsize : nat)
    (offsets : list Z) (fillvalue : Q) (p t b : Capi.RegularSurface) (stepsize : Q)
    (ids : list Ctypes.attribute) (r : nat * nat) : list store :=
  flat_map (Model.cell_stores eng horizon hsize offsets fillvalue p t b stepsize ids)
    (seq (fst r) (snd r - fst r)).

Lemma apply_stores_app (buf : list memval) (ws1 ws2 : list store) :
  apply_stores buf (ws1 ++ ws2) = apply_stores (apply_stores buf ws1) ws2.
Proof. unfold apply_stores. apply foldl_app. Qed.

(** A store of one float at cell [idx]. *)
Definition cell_store (idx : nat) (v : Q) : store := (idx * 4, encode_f32 v).

Lemma cell_store_holds (buf : list memval) (idx : nat) (v : Q) :
  idx * 4 + 4 <= length buf ->
  holds (memcpy buf (idx * 4) (encode_f32 v)) idx v.
Proof.
  intros Hlen k Hk. unfold memcpy. rewrite list_lookup_inserts by (cbn; lia).
  replace (idx * 4 + k - idx * 4) with k by lia.
  do 4 (destruct k as [| k]; [reflexivity |]). lia.
Qed.

Lemma cell_store_keeps (buf : list memval) (idx t : nat) (v val : Q) :
  idx <> t -> holds buf t val -> holds (memcpy buf (idx * 4) (encode_f32 v)) t val.
Proof.
  intros Hne H k Hk. rewrite memcpy_outside; [apply H; exact Hk |]. cbn. lia.
Qed.

(** Stores of floats: every store to cell [t] carries [val]. *)
Definition stores_agree (ws : list store) (t : nat) (val : Q) : Prop :=
  Forall (fun w => exists idx v, w = cell_store idx v /\ (idx = t -> v = val)) ws.

Lemma apply_stores_keeps (ws : list store) (t : nat) (val : Q) :
  stores_agree ws t val ->
  forall buf, holds buf t val -> holds (apply_stores buf ws) t val.
Proof.
  induction 1 as [| w ws (idx & v & -> & Hv) _ IH]; intros buf H; [exact H |].
  unfold apply_stores. cbn [foldl fst snd cell_store]. apply IH.
  assert (Hlen : t * 4 + 4 <= length buf).
  { specialize (H 3 ltac:(lia)). apply lookup_lt_Some in H. lia. }
  destruct (Nat.eq_dec idx t) as [-> | Hne].
  - rewrite (Hv eq_refl). apply cell_store_holds. exact Hlen.
  - apply cell_store_keeps; assumption.
Qed.

Lemma apply_stores_sets (ws : list store) (t : nat) (val : Q) :
  stores_agree ws t val ->
  (exists v, In (cell_store t v) ws) ->
  forall buf, t * 4 + 4 <= length buf -> holds (apply_stores buf ws) t val.
Proof.
  induction 1 as [| w ws (idx & v & -> & Hv) Hrest IH]; intros [v0 Hin] buf Hlen;
    [destruct Hin |].
  unfold apply_stores. cbn [foldl fst snd cell_store].
  destruct (Nat.eq_dec idx t) as [-> | Hne].
  - apply (apply_stores_keeps ws t val Hrest).
    rewrite (Hv eq_refl). apply cell_store_holds. exact Hlen.
  - destruct Hin as [Heq | Hin].
    + unfold cell_store in Heq. injection Heq as Heq _. lia.
    + apply IH; [exists v0; exact Hin |]. rewrite memcpy_length. exact Hlen.
Qed.

Lemma attribute_ranges_sound (w fuel : nat) :
  1 <= w ->
  forall from remaining ranges,
    Core.attribute_ranges fuel w from remaining = Some ranges ->
    chain from ranges (from + remaining).
Proof.
  intros Hw. induction fuel as [| fuel IH]; intros from remaining ranges;
    cbn [Core.attribute_ranges]; destruct (Nat.ltb_spec 0 remaining) as [Hpos | Hzero];
    try discriminate;
    try (intros H; injection H as <-; cbn; lia).
  set (size := Core.min w remaining).
  assert (Hsize : 1 <= size /\ size <= remaining).
  { subst size. unfold Core.min. destruct (Nat.ltb_spec w remaining); lia. }
  destruct (Core.attribute_ranges fuel w (from + size) (remaining - size))
    as [rest |] eqn:Hrest; [| discriminate].
  intros H. injection H as <-. apply IH in Hrest.
  cbn [chain]. repeat split; [lia |].
  replace (from + remaining) with (from + size + (remaining - size)) by lia.
  exact Hrest.
Qed.

Lemma entry_ok {A} (ctx : Capi.Context) (out0 : A) (body : result A) :
  Core.Error (Capi.entry ctx out0 body) = None ->
  exists a, body = Ok a /\ Capi.out (Capi.entry ctx out0 body) = a.
Proof.
  destruct body as [a | e].
  - intros _. exists a. split; reflexivity.
  - destruct e; cbn; discriminate.
Qed.

Lemma spawn_prefix (w : Core.goroutine) (ranges : list (nat * nat)) :
  forall buffer sent,
    exists tail, snd (Core.spawn w ranges buffer sent) = sent ++ tail.
Proof.
  induction ranges as [| [from to] rest IH]; intros buffer sent; cbn [Core.spawn].
  - exists []. cbn. now rewrite app_nil_r.
  - destruct (IH (Capi.out (w from to buffer)) (sent ++ [Core.Error (w from to buffer)]))
      as [tail ->].
    exists (Core.Error (w from to buffer) :: tail). now rewrite <- app_assoc.
Qed.

(** When no goroutine sent an error, the shared buffer is the initial one
    with the stores of every goroutine applied in turn. *)
Lemma spawn_stores (w : Core.goroutine) (stores : nat * nat -> list store)
    (ranges : list (nat * nat)) :
  (forall from to b,
     In (from, to) ranges -> Core.Error (w from to b) = None ->
     Capi.out (w from to b) = apply_stores b (stores (from, to))) ->
  forall buffer sent buffer' sent',
    Core.spawn w ranges buffer sent = (buffer', sent') ->
    Forall (eq None) sent' ->
    buffer' = apply_stores buffer (flat_map stores ranges).
Proof.
  induction ranges as [| [from to] rest IH]; intros Hw buffer sent buffer' sent';
    cbn [Core.spawn].
  - intros H _. now injection H as <- _.
  - intros H Hall.
    assert (Hok : Core.Error (w from to buffer) = None).
    { destruct (spawn_prefix w rest (Capi.out (w from to buffer))
                  (sent ++ [Core.Error (w from to buffer)])) as [tail Ht].
      rewrite H in Ht. cbn [snd] in Ht. subst sent'.
      rewrite <- app_assoc in Hall. apply Forall_app in Hall as [_ Hall].
      inversion Hall as [| x l Hx _]. now symmetry. }
    cbn [flat_map]. rewrite apply_stores_app, <- (Hw from to buffer (or_introl eq_refl) Hok).
    apply (IH (fun f t b Hin => Hw f t b (or_intror Hin)) _ _ _ _ H Hall).
Qed.

Section AttributePass.

Variable eng : Model.Engine.
Variable v : Core.VDSHandle.
Variable h : Vds.DataHandle.
Hypothesis Hapi : Core.api v = Model.cppapi eng.
Hypothesis Hhandle : Core.handle v = Some h.

Variables p t b : Capi.RegularSurface.
Variable dataOffset : list Z.
Variable horizon : list memval.
Variable horizonSize : nat.
Variable ids : list Ctypes.attribute.
Variable stepsize : Q.

(** [sample.stepsize()] when the request leaves the step size at 0. *)
Definition effective_stepsize : Q :=
  if Qeq_bool stepsize 0 then Axis.stride (Vds.sample (Vds.get_metadata h))
  else stepsize.

Lemma attribute_worker_stores (from to : nat) (buf : list memval) :
  Core.Error
    (attribute_worker v p t b dataOffset horizon horizonSize ids stepsize from to buf)
  = None ->
  Capi.out
    (attribute_worker v p t b dataOffset horizon horizonSize ids stepsize from to buf)
  = apply_stores buf
      (range_stores eng horizon (Capi.surface_size p) dataOffset (Capi.fillvalue p)
         p t b effective_stepsize ids (from, to)).
Proof.
  unfold attribute_worker, Capi.attribute. intros H.
  apply entry_ok in H as (a & Hbody & ->).
  rewrite Hhandle, Hapi in Hbody. cbn [Capi.require_handle bind] in Hbody.
  destruct (to <=? from); [discriminate |].
  cbn in Hbody. rewrite firstn_all in Hbody. injection Hbody as <-. reflexivity.
Qed.

End AttributePass.

Lemma cell_stores_In (eng : Model.Engine) (horizon : list memval) (hsize : nat)
    (offsets : list Z) (fillvalue : Q) (p t b : Capi.RegularSurface) (stepsize : Q)
    (ids : list Ctypes.attribute) (k : nat) (w : store) :
  In w (Model.cell_stores eng horizon hsize offsets fillvalue p t b stepsize ids k) <->
  exists i a,
    ids !! i = Some a /\
    w = cell_store (i * hsize + k)
          (Model.attribute_value eng horizon offsets fillvalue p t b stepsize a k).
Proof.
  unfold Model.cell_stores. rewrite <- list_elem_of_In, elem_of_lookup_imap.
  assert (Hidx : forall i, Capi.mapsize hsize * i + k * sizeof_float = (i * hsize + k) * 4).
  { intros i. unfold Capi.mapsize, sizeof_float. lia. }
  split; intros (i & a & H1 & H2); exists i, a.
  - split; [exact H2 |]. rewrite H1, Hidx. reflexivity.
  - split; [| exact H1]. rewrite H2, Hidx. reflexivity.
Qed.

Lemma pass_stores_In (eng : Model.Engine) (horizon : list memval) (hsize : nat)
    (offsets : list Z) (fillvalue : Q) (p t b : Capi.RegularSurface) (stepsize : Q)
    (ids : list Ctypes.attribute) (ranges : list (nat * nat)) (w : store) :
  chain 0 ranges hsize ->
  In w (flat_map (range_stores eng horizon hsize offsets fillvalue p t b stepsize ids)
          ranges) <->
  exists k i a,
    k < hsize /\ ids !! i = Some a /\
    w = cell_store (i * hsize + k)
          (Model.attribute_value eng horizon offsets fillvalue p t b stepsize a k).
Proof.
  intros Hchain. rewrite in_flat_map. unfold range_stores. split.
  - intros ([from to] & Hr & Hw). cbn [fst snd] in Hw.
    apply in_flat_map in Hw as (k & Hk & Hw). apply in_seq in Hk.
    apply cell_stores_In in Hw as (i & a & Hi & ->).
    exists k, i, a. split; [| split; [exact Hi | reflexivity]].
    assert (0 <= k < hsize); [| lia].
    apply (chain_cover ranges 0 hsize k Hchain). exists from, to. split; [exact Hr | lia].
  - intros (k & i & a & Hk & Hi & ->).
    destruct (proj1 (chain_cover ranges 0 hsize k Hchain)) as (from & to & Hr & Hb);
      [lia |].
    exists (from, to). split; [exact Hr |]. cbn [fst snd].
    apply in_flat_map. exists k. split; [apply in_seq; lia |].
    apply cell_stores_In. exists i, a. split; [exact Hi | reflexivity].
Qed.

(** The attribute pass leaves the fill value in every map at a cell without
    samples. *)
Lemma pass_fill (eng : Model.Engine) (horizon : list memval) (hsize : nat)
    (offsets : list Z) (fillvalue : Q) (p t b : Capi.RegularSurface) (stepsize : Q)
    (ids : list Ctypes.attribute) (ranges : list (nat * nat))
    (buf : list memval) (k i : nat) :
  chain 0 ranges hsize ->
  k < hsize -> i < length ids ->
  Model.cell_len offsets k = 0%Z ->
  length buf = hsize * 4 * length ids ->
  holds
    (apply_stores buf
       (flat_map (range_stores eng horizon hsize offsets fillvalue p t b stepsize ids)
          ranges))
    (i * hsize + k) fillvalue.
Proof.
  intros Hchain Hk Hi Hlen Hbuf.
  destruct (lookup_lt_is_Some_2 ids i Hi) as [a Ha].
  apply apply_stores_sets.
  - apply List.Forall_forall. intros w Hw.
    apply (pass_stores_In _ _ _ _ _ _ _ _ _ _ _ _ Hchain) in Hw
      as (k' & i' & a' & Hk' & Hi' & ->).
    eexists _, _. split; [reflexivity |]. intros Heq.
    apply cell_index_inj in Heq as [_ ->]; [| assumption ..].
    unfold Model.attribute_value. rewrite Hlen. reflexivity.
  - eexists. apply (pass_stores_In _ _ _ _ _ _ _ _ _ _ _ _ Hchain).
    exists k, i, a. split; [exact Hk | split; [exact Ha | reflexivity]].
  - rewrite Hbuf. nia.
Qed.

Lemma holds_slice (buffer : list memval) (hsize i k : nat) (val : Q) :
  k < hsize ->
  holds buffer (i * hsize + k) val ->
  holds (Core.slice_bytes buffer (i * (hsize * 4)) ((i + 1) * (hsize * 4))) k val.
Proof.
  intros Hk H j Hj. unfold Core.slice_bytes.
  rewrite lookup_take_lt by nia. rewrite lookup_drop, <- (H j Hj).
  f_equal. lia.
Qed.

Lemma calculateAttributes_fill (eng : Model.Engine) (sched : Core.arrival) (fuel : nat)
    (v : Core.VDSHandle) (h : Vds.DataHandle) (p t b : Capi.RegularSurface)
    (hsize : nat) (dataOffset : list Z) (horizon : list memval) (horizonSize : nat)
    (ids : list Ctypes.attribute) (stepsize : Q) (out : list (list memval)) (k i : nat) :
  (forall l, Permutation l (sched l)) ->
  Core.api v = Model.cppapi eng ->
  Core.handle v = Some h ->
  Capi.surface_size p = hsize ->
  Core.calculateAttributes sched fuel v p t b hsize dataOffset horizon horizonSize ids
    stepsize = Some (Core.Return out) ->
  k < hsize -> i < length ids ->
  Model.cell_len dataOffset k = 0%Z ->
  exists map_i, out !! i = Some map_i /\ load_f32 map_i k = Some (Capi.fillvalue p).
Proof.
  intros Hperm Hapi Hhandle Hsize H Hk Hi Hlen.
  destruct (calculateAttributes_inv _ _ _ _ _ _ _ _ _ _ _ _ _ H)
    as [Hp | (ranges & buffer & sent & errs & rest & Hranges & Hspawn & Hcollect & Hjoin)];
    [discriminate |].
  assert (Hsent : length sent = length ranges).
  { pose proof (spawn_sent (attribute_worker v p t b dataOffset horizon horizonSize ids
                              stepsize) ranges
                  (replicate (hsize * 4 * length ids) Byte0) []) as Hs.
    rewrite Hspawn in Hs. exact Hs. }
  destruct (pool_join sched sent (length ranges)
              (map (fun i => Core.slice_bytes buffer (i * (hsize * 4))
                               ((i + 1) * (hsize * 4)))
                   (seq 0 (length ids))) Hperm Hsent) as (Hc & _ & Hret).
  rewrite Hc in Hcollect. injection Hcollect as <- _.
  symmetry in Hjoin. apply Hret in Hjoin as [-> Hnone].
  assert (Hchain : chain 0 ranges hsize).
  { apply (attribute_ranges_sound (Core.windowsPerRoutine hsize 32) fuel) in Hranges;
      [exact Hranges |].
    pose proof (windowsPerRoutine_bound hsize). lia. }
  pose proof (spawn_stores _
                (range_stores eng horizon hsize dataOffset (Capi.fillvalue p) p t b
                   (effective_stepsize h stepsize) ids)
                ranges
                (fun from to buf _ =>
                   eq_ind _ (fun n => _ -> _ = apply_stores buf
                                              (range_stores eng horizon n _ _ _ _ _ _ _ _))
                     (attribute_worker_stores eng v h Hapi Hhandle p t b dataOffset horizon
                        horizonSize ids stepsize from to buf) _ Hsize)
                _ _ _ _ Hspawn Hnone) as Hbuf.
  eexists. split.
  - rewrite list_lookup_fmap, lookup_seq_lt by exact Hi. reflexivity.
  - apply holds_load, holds_slice; [exact Hk |]. rewrite Hbuf.
    apply pass_fill; try assumption. apply length_replicate.
Qed.

(** The offsets that the entry point hands back for the model engine. *)
Lemma model_offsets (eng : Model.Engine) (ctx : Capi.Context) (h : Vds.DataHandle)
    (p t b : Capi.RegularSurface) (hsize : nat) :
  Capi.surface_size p = hsize ->
  let o :=
    Capi.horizon_buffer_offsets (Model.cppapi eng) ctx (Some h) p t b
      (replicate (hsize + 1) 0%Z) (hsize + 1) in
  Core.Error o = None /\
  forall k, k < hsize ->
    Model.cell_len (Capi.out o) k = Z.of_nat (Model.cell_nsamples eng h p t b k).
Proof.
  intros Hsize. cbn zeta. unfold Capi.horizon_buffer_offsets.
  cbn [Capi.require_handle bind Model.cppapi Capi.cppapi_horizon_buffer_offsets
       Model.horizon_buffer_offsets Capi.entry Capi.out]. rewrite Hsize.
  set (sizes := map (Model.cell_nsamples eng h p t b) (seq 0 hsize)).
  assert (Hl : length (Model.prefix_sums 0 sizes) = hsize + 1).
  { rewrite prefix_sums_length. subst sizes. rewrite length_map, length_seq. lia. }
  rewrite firstn_all2 by lia.
  assert (Hall : list_inserts 0 (Model.prefix_sums 0 sizes) (replicate (hsize + 1) 0%Z)
                 = Model.prefix_sums 0 sizes).
  { apply list_eq. intros i. destruct (Nat.lt_ge_cases i (hsize + 1)) as [Hi | Hi].
    - rewrite list_lookup_inserts by (rewrite ?length_replicate; lia).
      now rewrite Nat.sub_0_r.
    - rewrite !(proj2 (lookup_ge_None _ _)); [reflexivity | lia |].
      rewrite length_inserts, length_replicate. lia. }
  rewrite Hall. split; [reflexivity |].
  intros k Hk.
  destruct (prefix_sums_step sizes 0%Z k (Model.cell_nsamples eng h p t b k))
    as (o & H1 & H2).
  { subst sizes. rewrite list_lookup_fmap, lookup_seq_lt by exact Hk. reflexivity. }
  unfold Model.cell_len, Model.offset_at. rewrite H1, H2. cbn. lia.
Qed.

(** The offsets table of a request, as the Go side receives it. *)
Definition request_offsets (v : Core.VDSHandle) (p t b : Capi.RegularSurface)
    (hsize : nat) : list Z :=
  Capi.out
    (Capi.horizon_buffer_offsets (Core.api v) (Core.ctx v) (Core.handle v) p t b
       (replicate (hsize + 1) 0%Z) (hsize + 1)).

(** What a request leaves for a cell without samples. *)
Definition fill_cell (eng : Model.Engine) (v : Core.VDSHandle) (h : Vds.DataHandle)
    (p t b : Capi.RegularSurface) (hsize : nat) (nattributes : nat)
    (out : list (list memval)) (k : nat) : Prop :=
  Model.cell_len (request_offsets v p t b hsize) k = 0%Z /\
  Model.chunk_voxels eng h p t b (request_offsets v p t b hsize) [k] = Ok [] /\
  forall i, i < nattributes ->
    exists map_i, out !! i = Some map_i /\ load_f32 map_i k = Some (Capi.fillvalue p).

Lemma surface_attributes_fill (eng : Model.Engine) (schedH schedA : Core.arrival)
    (fuel : nat) (v : Core.VDSHandle) (h : Vds.DataHandle)
    (p t b : Capi.RegularSurface) (nrows ncols : nat) (ids : list Ctypes.attribute)
    (stepsize : Q) (interpolation : Ctypes.interpolation_method)
    (out : list (list memval)) (k : nat) :
  (forall l, Permutation l (schedA l)) ->
  Core.api v = Model.cppapi eng ->
  Core.handle v = Some h ->
  Capi.surface_size p = nrows * ncols ->
  Model.surface_attributes schedH schedA fuel v p t b nrows ncols ids stepsize
    interpolation = Some (Core.Return out) ->
  k < nrows * ncols ->
  Model.populated eng h p t b k = false ->
  fill_cell eng v h p t b (nrows * ncols) (length ids) out k.
Proof.
  intros Hperm Hapi Hhandle Hsize H Hk Hpop.
  unfold Model.surface_attributes in H. fold (request_offsets v p t b (nrows * ncols)) in H.
  assert (Hlen : Model.cell_len (request_offsets v p t b (nrows * ncols)) k = 0%Z).
  { unfold request_offsets. rewrite Hapi, Hhandle.
    destruct (model_offsets eng (Core.ctx v) h p t b (nrows * ncols) Hsize) as [_ Hcells].
    rewrite (Hcells k Hk). unfold Model.cell_nsamples. rewrite Hpop. reflexivity. }
  split; [exact Hlen |]. split.
  { cbn [Model.chunk_voxels]. rewrite Hlen. reflexivity. }
  intros i Hi.
  destruct (Core.Error _); [discriminate |].
  destruct (request_offsets v p t b (nrows * ncols) !! (nrows * ncols)) as [total |];
    [| discriminate].
  destruct (Core.fetchHorizon _ _ _ _ _ _ _ _ _ _ _) as [[horizon | e |] |];
    try discriminate.
  exact (calculateAttributes_fill eng schedA fuel v h p t b (nrows * ncols) _ horizon _
           ids stepsize out k i Hperm Hapi Hhandle Hsize H Hk Hi Hlen).
Qed.

(** What [fetch_horizon] leaves for the cells that hold the fill value:
    their places in the sample request stay the all-zero voxel, and their
    floats in the response are the fill value. *)
Definition fill_cells_kept (handle : Vds.DataHandle) (vertical : Vds.VerticalWindow.t)
    (surface : Vds.RegularSurface.t) (fillvalue : Q)
    (interpolation : Ctypes.interpolation_method) (resp : Vds.response) : Prop :=
  let vsize := Vds.VerticalWindow.size vertical in
  let ncols := Vds.RegularSurface.ncols surface in
  exists samples fs bytes,
    Vds.RequestVolumeSamples handle samples interpolation = Some fs /\
    Vds.data resp = Some bytes /\
    forall row col,
      row < Vds.RegularSurface.nrows surface -> col < ncols ->
      Qeq_bool (Vds.RegularSurface.value surface row col) fillvalue = true ->
      forall j, j < vsize ->
        samples !! ((row * ncols + col) * vsize + j) = Some Vds.zero_voxel /\
        load_f32 bytes ((row * ncols + col) * vsize + j) = Some fillvalue.

Lemma fetch_horizon_fill (fuel : nat) (vds : Vds.Storage) (url credentials : string)
    (handle : Vds.DataHandle) (window : Q -> Q -> Q -> Vds.VerticalWindow.t)
    (surface : Vds.RegularSurface.t) (fillvalue above below : Q)
    (interpolation : Ctypes.interpolation_method) (resp : Vds.response) :
  vds url credentials = Ok handle ->
  let m := Vds.get_metadata handle in
  let vertical := window above below (Axis.stride (Vds.sample m)) in
  let nsamples := Vds.RegularSurface.size surface * Vds.VerticalWindow.size vertical in
  distinct_dimensions m ->
  nsamples * 4 <= Vds.GetVolumeSamplesBufferSize handle nsamples ->
  Vds.fetch_horizon fuel vds url credentials window surface fillvalue above below
    interpolation = Some (Ok resp) ->
  fill_cells_kept handle vertical surface fillvalue interpolation resp.
Proof.
  intros Hopen m vertical nsamples Hdim Hsize.
  unfold Vds.fetch_horizon. rewrite Hopen. fold m vertical nsamples.
  destruct (Vds.horizon_cells fuel m surface fillvalue vertical _)
    as [[st | e] |] eqn:Hcells; try discriminate.
  unfold Vds.read_samples, Vds.samples_buffer_size.
  destruct (Vds.RequestVolumeSamples handle (Vds.samples st) interpolation)
    as [fs |] eqn:Hreq; [| discriminate].
  intros H. injection H as <-.
  exists (Vds.samples st), fs. eexists. split; [exact Hreq |].
  split; [reflexivity |].
  apply (horizon_cells_spec m surface fillvalue vertical Hdim) in Hcells as [_ Hdone].
  intros row col Hrow Hcol Hfill j Hj.
  specialize (Hdone row col Hrow Hcol). unfold cell_done, skipped in Hdone.
  cbn zeta in Hdone. rewrite Hfill in Hdone. cbn [orb] in Hdone.
  destruct Hdone as [Hin Hzero]. split; [apply Hzero; exact Hj |].
  apply holds_load. apply write_fillvalue_fills; [exact Hin | exact Hj |].
  rewrite memcpy_length, length_replicate.
  assert ((row * Vds.RegularSurface.ncols surface + col + 1)
          * Vds.VerticalWindow.size vertical <= nsamples).
  { unfold nsamples, Vds.RegularSurface.size. apply Nat.mul_le_mono_r. nia. }
  lia.
Qed.

(** The C surface that [toCRegularSurface] builds over the data [cdata]. *)
Definition built (surface : Core.RegularSurface) (cdata : list Q)
    (c : Capi.RegularSurface) : Prop :=
  Capi.surface_data c = cdata /\ Core.toCRegularSurface surface cdata = Core.Return c.

Lemma built_spec (surface : Core.RegularSurface) (cdata : list Q)
    (c : Capi.RegularSurface) (row0 : list Q) :
  Core.toCRegularSurface surface cdata = Core.Return c ->
  head (Core.Values surface) = Some row0 ->
  built surface cdata c /\
  Capi.surface_size c = length (Core.Values surface) * length row0 /\
  Capi.fillvalue c = Core.FillValue surface.
Proof.
  intros H Hhead. pose proof H as Hc.
  apply toCRegularSurface_spec in H as (r0 & rest & HV & Hd & Hn & Hm & Hf).
  rewrite HV in Hhead. injection Hhead as ->.
  split; [split; [exact Hd | exact Hc] |].
  split; [unfold Capi.surface_size; rewrite Hn, Hm; reflexivity | exact Hf].
Qed.

(** Where a cell of the surface sits in the C data, and what it holds for a
    fill cell. *)
Lemma toCdata_fill_cell (surface : Core.RegularSurface) (shift : Q) (cdata : list Q)
    (i j : nat) (row : list Q) (val : Q) :
  Core.toCdata surface shift = Core.Return cdata ->
  Core.Values surface !! i = Some row -> row !! j = Some val ->
  exists row0,
    head (Core.Values surface) = Some row0 /\
    length row = length row0 /\
    length cdata = length (Core.Values surface) * length row /\
    i * length row + j < length (Core.Values surface) * length row /\
    cdata !! (i * length row + j) = Some (shifted (Core.FillValue surface) shift val).
Proof.
  intros H Hi Hj.
  apply toCdata_spec in H as (row0 & rest & HV & Hall & Hlen & Hcells).
  assert (Hrow : length row = length row0).
  { rewrite List.Forall_forall in Hall. apply Hall.
    apply list_elem_of_In. eapply list_elem_of_lookup_2. exact Hi. }
  exists row0. rewrite HV at 1. split; [reflexivity |]. split; [exact Hrow |].
  rewrite Hrow. split; [exact Hlen |]. split.
  - apply lookup_lt_Some in Hi, Hj. nia.
  - exact (Hcells i row j val Hi Hj).
Qed.

Lemma is_fill_at (c : Capi.RegularSurface) (k : nat) (x : Q) :
  Capi.surface_data c !! k = Some x ->
  Qeq_bool x (Capi.fillvalue c) = true ->
  Model.is_fill c k = true.
Proof.
  intros Hk Hx. unfold Model.is_fill, Model.cell_value. rewrite Hk. exact Hx.
Qed.

Lemma unpopulated (eng : Model.Engine) (h : Vds.DataHandle)
    (p t b : Capi.RegularSurface) (k : nat) :
  Model.is_fill p k = true \/ Model.is_fill t k = true ->
  Model.populated eng h p t b k = false.
Proof.
  unfold Model.populated. intros [-> | ->]; [reflexivity |].
  destruct (Model.is_fill p k); reflexivity.
Qed.

(** C1.  With the engine of the specification behind the C entry points
    and every value sent by an attribute worker received: a cell (i, j) of
    the primary surface that equals its fill value has no samples in the
    offsets table, the horizon pass requests no cube sample for it, and
    every attribute map of a successful along-surface request holds the
    fill value at the cell; the same for a successful between-surfaces
    request, also at a cell where the aligned secondary surface holds its
    fill value.  In [fetch_horizon] of [vds.cpp] the places of such a cell
    in the sample request stay the all-zero voxel and its floats in the
    response are the fill value. *)
Theorem fill_cells_stay_fill (eng : Model.Engine) (schedH schedA : Core.arrival)
    (v : Core.VDSHandle) (h : Vds.DataHandle) (primary : Core.RegularSurface)
    (stepsize : Q) (attributes : list string)
    (interpolation : Ctypes.interpolation_method) :
  (forall l, Permutation l (schedA l)) ->
  Core.api v = Model.cppapi eng ->
  Core.handle v = Some h ->
  let fill := Core.FillValue primary in
  let nrows := length (Core.Values primary) in
  (forall fuel above below out i row j val,
     Core.GetAttributes schedH schedA fuel v primary above below stepsize attributes
       interpolation = Some (Core.Return out) ->
     Core.Values primary !! i = Some row -> row !! j = Some val ->
     Qeq_bool val fill = true ->
     exists pd td bd p t b,
       Core.toCdata primary 0 = Core.Return pd /\
       Core.toCdata primary (- above) = Core.Return td /\
       Core.toCdata primary below = Core.Return bd /\
       built primary pd p /\ built primary td t /\ built primary bd b /\
       Capi.fillvalue p = fill /\
       fill_cell eng v h p t b (nrows * length row) (length attributes) out
         (i * length row + j)) /\
  (forall fuel secondary out pd sd p s i row j val,
     Model.GetAttributesBetweenSurfaces eng schedH schedA fuel v primary secondary
       stepsize attributes interpolation = Some (Core.Return out) ->
     Core.toCdata primary 0 = Core.Return pd -> built primary pd p ->
     Core.toCdata secondary 0 = Core.Return sd -> built secondary sd s ->
     Core.Values primary !! i = Some row -> row !! j = Some val ->
     let k := i * length row + j in
     Qeq_bool val fill = true \/
     (exists y, Model.align eng p s !! k = Some y /\
                Qeq_bool y (Core.FillValue secondary) = true) ->
     let cells :=
       zip_with (Model.between_cell fill (Core.FillValue secondary)) pd
         (Model.align eng p s) in
     exists t b,
       built primary (map fst cells) t /\ built primary (map snd cells) b /\
       Capi.fillvalue p = fill /\
       fill_cell eng v h p t b (nrows * length row) (length attributes) out k) /\
  (forall fuel vds url credentials handle window surface fillvalue above below resp,
     vds url credentials = Ok handle ->
     let m := Vds.get_metadata handle in
     let vertical := window above below (Axis.stride (Vds.sample m)) in
     let nsamples := Vds.RegularSurface.size surface * Vds.VerticalWindow.size vertical in
     distinct_dimensions m ->
     nsamples * 4 <= Vds.GetVolumeSamplesBufferSize handle nsamples ->
     Vds.fetch_horizon fuel vds url credentials window surface fillvalue above below
       interpolation = Some (Ok resp) ->
     fill_cells_kept handle vertical surface fillvalue interpolation resp).
Proof.
  intros Hperm Hapi Hhandle fill nrows. split; [| split].
  - intros fuel above below out i row j val H Hi Hj Hfill.
    destruct (GetAttributes_inv _ _ _ _ _ _ _ _ _ _ _ H)
      as [ids row0 p t b Hids _ Hrow0 Hpd Htd Hbd Hp Ht Hb Htail].
    destruct (toCdata_fill_cell _ _ _ i j row val Hpd Hi Hj)
      as (row0' & Hhead & Hrow & _ & Hk & Hcell).
    rewrite Hrow0 in Hhead. injection Hhead as <-.
    destruct (built_spec _ _ _ row0 Hp Hrow0) as (Bp & Hsize & Hfp).
    destruct (built_spec _ _ _ row0 Ht Hrow0) as (Bt & _ & _).
    destruct (built_spec _ _ _ row0 Hb Hrow0) as (Bb & _ & _).
    exists (Capi.surface_data p), (Capi.surface_data t), (Capi.surface_data b), p, t, b.
    repeat (split; [assumption |]).
    apply targetAttributes_spec in Hids as (Hn & _). cbn [length Nat.add] in Hn.
    rewrite <- Hn, Hrow. rewrite <- Hrow in Hsize, Htail.
    rewrite Hrow in Hsize, Htail, Hk.
    apply (surface_attributes_fill eng schedH schedA fuel v h p t b nrows (length row0)
             ids stepsize interpolation out _ Hperm Hapi Hhandle Hsize Htail Hk).
    apply unpopulated. left. apply (is_fill_at p _ val).
    + rewrite <- Hrow, Hcell. unfold shifted. fold fill. rewrite Hfill. reflexivity.
    + rewrite Hfp. exact Hfill.
  - intros fuel secondary out pd sd p s i row j val H Hpd [Hpdata Hp] Hsd [Hsdata Hs]
      Hi Hj k Hfill cells. subst k.
    unfold Model.GetAttributesBetweenSurfaces in H.
    apply go_bind_Return in H as (ids & Hids & H).
    destruct (toCdata_fill_cell _ _ _ i j row val Hpd Hi Hj)
      as (row0 & Hhead & Hrow & Hlen & Hk & Hcell).
    destruct (Core.Values primary) as [| r0 rest] eqn:HV; [discriminate |].
    injection Hhead as ->.
    rewrite Hpd in H. cbn [Core.go_bind] in H. rewrite Hp in H. cbn [Core.go_bind] in H.
    rewrite Hsd in H. cbn [Core.go_bind] in H. rewrite Hs in H. cbn [Core.go_bind] in H.
    fold fill cells in H.
    apply go_bind_Return in H as (t & Ht & H).
    apply go_bind_Return in H as (b & Hb & H).
    assert (Hrow0 : head (Core.Values primary) = Some row0) by (rewrite HV; reflexivity).
    destruct (built_spec _ _ _ row0 Hp Hrow0) as (_ & Hsize & Hfp).
    destruct (built_spec _ _ _ row0 Ht Hrow0) as (Bt & _ & Hft).
    destruct (built_spec _ _ _ row0 Hb Hrow0) as (Bb & _ & _).
    exists t, b. repeat (split; [assumption |]).
    apply targetAttributes_spec in Hids as (Hn & _). cbn [length Nat.add] in Hn.
    rewrite <- Hn. subst nrows. rewrite HV in *. rewrite Hrow in *.
    apply (surface_attributes_fill eng schedH schedA fuel v h p t b _ (length row0)
             ids stepsize interpolation out _ Hperm Hapi Hhandle Hsize H Hk).
    apply unpopulated. destruct Hfill as [Hfill | (y & Hy & Hfill)].
    + left. apply (is_fill_at p _ val).
      * rewrite Hpdata, Hcell. unfold shifted. fold fill. rewrite Hfill. reflexivity.
      * rewrite Hfp. exact Hfill.
    + right. apply (is_fill_at t _ fill).
      * destruct Bt as [-> _]. subst cells. rewrite list_lookup_fmap, lookup_zip_with.
        rewrite Hcell, Hy. cbn.
        unfold Model.between_cell. rewrite Hfill, orb_true_r. reflexivity.
      * rewrite Hft. apply Qeq_bool_refl.
  - intros fuel vds url credentials handle window surface fillvalue above below resp
      Hopen m vertical nsamples Hdim Hsize H.
    exact (fetch_horizon_fill fuel vds url credentials handle window surface fillvalue
             above below interpolation resp Hopen Hdim Hsize H).
Qed.

Lemma fill_cells_stay_fill_witness :
  (exists maps,
     Core.GetAttributes WellKnown.in_order WellKnown.in_order 6 WellKnown.vdshandle
       (WellKnown.surface [[8%Q; WellKnown.fillValue]; [8%Q; 12%Q]; [4%Q; 4%Q]])
       0 0 4 ["min"; "max"]%string Ctypes.NEAREST = Some (Core.Return maps) /\
     forall a, a < 2 ->
       exists map_a, maps !! a = Some map_a /\
                     load_f32 map_a 1 = Some WellKnown.fillValue) /\
  (exists maps,
     Model.GetAttributesBetweenSurfaces WellKnown.engine WellKnown.in_order
       WellKnown.in_order 6 WellKnown.vdshandle
       (WellKnown.surface [[8%Q; WellKnown.fillValue]; [8%Q; 12%Q]; [4%Q; 4%Q]])
       (WellKnown.surface [[12%Q; 12%Q]; [WellKnown.fillValue; 16%Q]; [8%Q; 4%Q]])
       4 ["min"; "max"]%string Ctypes.NEAREST = Some (Core.Return maps) /\
     forall a, a < 2 ->
       exists map_a, maps !! a = Some map_a /\
                     load_f32 map_a 1 = Some WellKnown.fillValue /\
                     load_f32 map_a 2 = Some WellKnown.fillValue).
Proof.
  destruct (fill_cells_stay_fill WellKnown.engine WellKnown.in_order WellKnown.in_order
              WellKnown.vdshandle WellKnown.handle
              (WellKnown.surface [[8%Q; WellKnown.fillValue]; [8%Q; 12%Q]; [4%Q; 4%Q]])
              4 ["min"; "max"]%string Ctypes.NEAREST)
    as (Halong & Hbetween & _); [intros l; reflexivity | reflexivity | reflexivity |].
  split.
  - eexists. split; [vm_compute; reflexivity |].
    intros a Ha.
    match goal with
    | |- exists _, ?maps !! _ = _ /\ _ =>
        destruct (Halong 6 0%Q 0%Q maps 0 [8%Q; WellKnown.fillValue] 1 WellKnown.fillValue)
          as (pd & td & bd & p & t & b & _ & _ & _ & _ & _ & _ & Hfill & _ & _ & Hmaps);
          [vm_compute; reflexivity | reflexivity | reflexivity | reflexivity |]
    end.
    rewrite Hfill in Hmaps. exact (Hmaps a Ha).
  - eexists. split; [vm_compute; reflexivity |].
    intros a Ha.
    match goal with
    | |- exists _, ?maps !! _ = _ /\ _ => set (out := maps)
    end.
    assert (Hrun :
      Model.GetAttributesBetweenSurfaces WellKnown.engine WellKnown.in_order
        WellKnown.in_order 6 WellKnown.vdshandle
        (WellKnown.surface [[8%Q; WellKnown.fillValue]; [8%Q; 12%Q]; [4%Q; 4%Q]])
        (WellKnown.surface [[12%Q; 12%Q]; [WellKnown.fillValue; 16%Q]; [8%Q; 4%Q]])
        4 ["min"; "max"]%string Ctypes.NEAREST = Some (Core.Return out))
      by (vm_compute; reflexivity).
    edestruct Hbetween
      with (out := out) (i := 0) (row := [8%Q; WellKnown.fillValue]) (j := 1)
           (val := WellKnown.fillValue)
      as (t1 & b1 & _ & _ & Hfill1 & _ & _ & Hmaps1);
      [exact Hrun | reflexivity | apply and_comm; split; reflexivity
      | reflexivity | apply and_comm; split; reflexivity
      | reflexivity | reflexivity | left; reflexivity |].
    edestruct Hbetween
      with (out := out) (i := 1) (row := [8%Q; 12%Q]) (j := 0) (val := 8%Q)
      as (t2 & b2 & _ & _ & Hfill2 & _ & _ & Hmaps2);
      [exact Hrun | reflexivity | apply and_comm; split; reflexivity
      | reflexivity | apply and_comm; split; reflexivity
      | reflexivity | reflexivity
      | right; exists WellKnown.fillValue; split; reflexivity |].
    rewrite Hfill1 in Hmaps1. rewrite Hfill2 in Hmaps2.
    destruct (Hmaps1 a Ha) as (m1 & Hm1 & Hl1).
    destruct (Hmaps2 a Ha) as (m2 & Hm2 & Hl2).
    exists m1. split; [exact Hm1 |]. split; [exact Hl1 |].
    rewrite Hm1 in Hm2. injection Hm2 as <-. exact Hl2.
Defined.

(** * Further properties of the code *)

(** ** Names of axes, coordinate systems, interpolation methods and attributes *)

(** Walk down the cases of a [switch] on the string [a]. *)
Ltac switch_on a :=
  match goal with
  | |- context [String.eqb a ?n] =>
      let E := fresh "E" in
      destruct (String.eqb_spec a n) as [E | E]; [| switch_on a]
  | _ => idtac
  end.


Lemma to_lower_ascii_idempotent (c : ascii) :
  Core.to_lower_ascii (Core.to_lower_ascii c) = Core.to_lower_ascii c.
Proof. destruct c as [[] [] [] [] [] [] [] []]; reflexivity. Qed.

Lemma ToLower_idempotent (s : string) : Core.ToLower (Core.ToLower s) = Core.ToLower s.
Proof.
  induction s as [| c s IH]; cbn [Core.ToLower]; [reflexivity |].
  now rewrite to_lower_ascii_idempotent, IH.
Qed.

Definition axis_names : list (string * Ctypes.axis_name) :=
  [("i", Ctypes.I); ("j", Ctypes.J); ("k", Ctypes.K); ("inline", Ctypes.INLINE);
   ("crossline", Ctypes.CROSSLINE); ("depth", Ctypes.DEPTH); ("time", Ctypes.TIME);
   ("sample", Ctypes.SAMPLE)]%string.

Lemma GetAxis_spec (direction : string) (ax : Ctypes.axis_name) :
  Core.GetAxis direction = Core.Return ax <-> In (direction, ax) axis_names.
Proof.
  unfold Core.GetAxis, axis_names. cbn [In].
  switch_on direction; subst;
    (split; [intros H; try discriminate H; injection H as <-; auto 10
            | intros H; intuition congruence]).
Qed.

(** [GetAxis] compares the direction as it is written: it accepts exactly
    the eight lower-case names, gives a different axis for each, has a name
    for every axis, and answers anything else, such as "Inline", with an
    invalid-argument error that quotes the input. *)
Theorem GetAxis_exact_names :
  (forall direction ax,
     Core.GetAxis direction = Core.Return ax <-> In (direction, ax) axis_names) /\
  (forall d1 d2 ax,
     Core.GetAxis d1 = Core.Return ax -> Core.GetAxis d2 = Core.Return ax -> d1 = d2) /\
  (forall ax, exists direction, Core.GetAxis direction = Core.Return ax) /\
  (forall direction,
     ~ In direction (map fst axis_names) ->
     Core.GetAxis direction
     = Core.Err (Core.InvalidArgument
                   ("invalid direction '" +:+ direction +:+
                    "', valid options are: i, j, k, inline, crossline or depth/time/sample"))) /\
  Core.GetAxis "Inline"
  = Core.Err (Core.InvalidArgument
                "invalid direction 'Inline', valid options are: i, j, k, inline, crossline or depth/time/sample").
Proof.
  split; [exact GetAxis_spec |]. split; [| split; [| split]].
  - intros d1 d2 ax H1 H2. apply GetAxis_spec in H1, H2.
    unfold axis_names in H1, H2. cbn [In] in H1, H2.
    destruct ax; intuition congruence.
  - intros []; eexists; apply GetAxis_spec; cbn; eauto 10.
  - intros direction Hn. unfold Core.GetAxis. cbn in Hn.
    switch_on direction; subst; try (exfalso; apply Hn; tauto). reflexivity.
  - reflexivity.
Qed.

(** Two outcomes of a parser that differ at most in the text of the error. *)
Definition same_outcome {A} (r1 r2 : Core.go A) : Prop :=
  match r1, r2 with
  | Core.Return a, Core.Return b => a = b
  | Core.Err (Core.InvalidArgument _), Core.Err (Core.InvalidArgument _) => True
  | _, _ => False
  end.

(** The names of coordinate systems, interpolation methods and attributes
    are read without regard to case: two spellings with the same lower-case
    form give the same value, or both an invalid-argument error (whose text
    quotes the spelling given); in particular a name and its lower-case form
    are read alike. *)
Theorem names_ignore_case (s1 s2 : string) :
  Core.ToLower s1 = Core.ToLower s2 ->
  same_outcome (Core.GetCoordinateSystem s1) (Core.GetCoordinateSystem s2) /\
  same_outcome (Core.GetInterpolationMethod s1) (Core.GetInterpolationMethod s2) /\
  same_outcome (Core.GetAttributeType s1) (Core.GetAttributeType s2) /\
  same_outcome (Core.GetCoordinateSystem s1) (Core.GetCoordinateSystem (Core.ToLower s1)) /\
  same_outcome (Core.GetInterpolationMethod s1)
    (Core.GetInterpolationMethod (Core.ToLower s1)) /\
  same_outcome (Core.GetAttributeType s1) (Core.GetAttributeType (Core.ToLower s1)).
Proof.
  intros H.
  unfold Core.GetCoordinateSystem, Core.GetInterpolationMethod, Core.GetAttributeType.
  cbn zeta. rewrite !ToLower_idempotent, <- H.
  repeat split; switch_on (Core.ToLower s1); exact I || reflexivity.
Qed.

Lemma names_ignore_case_witness :
  same_outcome (Core.GetCoordinateSystem "CDP") (Core.GetCoordinateSystem "cdp") /\
  same_outcome (Core.GetInterpolationMethod "Linear") (Core.GetInterpolationMethod "LINEAR") /\
  same_outcome (Core.GetAttributeType "SampleValue") (Core.GetAttributeType "samplevalue").
Proof.
  destruct (names_ignore_case "CDP" "cdp" eq_refl) as (H1 & _).
  destruct (names_ignore_case "Linear" "LINEAR" eq_refl) as (_ & H2 & _).
  destruct (names_ignore_case "SampleValue" "samplevalue" eq_refl) as (_ & _ & H3 & _).
  split; [exact H1 | split; [exact H2 | exact H3]].
Defined.



(** ** The request handlers ([package api]) *)

Module Api.



Definition validateVerticalWindow (above below stepSize : Q) : option Core.error :=
  let lowerBound := 0 in
  let upperBound := 250 in
  if Qlt_bool above (inject_Z (Z.of_nat lowerBound))
     || Qle_bool (inject_Z (Z.of_nat upperBound)) above then
    Some (Core.NewInvalidArgument
            ("'above' out of range! Must be within [" +:+ show_nat lowerBound +:+
             ", " +:+ show_nat upperBound +:+ "], was " +:+ show_f above))
  else if Qlt_bool below (inject_Z (Z.of_nat lowerBound))
          || Qle_bool (inject_Z (Z.of_nat upperBound)) below then
    Some (Core.NewInvalidArgument
            ("'below' out of range! Must be within [" +:+ show_nat lowerBound +:+
             ", " +:+ show_nat upperBound +:+ "], was " +:+ show_f below))
  else if Qlt_bool stepSize (inject_Z (Z.of_nat lowerBound)) then
    Some (Core.NewInvalidArgument
            ("'stepsize' out of range! Must be bigger than " +:+ show_nat lowerBound +:+
             ", was " +:+ show_f stepSize))
  else None.

End Api.

(** ** From a C++ exception to the HTTP status *)


(** The call failed on the null handle and left [out0] behind the out
    pointer. *)
Definition failed {A} (o : Capi.outcome A) (out0 : A) : Prop :=
  Capi.status o = Capi.STATUS_NULLPTR_ERROR /\
  Capi.errmsg (Capi.context o) = "Invalid handle"%string /\
  Capi.out o = out0.

(** An entry point that is handed a null data handle fails with a
    null-pointer error "Invalid handle" without calling the engine and
    without touching what is behind its out pointer; in Go a fence request
    on such a handle is an internal error with that text. *)
Theorem null_handle_rejected (api : Capi.Cppapi) (ctx : Capi.Context) :
  (forall cs coordinates npoints interpolation fillValue,
     failed (Capi.fence api ctx None cs coordinates npoints interpolation fillValue)
       Capi.response_empty) /\
  (forall reference top bottom out0 out_size,
     failed (Capi.horizon_buffer_offsets api ctx None reference top bottom out0 out_size)
       out0) /\
  (forall reference top bottom offsets interpolation from to out0,
     failed (Capi.horizon api ctx None reference top bottom offsets interpolation from to
               out0) out0) /\
  (forall reference top bottom offsets data size attributes nattributes stepsize from to
          out0,
     failed (Capi.attribute api ctx None reference top bottom offsets data size attributes
               nattributes stepsize from to out0) out0) /\
  (forall show_v cs point points interpolation fillValue,
     Core.GetFence show_v {| Core.api := api; Core.handle := None; Core.ctx := ctx |}
       cs (pairs (point :: points)) interpolation fillValue
     = Core.Err (Core.InternalError "Invalid handle")).
Proof.
  unfold failed. repeat split.
  - intros show_v cs [x y] points interpolation fillValue. unfold Core.GetFence.
    destruct (copy_points show_v ((x, y) :: points) 0
                (replicate (length (pairs ((x, y) :: points)) * 2) 0%Q))
      as (cc & -> & Hl & _).
    { rewrite length_replicate. unfold pairs. rewrite length_map. lia. }
    rewrite length_replicate in Hl.
    destruct cc as [| c0 cc]; [discriminate Hl |]. reflexivity.
Qed.

(** ** The [attribute] entry point *)

(** A call of [attribute] on an empty range of cells fails with the run-time
    error "No data to iterate over" and writes nothing. *)
Theorem attribute_needs_cells (api : Capi.Cppapi) (ctx : Capi.Context)
    (h : Vds.DataHandle) (reference top bottom : Capi.RegularSurface)
    (offsets : list Z) (data : list memval) (size : nat)
    (attributes : list Ctypes.attribute) (nattributes : nat) (stepsize : Q)
    (from to : nat) (out0 : list memval) :
  to <= from ->
  Capi.attribute api ctx (Some h) reference top bottom offsets data size attributes
    nattributes stepsize from to out0
  = {| Capi.status := Capi.STATUS_RUNTIME_ERROR;
       Capi.context := {| Capi.errmsg := "No data to iterate over" |};
       Capi.out := out0 |}.
Proof.
  intros Hle. unfold Capi.attribute. cbn [Capi.require_handle bind].
  destruct (Nat.leb_spec to from) as [_ | Hlt]; [reflexivity | lia].
Qed.

Lemma attribute_needs_cells_witness :
  Core.Error
    (Capi.attribute (Model.cppapi WellKnown.engine) Capi.context_new
       (Some WellKnown.handle)
       (Capi.Build_RegularSurface [8%Q] 1 1 (Capi.Build_Plane 2 0 1 1 0) 0)
       (Capi.Build_RegularSurface [8%Q] 1 1 (Capi.Build_Plane 2 0 1 1 0) 0)
       (Capi.Build_RegularSurface [8%Q] 1 1 (Capi.Build_Plane 2 0 1 1 0) 0)
       [0%Z; 1%Z] [Byte0; Byte0; Byte0; Byte0] 4 [Ctypes.MIN] 1 0 1 1
       [Byte0; Byte0; Byte0; Byte0])
  = Some (Core.InternalError "No data to iterate over").
Proof.
  rewrite (attribute_needs_cells (Model.cppapi WellKnown.engine) Capi.context_new
             WellKnown.handle _ _ _ _ _ _ _ _ _ 1 1 _ (Nat.le_refl 1)).
  reflexivity.
Defined.

Lemma chain_In (ranges : list (nat * nat)) (start stop f t : nat) :
  chain start ranges stop -> In (f, t) ranges -> start <= f /\ f < t /\ t <= stop.
Proof.
  intros Hchain Hin. apply list_elem_of_In, list_elem_of_lookup in Hin as [i Hi].
  exact (chain_lookup _ _ _ _ _ _ Hchain Hi).
Qed.

(** The ranges that [calculateAttributes] hands to its workers are never
    empty, so a worker with a valid handle always reaches the engine: what
    it leaves behind is what the engine's attribute pass wrote, or the
    engine's exception. *)
Theorem workers_reach_engine (v : Core.VDSHandle) (h : Vds.DataHandle)
    (p t b : Capi.RegularSurface) (hsize fuel : nat) (ranges : list (nat * nat))
    (dataOffset : list Z) (horizon : list memval) (horizonSize : nat)
    (ids : list Ctypes.attribute) (stepsize : Q) (from to : nat) (buffer : list memval) :
  Core.handle v = Some h ->
  Core.attribute_ranges fuel (Core.windowsPerRoutine hsize 32) 0 hsize = Some ranges ->
  In (from, to) ranges ->
  from < to <= hsize /\
  attribute_worker v p t b dataOffset horizon horizonSize ids stepsize from to buffer
  = Capi.entry Capi.context_new buffer
      (let? ws :=
         Capi.cppapi_attributes (Core.api v) h horizon (Capi.surface_size p) dataOffset
           (Capi.fillvalue p) p t b ids
           (if Qeq_bool stepsize 0 then Axis.stride (Vds.sample (Vds.get_metadata h))
            else stepsize) from to in
       Ok (apply_stores buffer ws)).
Proof.
  intros Hh Hranges Hin.
  assert (Hchain : chain 0 ranges hsize).
  { destruct hsize as [| n].
    - destruct fuel; cbn in Hranges; injection Hranges as <-; destruct Hin.
    - apply (attribute_ranges_sound (Core.windowsPerRoutine (S n) 32) fuel) in Hranges;
        [exact Hranges |].
      pose proof (windowsPerRoutine_bound (S n)). lia. }
  destruct (chain_In _ _ _ _ _ Hchain Hin) as (_ & Hlt & Hle).
  split; [lia |].
  unfold attribute_worker, Capi.attribute. rewrite Hh. cbn [Capi.require_handle bind].
  destruct (Nat.leb_spec to from) as [Hbad | _]; [lia |].
  now rewrite firstn_all.
Qed.

Lemma workers_reach_engine_witness :
  let s := Capi.Build_RegularSurface [] 0 0 (Capi.Build_Plane 0 0 0 0 0) 0 in
  1 < 2 <= 3 /\
  attribute_worker WellKnown.vdshandle s s s [] [] 0 [] 0 1 2 []
  = Capi.entry Capi.context_new []
      (let? ws :=
         Capi.cppapi_attributes (Core.api WellKnown.vdshandle) WellKnown.handle []
           (Capi.surface_size s) [] (Capi.fillvalue s) s s s []
           (if Qeq_bool 0 0
            then Axis.stride (Vds.sample (Vds.get_metadata WellKnown.handle))
            else 0) 1 2 in
       Ok (apply_stores [] ws)).
Proof.
  exact (workers_reach_engine WellKnown.vdshandle WellKnown.handle
           (Capi.Build_RegularSurface [] 0 0 (Capi.Build_Plane 0 0 0 0 0) 0)
           (Capi.Build_RegularSurface [] 0 0 (Capi.Build_Plane 0 0 0 0 0) 0)
           (Capi.Build_RegularSurface [] 0 0 (Capi.Build_Plane 0 0 0 0 0) 0)
           3 3 [(0, 1); (1, 2); (2, 3)] [] [] 0 [] 0 1 2 [] eq_refl eq_refl
           (or_intror (or_introl eq_refl))).
Defined.

(** A step size of 0 stands for the sample step of the cube: the call with
    0 leaves behind what the call with that step leaves behind. *)
Theorem attribute_default_stepsize (api : Capi.Cppapi) (ctx : Capi.Context)
    (h : Vds.DataHandle) (reference top bottom : Capi.RegularSurface)
    (offsets : list Z) (data : list memval) (size : nat)
    (attributes : list Ctypes.attribute) (nattributes : nat)
    (from to : nat) (out0 : list memval) :
  Capi.attribute api ctx (Some h) reference top bottom offsets data size attributes
    nattributes 0 from to out0
  = Capi.attribute api ctx (Some h) reference top bottom offsets data size attributes
      nattributes (Axis.stride (Vds.sample (Vds.get_metadata h))) from to out0.
Proof.
  unfold Capi.attribute. cbn [Capi.require_handle bind].
  destruct (to <=? from); [reflexivity |].
  change (Qeq_bool 0 0) with true. cbn iota.
  destruct (Qeq_bool (Axis.stride (Vds.sample (Vds.get_metadata h))) 0); reflexivity.
Qed.

(** ** Surfaces handed to C *)

Lemma toCdata_rows_ragged (fill shift : Q) (ncols : nat) (rows : list (list Q)) :
  forall (m i : nat) (row : list Q) (cdata : list Q),
    rows !! m = Some row ->
    length row <> ncols ->
    (forall k r, k < m -> rows !! k = Some r -> length r = ncols) ->
    Core.toCdata_rows fill shift ncols i rows cdata
    = Core.Err (Core.InvalidArgument (Core.rows_msg ncols (i + m) (length row))).
Proof.
  induction rows as [| r0 rest IH]; intros m i row cdata Hm Hbad Hgood;
    [discriminate Hm |].
  cbn [Core.toCdata_rows]. destruct m as [| m]; cbn in Hm.
  - injection Hm as ->. destruct (Nat.eqb_spec (length row) ncols) as [He | _];
      [contradiction |]. cbn [negb]. rewrite Nat.add_0_r. reflexivity.
  - rewrite (Hgood 0 r0 ltac:(lia) eq_refl), Nat.eqb_refl. cbn [negb].
    rewrite (IH m (S i) row _ Hm Hbad).
    + do 3 f_equal. lia.
    + intros k r Hk Hr. apply (Hgood (S k) r); [lia | exact Hr].
Qed.

(** A surface whose rows do not all have the length of row 0 is refused,
    whatever the shift: [toCdata] fails with an invalid-argument error that
    names the first such row, and so does [GetAttributes] (for valid
    attribute names and non-negative above and below) before any call to
    C. *)
Theorem ragged_surface_refused (surface : Core.RegularSurface)
    (row0 : list Q) (rest : list (list Q)) (i : nat) (row : list Q) :
  Core.Values surface = row0 :: rest ->
  Core.Values surface !! i = Some row ->
  length row <> length row0 ->
  (forall k r, k < i -> Core.Values surface !! k = Some r -> length r = length row0) ->
  let msg :=
    ("Surface rows are not of the same length. Row 0 has " +:+
     show_nat (length row0) +:+ " elements. Row " +:+ show_nat i +:+ " has " +:+
     show_nat (length row) +:+ " elements")%string in
  (forall shift, Core.toCdata surface shift = Core.Err (Core.InvalidArgument msg)) /\
  (forall schedH schedA fuel v above below stepsize attributes interpolation ids,
     Core.targetAttributes attributes [] = Core.Return ids ->
     (0 <= above)%Q -> (0 <= below)%Q ->
     Core.GetAttributes schedH schedA fuel v surface above below stepsize attributes
       interpolation
     = Some (Core.Err (Core.InvalidArgument msg))).
Proof.
  intros HV Hi Hbad Hgood msg.
  assert (Hc : forall shift,
             Core.toCdata surface shift = Core.Err (Core.InvalidArgument msg)).
  { intros shift. unfold Core.toCdata. rewrite HV. rewrite <- HV.
    rewrite (toCdata_rows_ragged _ _ _ _ i 0 row _ Hi Hbad Hgood). reflexivity. }
  split; [exact Hc |].
  intros schedH schedA fuel v above below stepsize attributes interpolation ids Hids
    Habove Hbelow.
  unfold Core.GetAttributes. rewrite Hids. cbn [Core.go_bind].
  rewrite (proj2 (Qlt_bool_false_iff above 0) Habove).
  rewrite (proj2 (Qlt_bool_false_iff below 0) Hbelow). cbn [orb].
  rewrite HV. rewrite <- HV. rewrite Hc. reflexivity.
Qed.

Lemma ragged_surface_refused_witness :
  Core.GetAttributes WellKnown.in_order WellKnown.in_order 6 WellKnown.vdshandle
    (WellKnown.surface [[8%Q; 8%Q]; [8%Q; 8%Q]; [8%Q]]) 0 0 4 ["min"]%string
    Ctypes.NEAREST
  = Some (Core.Err (Core.InvalidArgument
      "Surface rows are not of the same length. Row 0 has 2 elements. Row 2 has 1 elements")).
Proof.
  refine (proj2 (ragged_surface_refused
                   (WellKnown.surface [[8%Q; 8%Q]; [8%Q; 8%Q]; [8%Q]])
                   [8%Q; 8%Q] [[8%Q; 8%Q]; [8%Q]] 2 [8%Q] eq_refl eq_refl _ _)
            WellKnown.in_order WellKnown.in_order 6 WellKnown.vdshandle 0%Q 0%Q 4%Q
            ["min"]%string Ctypes.NEAREST [Ctypes.MIN] eq_refl _ _).
  - cbn. lia.
  - intros k r Hk Hr. destruct k as [| [| k]]; [| | lia]; cbn in Hr;
      injection Hr as <-; reflexivity.
  - apply Qle_refl.
  - apply Qle_refl.
Defined.




(** ** What [GetFence] accepts and what it hands to C *)








(** ** The chunks of the horizon fetch pass *)

Lemma horizon_ranges_bands (n c : nat) :
  1 <= n ->
  forall fuel i to,
    i <= c -> c - i <= fuel -> (i < c -> to = (i + 1) * n) ->
    Core.horizon_ranges fuel (i * n) to n (n * c)
    = Some (map (fun k => (k * n, (k + 1) * n)) (seq i (c - i))).
Proof.
  intros Hn. induction fuel as [| fuel IH]; intros i to Hi Hfuel Hto;
    cbn [Core.horizon_ranges].
  - assert (i = c) as -> by lia. rewrite Nat.sub_diag.
    destruct (Nat.ltb_spec (c * n) (n * c)); [lia | reflexivity].
  - destruct (Nat.ltb_spec (i * n) (n * c)) as [Hlt | Hge].
    + assert (Hic : i < c) by nia. rewrite (Hto Hic).
      replace (i * n + n) with (S i * n) by lia.
      rewrite (IH (S i)); [| lia | lia |].
      * replace (c - i) with (S (c - S i)) by lia. reflexivity.
      * intros Hs. unfold Core.min.
        destruct (Nat.ltb_spec ((i + 1) * n + n) (n * c)); nia.
    + assert (i = c) as -> by nia. rewrite Nat.sub_diag. reflexivity.
Qed.

(** The horizon fetch pass cuts the nrows * ncols cells into exactly ncols
    chunks of nrows consecutive cells each, [i * nrows, (i + 1) * nrows) for
    the i-th goroutine, which cover every cell once; with no cells no
    goroutine is started and the zeroed buffer is returned as it is. *)
Theorem horizon_chunks (nrows ncols fuel : nat) :
  ncols <= fuel ->
  (1 <= nrows ->
   Core.horizon_ranges fuel 0 (0 + Core.max nrows 1) (Core.max nrows 1) (nrows * ncols)
   = Some (map (fun i => (i * nrows, (i + 1) * nrows)) (seq 0 ncols))) /\
  (nrows * ncols = 0 ->
   forall sched v p t b dataOffset interpolation size,
     Core.fetchHorizon sched fuel v p t b nrows ncols dataOffset interpolation size
     = Some (Core.Return (replicate size Byte0))).
Proof.
  intros Hfuel. split.
  - intros Hn. assert (Hmax : Core.max nrows 1 = nrows).
    { unfold Core.max. destruct (Nat.ltb_spec 1 nrows); lia. }
    rewrite Hmax. pose proof (horizon_ranges_bands nrows ncols Hn fuel 0 (0 + nrows)) as H.
    rewrite Nat.sub_0_r in H. apply H; lia.
  - intros Hz sched v p t b dataOffset interpolation size. unfold Core.fetchHorizon.
    rewrite Hz. destruct fuel; reflexivity.
Qed.

Lemma horizon_chunks_witness :
  Core.horizon_ranges 2 0 (0 + Core.max 3 1) (Core.max 3 1) (3 * 2)
  = Some [(0, 3); (3, 6)].
Proof.
  exact (proj1 (horizon_chunks 3 2 2 (Nat.le_refl 2)) ltac:(lia)).
Defined.

(** ** What [GetAttributes] checks first *)




(** ** Empty inputs *)

Lemma calculateAttributes_no_attributes sched fuel v p t b hsize dataOffset horizon
    horizonSize stepsize r :
  1 <= hsize ->
  Core.calculateAttributes sched fuel v p t b hsize dataOffset horizon horizonSize []
    stepsize = Some r ->
  r = Core.Panic.
Proof.
  intros Hpos. unfold Core.calculateAttributes.
  destruct (Core.attribute_ranges fuel (Core.windowsPerRoutine hsize 32) 0 hsize)
    as [ranges |] eqn:Hranges; [| discriminate].
  apply (attribute_ranges_sound (Core.windowsPerRoutine hsize 32) fuel) in Hranges;
    [| pose proof (windowsPerRoutine_bound hsize); lia].
  destruct ranges as [| r0 rs]; [cbn in Hranges; lia |].
  destruct dataOffset; [intros H; now injection H as <- |].
  destruct horizon; intros H; now injection H as <-.
Qed.

(** Empty inputs are not answered with an error.  A surface without rows,
    or whose rows are all empty, makes [GetAttributes] panic (it indexes
    row 0, and then takes the address of the first of no cells).  A request
    without attribute names never returns maps: the attribute pass panics on
    the address of the first of no attributes, after the horizon has been
    fetched. *)
Theorem empty_inputs_panic :
  (forall schedH schedA fuel v surface above below stepsize attributes interpolation ids,
     Core.targetAttributes attributes [] = Core.Return ids ->
     (0 <= above)%Q -> (0 <= below)%Q ->
     Forall (fun row => row = []) (Core.Values surface) ->
     Core.GetAttributes schedH schedA fuel v surface above below stepsize attributes
       interpolation = Some Core.Panic) /\
  (forall sched fuel v p t b hsize dataOffset horizon horizonSize stepsize,
     1 <= hsize <= fuel ->
     Core.calculateAttributes sched fuel v p t b hsize dataOffset horizon horizonSize []
       stepsize = Some Core.Panic) /\
  (forall schedH schedA fuel v surface above below stepsize interpolation out,
     Core.GetAttributes schedH schedA fuel v surface above below stepsize []
       interpolation <> Some (Core.Return out)).
Proof.
  split; [| split].
  - intros schedH schedA fuel v surface above below stepsize attributes interpolation ids
      Hids Habove Hbelow Hall.
    unfold Core.GetAttributes. rewrite Hids. cbn [Core.go_bind].
    rewrite (proj2 (Qlt_bool_false_iff above 0) Habove).
    rewrite (proj2 (Qlt_bool_false_iff below 0) Hbelow). cbn [orb].
    destruct (Core.Values surface) as [| row0 rest] eqn:HV; [reflexivity |].
    assert (Hd : Core.toCdata surface 0 = Core.Return []).
    { destruct (toCdata_rows_total (Core.FillValue surface) 0 (length row0) (row0 :: rest))
        with (i := 0) (cdata := replicate (length (row0 :: rest) * length row0) 0%Q)
        as [cdata Hc].
      - inversion Hall as [| r rs Hr Hrs]; subst. constructor; [reflexivity |].
        eapply Forall_impl; [exact Hrs | intros x ->; reflexivity].
      - unfold Core.toCdata. rewrite HV. rewrite Hc. f_equal.
        apply toCdata_rows_spec in Hc as (Hl & _).
        + rewrite length_replicate in Hl. inversion Hall; subst. cbn in Hl.
          rewrite Nat.mul_0_r in Hl. now destruct cdata.
        + rewrite length_replicate. cbn. lia. }
    rewrite <- HV. rewrite Hd. cbn [Core.go_bind]. unfold Core.toCRegularSurface.
    rewrite HV. reflexivity.
  - intros sched fuel v p t b hsize dataOffset horizon horizonSize stepsize [Hpos Hfuel].
    destruct (attribute_ranges_chain (Core.windowsPerRoutine hsize 32) fuel 0 hsize)
      as (ranges & Hranges & Hchain & _);
      [pose proof (windowsPerRoutine_bound hsize); lia | exact Hfuel |].
    unfold Core.calculateAttributes. rewrite Hranges.
    destruct ranges as [| r0 rs]; [cbn in Hchain; lia |].
    destruct dataOffset; [reflexivity |]. destruct horizon; reflexivity.
  - intros schedH schedA fuel v surface above below stepsize interpolation out H.
    destruct (GetAttributes_inv _ _ _ _ _ _ _ _ _ _ _ H)
      as [ids row0 p t b Hids _ Hrow0 Hpd _ _ Hp _ _ Htail].
    injection Hids as <-.
    assert (Hpos : 1 <= length (Core.Values surface) * length row0).
    { apply toCdata_spec in Hpd as (r0 & rs & HV & _ & Hlen & _).
      rewrite HV in Hrow0. injection Hrow0 as ->.
      unfold Core.toCRegularSurface in Hp. rewrite HV in Hp.
      destruct (Capi.surface_data p); [discriminate Hp | cbn in Hlen; lia]. }
    unfold Model.surface_attributes in Htail.
    destruct (Core.Error _); [discriminate |].
    destruct (_ !! _) as [total |]; [| discriminate].
    destruct (Core.fetchHorizon _ _ _ _ _ _ _ _ _ _ _) as [[horizon | e |] |];
      try discriminate.
    apply calculateAttributes_no_attributes in Htail; [discriminate | exact Hpos].
Qed.

(** ** The vertical window of an attributes request *)

Lemma out_of_window (x : Q) :
  Qlt_bool x (inject_Z (Z.of_nat 0)) || Qle_bool (inject_Z (Z.of_nat 250)) x = false
  <-> (0 <= x < 250)%Q.
Proof.
  rewrite orb_false_iff, Qlt_bool_false_iff.
  change (inject_Z (Z.of_nat 0)) with 0%Q. change (inject_Z (Z.of_nat 250)) with 250%Q.
  split.
  - intros [H0 H1]. split; [exact H0 |].
    apply Qnot_le_lt. intros Hle. apply Qle_bool_iff in Hle. congruence.
  - intros [H0 H1]. split; [exact H0 |].
    destruct (Qle_bool 250 x) eqn:Hb; [| reflexivity].
    apply Qle_bool_iff in Hb. lra.
Qed.

(** [validateVerticalWindow] lets a request through exactly when
    0 <= above < 250, 0 <= below < 250 and 0 <= stepsize.  Otherwise the
    answer is an invalid-argument error about the first of above, below and
    stepsize that is out of range; the bound 250 itself is refused, with a
    message that gives the range as [0, 250]. *)
Theorem vertical_window_validation (above below stepSize : Q) :
  (Api.validateVerticalWindow above below stepSize = None <->
   (0 <= above < 250 /\ 0 <= below < 250 /\ 0 <= stepSize)%Q) /\
  (~ (0 <= above < 250)%Q ->
   Api.validateVerticalWindow above below stepSize
   = Some (Core.InvalidArgument
             ("'above' out of range! Must be within [0, 250], was " +:+ show_f above))) /\
  ((0 <= above < 250)%Q -> ~ (0 <= below < 250)%Q ->
   Api.validateVerticalWindow above below stepSize
   = Some (Core.InvalidArgument
             ("'below' out of range! Must be within [0, 250], was " +:+ show_f below))) /\
  ((0 <= above < 250)%Q -> (0 <= below < 250)%Q -> (stepSize < 0)%Q ->
   Api.validateVerticalWindow above below stepSize
   = Some (Core.InvalidArgument
             ("'stepsize' out of range! Must be bigger than 0, was " +:+
              show_f stepSize))) /\
  Api.validateVerticalWindow 250 0 0
  = Some (Core.InvalidArgument
            "'above' out of range! Must be within [0, 250], was 250.000000").
Proof.
  unfold Api.validateVerticalWindow. cbn zeta.
  pose proof (out_of_window above) as Ha. pose proof (out_of_window below) as Hb.
  pose proof (Qlt_bool_false_iff stepSize 0) as Hs.
  pose proof (Qlt_bool_iff stepSize 0) as Hs'.
  change (inject_Z (Z.of_nat 0)) with 0%Q in *.
  destruct (Qlt_bool above 0 || Qle_bool (inject_Z (Z.of_nat 250)) above);
    destruct (Qlt_bool below 0 || Qle_bool (inject_Z (Z.of_nat 250)) below);
    destruct (Qlt_bool stepSize 0);
    (split; [split; [intros H; try discriminate H; tauto
                    | intros (H1 & H2 & H3);
                      try (apply Ha in H1; discriminate H1);
                      try (apply Hb in H2; discriminate H2);
                      try (apply Hs in H3; discriminate H3); reflexivity] |]);
    (split; [intros H; try reflexivity; exfalso; apply H; tauto |]);
    (split; [intros H1 H2; try reflexivity;
             try (apply Ha in H1; discriminate H1); exfalso; apply H2; tauto |]);
    (split; [intros H1 H2 H3; try reflexivity;
             try (apply Ha in H1; discriminate H1);
             try (apply Hb in H2; discriminate H2);
             apply Hs' in H3; discriminate H3 |]);
    reflexivity.
Qed.

(** ** [fetch_fence] of [vds.cpp] at the border of the cube *)

Section VdsFence.

Variable m : Vds.MetadataHandle.
Variable cs : Ctypes.coordinate_system.
Variable coordinates : list Q.

Let offending (q : nat) : option nat :=
  offending_dimension m cs (point_x coordinates q) (point_y coordinates q).

Lemma vds_fence_loop_step (n i : nat) (coords : list Vds.voxel) :
  Vds.fence_loop m cs coordinates (S n) i coords
  = match offending i with
    | Some d =>
        Throw (runtime_error
                 (Vds.out_of_boundaries_msg (point_x coordinates i)
                    (point_y coordinates i) d))
    | None =>
        let coordinate :=
          Vds.transform_coordinate m cs (point_x coordinates i) (point_y coordinates i) in
        Vds.fence_loop m cs coordinates n (S i)
          (Vds.set_coord
             (Vds.set_coord coords i (Axis.dimension (Vds.iline m))
                (Vds.at3 coordinate 0 + (1 # 2))%Q)
             i (Axis.dimension (Vds.xline m)) (Vds.at3 coordinate 1 + (1 # 2))%Q)
    end.
Proof.
  cbn [Vds.fence_loop].
  fold (point_x coordinates i). fold (point_y coordinates i).
  unfold offending, offending_dimension, Vds.validate_boundary, outside.
  fold (Qnat (Axis.nsamples (Vds.iline m))). fold (Qnat (Axis.nsamples (Vds.xline m))).
  destruct (_ || _); cbn [bind]; [reflexivity |].
  destruct (_ || _); reflexivity.
Qed.

Lemma vds_fence_loop_throws (n : nat) :
  forall (i p d : nat) (coords : list Vds.voxel),
    i <= p < i + n ->
    offending p = Some d ->
    (forall q, i <= q < p -> offending q = None) ->
    Vds.fence_loop m cs coordinates n i coords
    = Throw (runtime_error
               (Vds.out_of_boundaries_msg (point_x coordinates p)
                  (point_y coordinates p) d)).
Proof.
  induction n as [| n IH]; intros i p d coords Hp Hd Hbefore; [lia |].
  rewrite vds_fence_loop_step.
  destruct (Nat.eq_dec i p) as [-> | Hne].
  - rewrite Hd. reflexivity.
  - rewrite (Hbefore i ltac:(lia)). cbn zeta.
    apply IH; [lia | exact Hd | intros q Hq; apply Hbefore; lia].
Qed.

Lemma vds_fence_loop_inside (n : nat) :
  forall (i : nat) (coords coords' : list Vds.voxel),
    Vds.fence_loop m cs coordinates n i coords = Ok coords' ->
    forall p, i <= p < i + n -> offending p = None.
Proof.
  induction n as [| n IH]; intros i coords coords' H p Hp; [lia |].
  rewrite vds_fence_loop_step in H.
  destruct (offending i) eqn:Hi; [discriminate H |].
  destruct (Nat.eq_dec i p) as [<- | Hne]; [exact Hi |].
  apply (IH (S i) _ _ H). lia.
Qed.

End VdsFence.

(** [fetch_fence] of [vds.cpp] checks every point against [-0.5,
    nsamples - 0.5) on the inline (0) and the crossline (1) dimension, in
    every coordinate system.  It fails at the first point outside, with a
    run-time error that gives the point and the first dimension on which it
    is outside, and [fence] then answers with that text and no data; when it
    succeeds every point was inside. *)
Theorem fetch_fence_boundaries (vds : Vds.Storage) (url credentials : string)
    (handle : Vds.DataHandle) (cs : Ctypes.coordinate_system) (coordinates : list Q)
    (npoints : nat) (interpolation : Ctypes.interpolation_method) :
  vds url credentials = Ok handle ->
  let m := Vds.get_metadata handle in
  let offending p :=
    offending_dimension m cs (point_x coordinates p) (point_y coordinates p) in
  (forall p d,
     p < npoints -> offending p = Some d -> (forall q, q < p -> offending q = None) ->
     let msg :=
       Vds.out_of_boundaries_msg (point_x coordinates p) (point_y coordinates p) d in
     Vds.fetch_fence vds url credentials cs coordinates npoints interpolation
     = Throw (runtime_error msg) /\
     Vds.fence vds url credentials cs coordinates npoints interpolation
     = {| Vds.data := None; Vds.err := Some msg; Vds.size := 0 |}) /\
  (forall resp,
     Vds.fetch_fence vds url credentials cs coordinates npoints interpolation = Ok resp ->
     forall p, p < npoints ->
       let coordinate :=
         Vds.transform_coordinate m cs (point_x coordinates p) (point_y coordinates p) in
       ~ out_of_range (Vds.iline m) (Vds.at3 coordinate 0) /\
       ~ out_of_range (Vds.xline m) (Vds.at3 coordinate 1)).
Proof.
  intros Hopen m offending. split.
  - intros p d Hp Hd Hbefore msg.
    assert (Hf : Vds.fetch_fence vds url credentials cs coordinates npoints interpolation
                 = Throw (runtime_error msg)).
    { unfold Vds.fetch_fence. rewrite Hopen. cbn [bind]. fold m.
      rewrite (vds_fence_loop_throws m cs coordinates npoints 0 p d _ ltac:(lia) Hd).
      - reflexivity.
      - intros q Hq. apply Hbefore. lia. }
    split; [exact Hf |]. unfold Vds.fence. rewrite Hf. reflexivity.
  - intros resp H p Hp coordinate.
    unfold Vds.fetch_fence in H. rewrite Hopen in H. cbn [bind] in H. fold m in H.
    destruct (Vds.fence_loop m cs coordinates npoints 0 _) as [coords | e] eqn:Hloop;
      [| discriminate H].
    pose proof (vds_fence_loop_inside m cs coordinates npoints 0 _ _ Hloop p ltac:(lia))
      as Hin.
    unfold offending_dimension in Hin. fold coordinate in Hin.
    destruct (outside (Vds.iline m) _) eqn:H0; [discriminate Hin |].
    destruct (outside (Vds.xline m) _) eqn:H1; [discriminate Hin |].
    split; intros Hout; apply outside_iff in Hout; congruence.
Qed.

Lemma fetch_fence_boundaries_witness :
  Vds.fence WellKnown.storage "url" "sas" Ctypes.INDEX [0%Q; 0%Q; 1%Q; 2%Q; 5%Q; 0%Q] 3
    Ctypes.NEAREST
  = {| Vds.data := None;
       Vds.err := Some "Coordinate (1.000000,2.000000) is out of boundaries in dimension 1."%string;
       Vds.size := 0 |}.
Proof.
  destruct (fetch_fence_boundaries WellKnown.storage "url" "sas" WellKnown.handle
              Ctypes.INDEX [0%Q; 0%Q; 1%Q; 2%Q; 5%Q; 0%Q] 3 Ctypes.NEAREST eq_refl)
    as [Hthrow _].
  refine (proj2 (Hthrow 1 1 _ eq_refl _)).
  - lia.
  - intros q Hq. destruct q as [| q]; [reflexivity | lia].
Defined.

(** ** [write_fillvalue] and the assembly of the horizon response *)

(** [write_fillvalue] on regions that lie within the buffer: the buffer
    keeps its length, every float of every listed region is the fill value
    afterwards, and no byte outside the listed regions changes. *)
Theorem write_fillvalue_spec (dst : list memval) (novals : list nat)
    (vertical_size : nat) (fillvalue : Q) :
  (forall i, In i novals -> (i + vertical_size) * 4 <= length dst) ->
  let out := Vds.write_fillvalue dst novals vertical_size fillvalue in
  length out = length dst /\
  (forall i j, In i novals -> j < vertical_size ->
     load_f32 out (i + j) = Some fillvalue) /\
  (forall b, (forall i, In i novals -> b < i * 4 \/ (i + vertical_size) * 4 <= b) ->
     out !! b = dst !! b).
Proof.
  intros Hin out. split; [apply write_fillvalue_length |]. split.
  - intros i j Hi Hj. apply holds_load. apply write_fillvalue_fills; [exact Hi | exact Hj |].
    specialize (Hin i Hi). lia.
  - intros b Hb. apply write_fillvalue_outside. exact Hb.
Qed.

Lemma write_fillvalue_spec_witness :
  let out :=
    Vds.write_fillvalue (floats_to_bytes [1; 2; 3; 4; 5; 6]%Q) [4; 0] 2 (- (7)) in
  load_f32 out 5 = Some (- (7))%Q /\ load_f32 out 0 = Some (- (7))%Q /\
  out !! 9 = Some (Fragment 3 1).
Proof.
  destruct (write_fillvalue_spec (floats_to_bytes [1; 2; 3; 4; 5; 6]%Q) [4; 0] 2 (- (7)))
    as (_ & Hfill & Hkeep).
  { intros i [<- | [<- | []]]; cbn; lia. }
  split; [| split].
  - exact (Hfill 4 1 (or_introl eq_refl) ltac:(lia)).
  - exact (Hfill 0 0 (or_intror (or_introl eq_refl)) ltac:(lia)).
  - cbn zeta. rewrite Hkeep; [reflexivity |]. intros i [<- | [<- | []]]; lia.
Defined.

Section HorizonAssembly.

Variable m : Vds.MetadataHandle.
Variable surface : Vds.RegularSurface.t.
Variable fillvalue : Q.
Variable vertical : Vds.VerticalWindow.t.
Variable fuel : nat.

Let ncols := Vds.RegularSurface.ncols surface.
Let nrows := Vds.RegularSurface.nrows surface.

(** An invariant of the cell loop, indexed by the number of cells done. *)
Variable Inv : nat -> Vds.cursor -> Prop.

Hypothesis Inv_step :
  forall row col st st',
    row < nrows -> col < ncols ->
    Inv (row * ncols + col) st ->
    Vds.horizon_cell fuel m surface fillvalue vertical row col st = Some (Ok st') ->
    Inv (row * ncols + col + 1) st'.

Lemma horizon_row_inv (row : nat) :
  row < nrows ->
  forall (n col0 : nat) (st st' : Vds.cursor),
    col0 + n <= ncols ->
    Inv (row * ncols + col0) st ->
    Vds.for_each (fun col => Vds.horizon_cell fuel m surface fillvalue vertical row col)
      (seq col0 n) st = Some (Ok st') ->
    Inv (row * ncols + col0 + n) st'.
Proof.
  intros Hrow. induction n as [| n IH]; intros col0 st st' Hn Hinv; cbn [seq Vds.for_each].
  - intros H. injection H as <-. now rewrite Nat.add_0_r.
  - destruct (Vds.horizon_cell _ _ _ _ _ _ _ _) as [[st1 | e] |] eqn:Hcell;
      try discriminate.
    intros Hrest. apply Inv_step in Hcell; [| exact Hrow | lia | exact Hinv].
    replace (row * ncols + col0 + S n) with (row * ncols + S col0 + n) by lia.
    apply (IH (S col0) st1 st'); [lia | | exact Hrest].
    replace (row * ncols + S col0) with (row * ncols + col0 + 1) by lia. exact Hcell.
Qed.

Lemma horizon_rows_inv :
  forall (n row0 : nat) (st st' : Vds.cursor),
    row0 + n <= nrows ->
    Inv (row0 * ncols) st ->
    Vds.for_each (fun row =>
      Vds.for_each (fun col => Vds.horizon_cell fuel m surface fillvalue vertical row col)
        (seq 0 ncols)) (seq row0 n) st = Some (Ok st') ->
    Inv ((row0 + n) * ncols) st'.
Proof.
  induction n as [| n IH]; intros row0 st st' Hn Hinv; cbn [seq Vds.for_each].
  - intros H. injection H as <-. now rewrite Nat.add_0_r.
  - destruct (Vds.for_each _ (seq 0 ncols) st) as [[st1 | e] |] eqn:Hrow;
      try discriminate.
    intros Hrest. apply (horizon_row_inv row0) in Hrow; [| lia | lia |].
    + replace ((row0 + S n) * ncols) with ((S row0 + n) * ncols) by lia.
      apply (IH (S row0) st1 st'); [lia | | exact Hrest].
      replace (S row0 * ncols) with (row0 * ncols + 0 + ncols) by lia. exact Hrow.
    + now rewrite Nat.add_0_r.
Qed.

Lemma horizon_cells_inv (st0 st : Vds.cursor) :
  Inv 0 st0 ->
  Vds.horizon_cells fuel m surface fillvalue vertical st0 = Some (Ok st) ->
  Inv (nrows * ncols) st.
Proof.
  intros H0 H. unfold Vds.horizon_cells in H. fold ncols nrows in H.
  apply (horizon_rows_inv nrows 0) in H; [exact H | lia | exact H0].
Qed.

End HorizonAssembly.

Lemma floats_to_bytes_lookup (fs : list Q) :
  forall c v k, fs !! c = Some v -> k < 4 ->
    floats_to_bytes fs !! (c * 4 + k) = Some (Fragment v k).
Proof.
  induction fs as [| f fs IH]; intros c v k Hc Hk; [discriminate Hc |].
  destruct c as [| c]; cbn in Hc.
  - injection Hc as ->. do 4 (destruct k as [| k]; [reflexivity |]). lia.
  - replace (S c * 4 + k) with (4 + (c * 4 + k)) by lia.
    exact (IH c v k Hc Hk).
Qed.

(** The vertical window of a cell lies within the cube. *)
Definition vertical_range (m : Vds.MetadataHandle) (surface : Vds.RegularSurface.t)
    (vertical : Vds.VerticalWindow.t) (row col : nat) : bool :=
  let k2 := (Vds.at3 (horizon_k m surface row col) 2 + (1 # 2))%Q in
  Vds.inrange (Vds.sample m)
    (k2 - inject_Z (Z.of_nat (Vds.VerticalWindow.nsamples_above vertical)))%Q
  && Vds.inrange (Vds.sample m)
       (k2 + inject_Z (Z.of_nat (Vds.VerticalWindow.nsamples_below vertical)))%Q.

(** After [c] cells: the no-value list holds only the first positions of
    skipped cells, and every cell that was sampled has its window within the
    cube. *)
Definition cells_checked (m : Vds.MetadataHandle) (surface : Vds.RegularSurface.t)
    (fillvalue : Q) (vertical : Vds.VerticalWindow.t) (c : nat) (st : Vds.cursor)
    : Prop :=
  let ncols := Vds.RegularSurface.ncols surface in
  let vsize := Vds.VerticalWindow.size vertical in
  cells_done m surface fillvalue vertical c st /\
  (forall i, In i (Vds.noval_indicies st) ->
     exists row col,
       col < ncols /\ row * ncols + col < c /\
       skipped m surface fillvalue row col = true /\ i = (row * ncols + col) * vsize) /\
  (forall row col,
     col < ncols -> row * ncols + col < c ->
     skipped m surface fillvalue row col = false ->
     vertical_range m surface vertical row col = true).

Lemma cells_checked_step (m : Vds.MetadataHandle) (surface : Vds.RegularSurface.t)
    (fillvalue : Q) (vertical : Vds.VerticalWindow.t) (fuel : nat) :
  distinct_dimensions m ->
  forall row col st st',
    row < Vds.RegularSurface.nrows surface -> col < Vds.RegularSurface.ncols surface ->
    cells_checked m surface fillvalue vertical
      (row * Vds.RegularSurface.ncols surface + col) st ->
    Vds.horizon_cell fuel m surface fillvalue vertical row col st = Some (Ok st') ->
    cells_checked m surface fillvalue vertical
      (row * Vds.RegularSurface.ncols surface + col + 1) st'.
Proof.
  intros Hdim row col st st' Hrow Hcol (Hdone & Hnoval & Hvert) Hcell.
  set (ncols := Vds.RegularSurface.ncols surface) in *.
  set (vsize := Vds.VerticalWindow.size vertical) in *.
  set (c := row * ncols + col) in *.
  split; [| split].
  - apply (horizon_cell_step m surface fillvalue vertical Hdim fuel row col st st');
      [exact Hcol | | exact Hdone | exact Hcell].
    unfold Vds.RegularSurface.size. apply Nat.mul_le_mono_r. fold ncols.
    assert ((row + 1) * ncols <= Vds.RegularSurface.nrows surface * ncols)
      by (apply Nat.mul_le_mono_r; lia).
    lia.
  - assert (Hold : forall i, In i (Vds.noval_indicies st) ->
               exists row' col',
                 col' < ncols /\ row' * ncols + col' < c + 1 /\
                 skipped m surface fillvalue row' col' = true /\
                 i = (row' * ncols + col') * vsize).
    { intros i Hi. destruct (Hnoval i Hi) as (r & cl & H1 & H2 & H3 & H4).
      exists r, cl. repeat split; try assumption. lia. }
    assert (Hskip : skipped m surface fillvalue row col = true ->
              forall i, In i (Vds.noval_indicies (Vds.skip_cell vertical st)) ->
              exists row' col',
                col' < ncols /\ row' * ncols + col' < c + 1 /\
                skipped m surface fillvalue row' col' = true /\
                i = (row' * ncols + col') * vsize).
    { intros Hsk i Hi. cbn [Vds.skip_cell Vds.noval_indicies] in Hi.
      apply in_app_or in Hi as [Hi | [<- | []]]; [apply Hold; exact Hi |].
      exists row, col. destruct Hdone as (Hpos & _).
      repeat split; [exact Hcol | lia | exact Hsk | exact Hpos]. }
    unfold Vds.horizon_cell in Hcell.
    fold (horizon_ij m surface row col) in Hcell.
    destruct (Qeq_bool (Vds.RegularSurface.value surface row col) fillvalue) eqn:Hfill.
    { injection Hcell as <-. apply Hskip. unfold skipped. now rewrite Hfill. }
    destruct (negb (Vds.inrange (Vds.iline m) _) || negb (Vds.inrange (Vds.xline m) _))
      eqn:Hrange.
    { injection Hcell as <-. apply Hskip. unfold skipped. rewrite Hfill, Hrange.
      reflexivity. }
    destruct (negb (Vds.inrange (Vds.sample m) _) || negb (Vds.inrange (Vds.sample m) _));
      [discriminate |].
    destruct (Vds.depth_loop _ _ _ _ _ _ _ _) as [[samples' i'] |]; [| discriminate].
    injection Hcell as <-. exact Hold.
  - intros row' col' Hcol' Hc' Hns.
    destruct (Nat.eq_dec (row' * ncols + col') c) as [Heq | Hne];
      [| apply Hvert; [exact Hcol' | lia | exact Hns]].
    destruct (cell_index_inj ncols row col row' col' Hcol Hcol' Heq) as [-> ->].
    unfold Vds.horizon_cell in Hcell.
    fold (horizon_ij m surface row col) in Hcell.
    fold (horizon_k m surface row col) in Hcell.
    unfold skipped in Hns. apply orb_false_iff in Hns as [Hfill Hrange].
    rewrite Hfill, Hrange in Hcell.
    unfold vertical_range.
    destruct (Vds.inrange (Vds.sample m) _); [| discriminate Hcell].
    destruct (Vds.inrange (Vds.sample m) _); [reflexivity | discriminate Hcell].
Qed.

(** What a successful [fetch_horizon] of [vds.cpp] returns, cell by cell (for
    a cube whose axes sit on different voxel dimensions and a sample buffer
    of at least nsamples floats).  A cell that holds the fill value or lies
    outside the cube in the horizontal plane has the fill value in all its
    floats.  Every other cell has its whole window within the cube, and its
    floats are the ones the volume library returned at its positions: the
    fill substitution does not touch them. *)
Theorem fetch_horizon_assembly (fuel : nat) (vds : Vds.Storage) (url credentials : string)
    (handle : Vds.DataHandle) (window : Q -> Q -> Q -> Vds.VerticalWindow.t)
    (surface : Vds.RegularSurface.t) (fillvalue above below : Q)
    (interpolation : Ctypes.interpolation_method) (resp : Vds.response) :
  vds url credentials = Ok handle ->
  let m := Vds.get_metadata handle in
  let vertical := window above below (Axis.stride (Vds.sample m)) in
  let vsize := Vds.VerticalWindow.size vertical in
  let ncols := Vds.RegularSurface.ncols surface in
  let nsamples := Vds.RegularSurface.size surface * vsize in
  distinct_dimensions m ->
  nsamples * 4 <= Vds.GetVolumeSamplesBufferSize handle nsamples ->
  Vds.fetch_horizon fuel vds url credentials window surface fillvalue above below
    interpolation = Some (Ok resp) ->
  exists samples fs bytes,
    Vds.RequestVolumeSamples handle samples interpolation = Some fs /\
    Vds.data resp = Some bytes /\ Vds.err resp = None /\
    Vds.size resp = Vds.GetVolumeSamplesBufferSize handle nsamples /\
    length bytes = Vds.size resp /\
    forall row col j,
      row < Vds.RegularSurface.nrows surface -> col < ncols -> j < vsize ->
      let c := (row * ncols + col) * vsize + j in
      if skipped m surface fillvalue row col then load_f32 bytes c = Some fillvalue
      else
        vertical_range m surface vertical row col = true /\
        forall v, fs !! c = Some v -> load_f32 bytes c = Some v.
Proof.
  intros Hopen m vertical vsize ncols nsamples Hdim Hsize.
  unfold Vds.fetch_horizon. rewrite Hopen. fold m vertical vsize nsamples.
  destruct (Vds.horizon_cells fuel m surface fillvalue vertical _)
    as [[st | e] |] eqn:Hcells; try discriminate.
  unfold Vds.read_samples, Vds.samples_buffer_size.
  destruct (Vds.RequestVolumeSamples handle (Vds.samples st) interpolation)
    as [fs |] eqn:Hreq; [| discriminate].
  intros H. injection H as <-.
  exists (Vds.samples st), fs. eexists. split; [exact Hreq |].
  split; [reflexivity |]. split; [reflexivity |]. split; [reflexivity |].
  cbn [Vds.to_response_data Vds.size].
  split; [rewrite write_fillvalue_length, memcpy_length; apply length_replicate |].
  apply (horizon_cells_inv m surface fillvalue vertical fuel
           (cells_checked m surface fillvalue vertical)
           (fun row col s s' Hr Hc =>
              cells_checked_step m surface fillvalue vertical fuel Hdim row col s s' Hr Hc))
    in Hcells.
  2:{ split; [| split].
      - unfold cells_done. cbn [Vds.pos Vds.samples Vds.noval_indicies].
        split; [lia |]. split; [apply length_replicate |].
        split; [apply replicate_voxels6 |]. split.
        + intros p Hp. apply lookup_replicate_2. lia.
        + intros row col _ Hc. lia.
      - intros i [].
      - intros row col _ Hc. lia. }
  destruct Hcells as ((_ & _ & _ & _ & Hdone) & Hnoval & Hvert).
  fold ncols vsize in Hnoval, Hvert, Hdone.
  intros row col j Hrow Hcol Hj. set (c := (row * ncols + col) * vsize + j).
  assert (Hcell : row * ncols + col < Vds.RegularSurface.nrows surface * ncols).
  { assert ((row + 1) * ncols <= Vds.RegularSurface.nrows surface * ncols)
      by (apply Nat.mul_le_mono_r; lia).
    lia. }
  assert (Hc : c < nsamples).
  { unfold nsamples, Vds.RegularSurface.size. fold ncols. subst c. nia. }
  destruct (skipped m surface fillvalue row col) eqn:Hsk.
  - specialize (Hdone row col Hcol Hcell). unfold cell_done in Hdone. cbn zeta in Hdone.
    rewrite Hsk in Hdone. destruct Hdone as [Hin _].
    apply holds_load. apply write_fillvalue_fills; [exact Hin | exact Hj |].
    rewrite memcpy_length, length_replicate. fold ncols vsize c. lia.
  - split; [apply Hvert; assumption |].
    intros v Hv. apply holds_load. intros k Hk.
    rewrite write_fillvalue_outside.
    + unfold memcpy. rewrite list_lookup_inserts.
      * rewrite Nat.sub_0_r. apply floats_to_bytes_lookup; assumption.
      * rewrite floats_to_bytes_length. apply lookup_lt_Some in Hv. lia.
      * rewrite length_replicate. lia.
    + intros i Hi. destruct (Hnoval i Hi) as (row' & col' & Hcol' & _ & Hsk' & ->).
      assert (Hne : row' * ncols + col' <> row * ncols + col).
      { intros Heq. destruct (cell_index_inj ncols row col row' col' Hcol Hcol' Heq)
          as [-> ->]. congruence. }
      subst c. nia.
Qed.

Lemma fetch_horizon_assembly_witness :
  exists resp bytes,
    Vds.fetch_horizon 3 WellKnown.storage "url" "sas"
      (fun _ _ _ => Vds.VerticalWindow.Build_t 1 1)
      (Vds.RegularSurface.Build_t [8; WellKnown.fillValue; 8; 8]%Q 2 2
         (fun row col => WellKnown.plane_to_world (Capi.Build_Plane 2 0 1 1 0) row col))
      WellKnown.fillValue 4 4 Ctypes.NEAREST
    = Some (Ok resp) /\
    Vds.data resp = Some bytes /\
    load_f32 bytes 4 = Some WellKnown.fillValue.
Proof.
  destruct (Vds.fetch_horizon 3 WellKnown.storage "url" "sas"
              (fun _ _ _ => Vds.VerticalWindow.Build_t 1 1)
              (Vds.RegularSurface.Build_t [8; WellKnown.fillValue; 8; 8]%Q 2 2
                 (fun row col =>
                    WellKnown.plane_to_world (Capi.Build_Plane 2 0 1 1 0) row col))
              WellKnown.fillValue 4 4 Ctypes.NEAREST)
    as [[resp | e] |] eqn:Hrun; try (vm_compute in Hrun; discriminate Hrun).
  destruct (fetch_horizon_assembly _ _ _ _ WellKnown.handle _ _ _ _ _ _ _ eq_refl
              ltac:(unfold distinct_dimensions; cbn; lia) ltac:(vm_compute; lia) Hrun)
    as (samples & fs & bytes & _ & Hdata & _ & _ & _ & Hcells).
  exists resp, bytes. split; [reflexivity |]. split; [exact Hdata |].
  exact (Hcells 0 1 1 ltac:(vm_compute; lia) ltac:(vm_compute; lia)
           ltac:(vm_compute; lia)).
Defined.

(** ** The responses of [vds.cpp] *)

(** A response carries data and no error text, or an error text, no data
    and size 0. *)
Definition data_or_error (r : Vds.response) : Prop :=
  match Vds.data r, Vds.err r with
  | Some _, None => True
  | None, Some _ => Vds.size r = 0
  | _, _ => False
  end.

(** [slice] and [fence] of [vds.cpp] turn every exception into a response:
    whatever the storage, the cube and the request are, the response carries
    either data and no error text, or the text of the exception, no data and
    size 0; a cube that cannot be opened gives the text of that failure for
    every request. *)
Theorem responses_data_or_error (vds : Vds.Storage) (url credentials : string) :
  (forall lineno ax, data_or_error (Vds.slice vds url credentials lineno ax)) /\
  (forall cs coordinates npoints interpolation,
     data_or_error (Vds.fence vds url credentials cs coordinates npoints interpolation)) /\
  (forall e,
     vds url credentials = Throw e ->
     (forall lineno ax,
        Vds.slice vds url credentials lineno ax
        = {| Vds.data := None; Vds.err := Some (what e); Vds.size := 0 |}) /\
     (forall cs coordinates npoints interpolation,
        Vds.fence vds url credentials cs coordinates npoints interpolation
        = {| Vds.data := None; Vds.err := Some (what e); Vds.size := 0 |}) /\
     (forall fuel window surface fillvalue above below interpolation,
        Vds.fetch_horizon fuel vds url credentials window surface fillvalue above below
          interpolation = Some (Throw e))).
Proof.
  split; [| split].
  - intros lineno ax. unfold Vds.slice, Vds.fetch_slice.
    destruct (vds url credentials) as [h | e]; cbn [bind]; [| exact eq_refl].
    destruct (negb _); [exact eq_refl |].
    destruct (Vds.read_slice h ax lineno); cbn [bind]; [exact I | exact eq_refl].
  - intros cs coordinates npoints interpolation. unfold Vds.fence, Vds.fetch_fence.
    destruct (vds url credentials) as [h | e]; cbn [bind]; [| exact eq_refl].
    destruct (Vds.fence_loop _ _ _ _ _ _); cbn [bind]; [| exact eq_refl].
    destruct (Vds.read_traces _ _ _ _); cbn [bind]; [exact I | exact eq_refl].
  - intros e He. split; [| split].
    + intros lineno ax. unfold Vds.slice, Vds.fetch_slice. rewrite He. reflexivity.
    + intros cs coordinates npoints interpolation. unfold Vds.fence, Vds.fetch_fence.
      rewrite He. reflexivity.
    + intros. unfold Vds.fetch_horizon. rewrite He. reflexivity.
Qed.

(** ** The three surfaces of an along-surface request *)





(** ** The attributes of the first engine *)

(** The Go side of [vds.cpp] ([package vds]). *)
Module Vdsgo.

Definition GetAttributeType (attribute : string) : Core.go Ctypes.attribute :=
  let a := Core.ToLower attribute in
  if String.eqb a "samplevalue" then Core.Return Ctypes.VALUE
  else if String.eqb a "min" then Core.Return Ctypes.MIN
  else if String.eqb a "max" then Core.Return Ctypes.MAX
  else if String.eqb a "mean" then Core.Return Ctypes.MEAN
  else if String.eqb a "rms" then Core.Return Ctypes.RMS
  else
    let options := "samplevalue, min, max, mean, rms" in
    (* fmt.Errorf *)
    Core.Err (Core.errors_New
                ("invalid attribute '" +:+ attribute +:+ "', valid options are: " +:+
                 options)).

End Vdsgo.

(** The attributes that [calculate_attribute] has a case for. *)
Definition implemented (a : Ctypes.attribute) : bool :=
  match a with
  | Ctypes.VALUE | Ctypes.MIN | Ctypes.MAX | Ctypes.MEAN | Ctypes.RMS => true
  | _ => false
  end.

Lemma attribute_loop_spec (size index vsize : nat) (attributes : list Ctypes.attribute) :
  forall (i : nat) (attrs : list Vds.Attribute),
    if forallb implemented attributes then
      exists more,
        Vds.attribute_loop attributes i size index vsize attrs = Ok (attrs ++ more) /\
        length more = length attributes /\
        forall k a, more !! k = Some a ->
          match a with
          | Vds.Value dst sz _ | Vds.Min dst sz | Vds.Max dst sz
          | Vds.Mean dst sz _ | Vds.Rms dst sz _ => dst = (i + k) * size /\ sz = size
          end
    else
      Vds.attribute_loop attributes i size index vsize attrs
      = Throw (runtime_error "Attribute not implemented").
Proof.
  induction attributes as [| a rest IH]; intros i attrs; cbn [forallb Vds.attribute_loop].
  - exists []. rewrite app_nil_r. split; [reflexivity |]. split; [reflexivity |].
    intros k a H. discriminate H.
  - destruct (implemented a) eqn:Ha; cbn [andb].
    + assert (Hstep : exists attr,
                (match a with
                 | Ctypes.VALUE => Ok (Vds.Value (i * size) size index)
                 | Ctypes.MIN => Ok (Vds.Min (i * size) size)
                 | Ctypes.MAX => Ok (Vds.Max (i * size) size)
                 | Ctypes.MEAN => Ok (Vds.Mean (i * size) size vsize)
                 | Ctypes.RMS => Ok (Vds.Rms (i * size) size vsize)
                 | _ => Throw (runtime_error "Attribute not implemented")
                 end) = Ok attr /\
                match attr with
                | Vds.Value dst sz _ | Vds.Min dst sz | Vds.Max dst sz
                | Vds.Mean dst sz _ | Vds.Rms dst sz _ => dst = i * size /\ sz = size
                end).
      { destruct a; try discriminate Ha; eexists; split; try reflexivity; cbn; auto. }
      destruct Hstep as (attr & -> & Hattr). cbn [bind].
      specialize (IH (S i) (attrs ++ [attr])).
      destruct (forallb implemented rest).
      * destruct IH as (more & -> & Hlen & Hmore).
        exists (attr :: more). rewrite <- app_assoc. split; [reflexivity |].
        split; [cbn; lia |].
        intros k a' Hk. destruct k as [| k]; cbn in Hk.
        -- injection Hk as <-. rewrite Nat.add_0_r. exact Hattr.
        -- specialize (Hmore k a' Hk). replace (i + S k) with (S i + k) by lia.
           exact Hmore.
      * exact IH.
    + destruct a; try discriminate Ha; reflexivity.
Qed.

(** The first engine computes five attributes.  [calculate_attribute]
    succeeds exactly when every requested attribute is one of VALUE, MIN,
    MAX, MEAN and RMS, and otherwise throws "Attribute not implemented"
    before anything is computed; the i-th attribute gets the i-th region of
    surface-size floats of a buffer of nattributes such regions.  The names
    that [GetAttributeType] of [package vds] accepts give exactly these
    five, and [GetAttributeType] of [package core] reads each of these names
    as the same attribute. *)
Theorem first_engine_attributes :
  (forall calc vertical surface attributes,
     let size := Vds.RegularSurface.size surface * 4 in
     if forallb implemented attributes then
       exists attrs,
         Vds.calculate_attribute calc vertical surface attributes (length attributes)
         = Ok (Vds.to_response_data
                 (calc attrs (replicate (size * length attributes) Byte0))
                 (size * length attributes)) /\
         length attrs = length attributes /\
         forall i a, attrs !! i = Some a ->
           match a with
           | Vds.Value dst sz _ | Vds.Min dst sz | Vds.Max dst sz
           | Vds.Mean dst sz _ | Vds.Rms dst sz _ => dst = i * size /\ sz = size
           end
     else
       Vds.calculate_attribute calc vertical surface attributes (length attributes)
       = Throw (runtime_error "Attribute not implemented")) /\
  (forall name id,
     Vdsgo.GetAttributeType name = Core.Return id ->
     implemented id = true /\ Core.GetAttributeType name = Core.Return id) /\
  (forall id, implemented id = true ->
     exists name, Vdsgo.GetAttributeType name = Core.Return id).
Proof.
  split; [| split].
  - intros calc vertical surface attributes size.
    unfold Vds.calculate_attribute. rewrite firstn_all.
    pose proof (attribute_loop_spec size (Vds.VerticalWindow.nsamples_above vertical)
                  (Vds.VerticalWindow.size vertical) attributes 0 []) as H.
    fold size. unfold sizeof_float. fold size.
    destruct (forallb implemented attributes).
    + destruct H as (more & -> & Hlen & Hmore). cbn [bind app].
      exists more. split; [reflexivity |]. split; [exact Hlen | exact Hmore].
    + rewrite H. reflexivity.
  - intros name id. unfold Vdsgo.GetAttributeType, Core.GetAttributeType. cbn zeta.
    switch_on (Core.ToLower name); intros H; try discriminate H;
      injection H as <-;
      match goal with
      | Hname : Core.ToLower name = _ |- _ => try rewrite Hname
      end; split; reflexivity.
  - intros []; try discriminate; intros _.
    + exists "samplevalue"%string. reflexivity.
    + exists "min"%string. reflexivity.
    + exists "max"%string. reflexivity.
    + exists "mean"%string. reflexivity.
    + exists "rms"%string. reflexivity.
Qed.

(** ** The axes of a cube: [src/internal/core/metadatahandle.cpp] *)

Module MetadataHandle.

Import Ctypes.

(** [OpenVDS::VolumeDataLayout], as far as the constructor looks at it. *)
Record Layout := {
  GetDimensionality : nat;
  GetDimensionName : nat -> string;
}.

(** [for (auto name : names)]: the dimension name is that of one of the
    directions.  [to_string] is [Direction::to_string] of [direction.hpp]. *)
Definition is_named (to_string : axis_name -> string) (dimensionName : string)
    (names : list axis_name) : bool :=
  existsb (fun name => String.eqb dimensionName (to_string name)) names.

(** [for (auto i = 0; i < GetDimensionality(); i++)]. *)
Fixpoint find_dimension (to_string : axis_name -> string) (layout : Layout)
    (names : list axis_name) (n i : nat) : option nat :=
  match n with
  | 0 => None
  | S n' =>
      if is_named to_string (GetDimensionName layout i) names then Some i
      else find_dimension to_string layout names n' (S i)
  end.

Definition get_dimension (to_string : axis_name -> string) (layout : Layout)
    (names : list axis_name) : result nat :=
  match find_dimension to_string layout names (GetDimensionality layout) 0 with
  | Some i => Ok i
  | None =>
      Throw (runtime_error
               ("Unsupported axis in VDS file, expected (Sample|Time|Depth, Crossline, Inline) but got " +:+
                show_nat (GetDimensionality layout)))
  end.

Definition dimension_validation (layout : Layout) : result () :=
  if negb (GetDimensionality layout =? 3) then
    Throw (runtime_error
             ("Unsupported VDS, expected 3 dimensions, got " +:+
              show_nat (GetDimensionality layout)))
  else Ok ().

(** The constructor: the dimensions of [m_iline], [m_xline] and [m_sample],
    in the order of the member initialisers, then the body. *)
Definition new (to_string : axis_name -> string) (layout : Layout)
    : result (nat * nat * nat) :=
  let? iline := get_dimension to_string layout [INLINE] in
  let? xline := get_dimension to_string layout [CROSSLINE] in
  let? sample := get_dimension to_string layout [SAMPLE; DEPTH; TIME] in
  let? _ := dimension_validation layout in
  Ok (iline, xline, sample).

End MetadataHandle.

Lemma find_dimension_spec (to_string : Ctypes.axis_name -> string)
    (layout : MetadataHandle.Layout) (names : list Ctypes.axis_name) (n : nat) :
  forall i,
    match MetadataHandle.find_dimension to_string layout names n i with
    | Some d =>
        i <= d < i + n /\
        MetadataHandle.is_named to_string (MetadataHandle.GetDimensionName layout d) names
        = true /\
        forall k, i <= k < d ->
          MetadataHandle.is_named to_string (MetadataHandle.GetDimensionName layout k)
            names = false
    | None =>
        forall k, i <= k < i + n ->
          MetadataHandle.is_named to_string (MetadataHandle.GetDimensionName layout k)
            names = false
    end.
Proof.
  induction n as [| n IH]; intros i; cbn [MetadataHandle.find_dimension].
  - intros k Hk. lia.
  - destruct (MetadataHandle.is_named to_string _ names) eqn:Hi.
    + split; [lia |]. split; [exact Hi | intros k Hk; lia].
    + specialize (IH (S i)).
      destruct (MetadataHandle.find_dimension to_string layout names n (S i)) as [d |].
      * destruct IH as (Hd & Hnamed & Hfirst). split; [lia |]. split; [exact Hnamed |].
        intros k Hk. destruct (Nat.eq_dec k i) as [-> | Hne]; [exact Hi |].
        apply Hfirst. lia.
      * intros k Hk. destruct (Nat.eq_dec k i) as [-> | Hne]; [exact Hi |].
        apply IH. lia.
Qed.

(** The name of dimension [d] is the name of one of [names]. *)
Definition named (to_string : Ctypes.axis_name -> string)
    (layout : MetadataHandle.Layout) (d : nat) (names : list Ctypes.axis_name) : Prop :=
  exists name, In name names /\ MetadataHandle.GetDimensionName layout d = to_string name.

Lemma is_named_iff (to_string : Ctypes.axis_name -> string)
    (layout : MetadataHandle.Layout) (d : nat) (names : list Ctypes.axis_name) :
  MetadataHandle.is_named to_string (MetadataHandle.GetDimensionName layout d) names = true
  <-> named to_string layout d names.
Proof.
  unfold MetadataHandle.is_named, named. rewrite existsb_exists.
  split; intros (name & Hin & H); exists name; (split; [exact Hin |]).
  - now apply String.eqb_eq.
  - now apply String.eqb_eq.
Qed.

(** When the names "Inline" and "Crossline" differ from each other and from
    the names of the vertical directions, a metadata handle that was
    constructed sits on a cube of exactly three dimensions and has its
    inline, crossline and sample axis on three different ones, each the
    first dimension that carries the name.  A cube without a dimension of
    one of the names is refused as "Unsupported axis ..." (whatever its
    number of dimensions), and only then is a cube refused for not having
    three dimensions. *)
Theorem metadata_axes (to_string : Ctypes.axis_name -> string)
    (layout : MetadataHandle.Layout) :
  to_string Ctypes.INLINE <> to_string Ctypes.CROSSLINE ->
  (forall name, In name [Ctypes.SAMPLE; Ctypes.DEPTH; Ctypes.TIME] ->
     to_string name <> to_string Ctypes.INLINE /\
     to_string name <> to_string Ctypes.CROSSLINE) ->
  let n := MetadataHandle.GetDimensionality layout in
  let vertical := [Ctypes.SAMPLE; Ctypes.DEPTH; Ctypes.TIME] in
  (forall iline xline sample,
     MetadataHandle.new to_string layout = Ok (iline, xline, sample) ->
     n = 3 /\ iline < 3 /\ xline < 3 /\ sample < 3 /\
     iline <> xline /\ iline <> sample /\ xline <> sample /\
     named to_string layout iline [Ctypes.INLINE] /\
     named to_string layout xline [Ctypes.CROSSLINE] /\
     named to_string layout sample vertical /\
     (forall k, k < sample -> ~ named to_string layout k vertical)) /\
  ((forall k, k < n -> ~ named to_string layout k [Ctypes.INLINE]) \/
   (forall k, k < n -> ~ named to_string layout k [Ctypes.CROSSLINE]) \/
   (forall k, k < n -> ~ named to_string layout k vertical) ->
   MetadataHandle.new to_string layout
   = Throw (runtime_error
              ("Unsupported axis in VDS file, expected (Sample|Time|Depth, Crossline, Inline) but got " +:+
               show_nat n))) /\
  (forall i x s,
     i < n -> x < n -> s < n ->
     named to_string layout i [Ctypes.INLINE] ->
     named to_string layout x [Ctypes.CROSSLINE] ->
     named to_string layout s vertical ->
     n <> 3 ->
     MetadataHandle.new to_string layout
     = Throw (runtime_error
                ("Unsupported VDS, expected 3 dimensions, got " +:+ show_nat n))).
Proof.
  intros Hix Hv n vertical.
  assert (Hget : forall names,
            match MetadataHandle.get_dimension to_string layout names with
            | Ok d =>
                d < n /\ named to_string layout d names /\
                forall k, k < d -> ~ named to_string layout k names
            | Throw e =>
                e = runtime_error
                      ("Unsupported axis in VDS file, expected (Sample|Time|Depth, Crossline, Inline) but got " +:+
                       show_nat n) /\
                forall k, k < n -> ~ named to_string layout k names
            end).
  { intros names. unfold MetadataHandle.get_dimension. fold n.
    pose proof (find_dimension_spec to_string layout names n 0) as H.
    destruct (MetadataHandle.find_dimension to_string layout names n 0) as [d |].
    - destruct H as (Hd & Hnamed & Hfirst). split; [lia |].
      split; [now apply is_named_iff |].
      intros k Hk Hn. apply is_named_iff in Hn. rewrite Hfirst in Hn by lia.
      discriminate Hn.
    - split; [reflexivity |]. intros k Hk Hn. apply is_named_iff in Hn.
      rewrite H in Hn by lia. discriminate Hn. }
  pose proof (Hget [Ctypes.INLINE]) as Hi. pose proof (Hget [Ctypes.CROSSLINE]) as Hx.
  pose proof (Hget vertical) as Hs. fold vertical. unfold MetadataHandle.new.
  fold vertical.
  destruct (MetadataHandle.get_dimension to_string layout [Ctypes.INLINE]) as [i | ei];
    cbn [bind].
  2:{ destruct Hi as [-> Hi]. split; [intros; discriminate |]. split; [reflexivity |].
      intros i x s Hin _ _ Hni _ _ _. exfalso. exact (Hi i Hin Hni). }
  destruct (MetadataHandle.get_dimension to_string layout [Ctypes.CROSSLINE]) as [x | ex];
    cbn [bind].
  2:{ destruct Hx as [-> Hx]. split; [intros; discriminate |]. split; [reflexivity |].
      intros i' x s _ Hxn _ _ Hnx _ _. exfalso. exact (Hx x Hxn Hnx). }
  destruct (MetadataHandle.get_dimension to_string layout vertical) as [s | es];
    cbn [bind].
  2:{ destruct Hs as [-> Hs]. split; [intros; discriminate |]. split; [reflexivity |].
      intros i' x' s _ _ Hsn _ _ Hns _. exfalso. exact (Hs s Hsn Hns). }
  destruct Hi as (Hin & Hni & _). destruct Hx as (Hxn & Hnx & _).
  destruct Hs as (Hsn & Hns & Hfirst).
  unfold MetadataHandle.dimension_validation. fold n.
  destruct (Nat.eqb_spec n 3) as [H3 | H3]; cbn [negb bind].
  - split; [| split].
    + intros iline xline sample H. injection H as <- <- <-.
      assert (Hdiff : i <> x /\ i <> s /\ x <> s).
      { destruct Hni as (ni & [<- | []] & Hi1). destruct Hnx as (nx & [<- | []] & Hx1).
        destruct Hns as (ns & Hins & Hs1). destruct (Hv ns Hins) as [Hsi Hsx].
        repeat split; intros ->; congruence. }
      repeat split; try lia; try tauto; assumption.
    + intros [H | [H | H]]; exfalso;
        [exact (H i Hin Hni) | exact (H x Hxn Hnx) | exact (H s Hsn Hns)].
    + intros. contradiction.
  - split; [intros; discriminate |]. split; [| reflexivity].
    intros [H | [H | H]]; exfalso;
      [exact (H i Hin Hni) | exact (H x Hxn Hnx) | exact (H s Hsn Hns)].
Qed.

Lemma metadata_axes_witness :
  MetadataHandle.new WellKnown.to_string
    {| MetadataHandle.GetDimensionality := 3;
       MetadataHandle.GetDimensionName := fun i =>
         match i with 0 => "Sample" | 1 => "Crossline" | _ => "Inline" end%string |}
  = Ok (2, 1, 0) /\
  (2 <> 1 /\ 2 <> 0 /\ 1 <> 0).
Proof.
  split; [reflexivity |].
  destruct (metadata_axes WellKnown.to_string
              {| MetadataHandle.GetDimensionality := 3;
                 MetadataHandle.GetDimensionName := fun i =>
                   match i with 0 => "Sample" | 1 => "Crossline" | _ => "Inline" end%string |})
    as (Hok & _).
  - discriminate.
  - intros name [<- | [<- | [<- | []]]]; split; discriminate.
  - destruct (Hok 2 1 0 eq_refl) as (_ & _ & _ & _ & H1 & H2 & H3 & _).
    exact (conj H1 (conj H2 H3)).
Defined.
